(** * ppt_generator: a shallow embedding of the backend and its properties

  The development follows the backend modules:
  - [models.py]         (the [Slide] / [SlideDeck] schema),
  - [pptx_builder.py]   (image harvesting, layout choice, deck building),
  - [llm_providers.py]  (JSON extraction, provider calls, retry wrapper),
  - [security.py]       (the size limit and the key mask),
  - [main.py]           (the two request handlers).

  Python values are modelled as follows.
  - [str] is [string]; a character is a code point in U+0000..U+00FF.
    [str.lower], [str.strip] and the regex class [\s] follow Unicode on
    that range.
  - [bytes] is [list byte].
  - A raised exception is the [Raise] branch of [result]; [try/except
    Exception] is a [match] on it.
  - Calls into third-party libraries (python-pptx, httpx, tenacity, json,
    re) are modelled by what the calling code observes of them. *)

From Stdlib Require Import List String Ascii Bool Arith ZArith NArith Lia.
From Stdlib Require Import QArith Qminmax Lqa.
From Stdlib Require Import DecimalString.
Import ListNotations.

Set Warnings "-register-all".

Local Open Scope string_scope.
Local Open Scope list_scope.

(** ** Python primitives *)

Module Py.

(** Outcome of a call: a value, or a raised exception of type [E]. *)
Inductive result (E A : Type) : Type :=
| Ok (a : A)
| Raise (e : E).
Arguments Ok {E A} a.
Arguments Raise {E A} e.

Definition bind {E A B} (m : result E A) (k : A -> result E B) : result E B :=
  match m with
  | Ok a => k a
  | Raise e => Raise e
  end.

Definition is_ok {E A} (m : result E A) : bool :=
  match m with Ok _ => true | Raise _ => false end.

(** [bytes] *)
Definition bytes := list Byte.byte.

Definition code (c : ascii) : N := N_of_ascii c.

(** The double quote U+0022. *)
Definition dquote : ascii := "034"%char.

(** [c.isspace()] for a code point below U+0100. *)
Definition isspace (c : ascii) : bool :=
  let n := code c in
  ((9 <=? n) && (n <=? 13) || (28 <=? n) && (n <=? 32)
   || (n =? 133) || (n =? 160))%N.

(** Upper-case letters below U+0100: A-Z, and U+00C0..U+00DE except the
    multiplication sign U+00D7. Their lower-case form is 32 further. *)
Definition isupper (c : ascii) : bool :=
  let n := code c in
  ((65 <=? n) && (n <=? 90)
   || (192 <=? n) && (n <=? 222) && negb (n =? 215))%N.

Definition lower_char (c : ascii) : ascii :=
  if isupper c then ascii_of_N (code c + 32) else c.

(** [s.lower()] *)
Fixpoint lower (s : string) : string :=
  match s with
  | EmptyString => EmptyString
  | String c s' => String (lower_char c) (lower s')
  end.

(** [s.lstrip()] *)
Fixpoint lstrip (s : string) : string :=
  match s with
  | EmptyString => EmptyString
  | String c s' => if isspace c then lstrip s' else s
  end.

(** [s.rstrip()]: a character is dropped when it is white space and
    everything after it has been dropped. *)
Fixpoint rstrip (s : string) : string :=
  match s with
  | EmptyString => EmptyString
  | String c s' =>
      match rstrip s' with
      | EmptyString => if isspace c then EmptyString else String c EmptyString
      | r => String c r
      end
  end.

(** [s.strip()] *)
Definition strip (s : string) : string := rstrip (lstrip s).

(** [s.rstrip(ch)] for a one-character argument. *)
Fixpoint rstrip_char (ch : ascii) (s : string) : string :=
  match s with
  | EmptyString => EmptyString
  | String c s' =>
      match rstrip_char ch s' with
      | EmptyString => if Ascii.eqb c ch then EmptyString else String c EmptyString
      | r => String c r
      end
  end.

(** [s.startswith(p)] *)
Fixpoint startswith (p s : string) : bool :=
  match p, s with
  | EmptyString, _ => true
  | String a p', String b s' => Ascii.eqb a b && startswith p' s'
  | String _ _, EmptyString => false
  end.

(** [needle in hay] *)
Fixpoint contains (needle hay : string) : bool :=
  startswith needle hay
  || match hay with
     | EmptyString => false
     | String _ hay' => contains needle hay'
     end.

(** [s.endswith(p)] *)
Definition endswith (p s : string) : bool :=
  let n := String.length s in
  let k := String.length p in
  (k <=? n)%nat && String.eqb (substring (n - k) k s) p.

(** [s[:n]] for [n >= 0] *)
Fixpoint take (n : N) (s : string) : string :=
  match s with
  | EmptyString => EmptyString
  | String c s' => if (n =? 0)%N then EmptyString else String c (take (N.pred n) s')
  end.

(** [str(n)] for an [int] *)
Definition str_of_int (z : Z) : string :=
  NilZero.string_of_int (Z.to_int z).

(** [x or d] on strings: the empty string is falsy. *)
Definition str_or (x d : string) : string :=
  match x with EmptyString => d | _ => x end.

(** [x or d] where [x] may also be [None]. *)
Definition opt_str_or (x : option string) (d : string) : string :=
  match x with
  | Some s => str_or s d
  | None => d
  end.

End Py.

Import Py.

Notation "x <- m ;; k" := (Py.bind m (fun x => k))
(at level 61, m at next level, right associativity).

(** ** JSON values, as [json.loads] builds them *)

Module Json.

(** [dict] keeps insertion order; a float keeps its literal. *)
Inductive value : Type :=
| JNull
| JBool (b : bool)
| JInt (z : Z)
| JFloat (literal : string)
| JStr (s : string)
| JArr (xs : list value)
| JObj (kvs : list (string * value)).

(** [d.get(k)] on the items of a dict *)
Fixpoint lookup (k : string) (kvs : list (string * value)) : option value :=
  match kvs with
  | [] => None
  | (k', v) :: rest => if String.eqb k k' then Some v else lookup k rest
  end.

(** [d[k] = v] on the items of a dict: an existing key keeps its place. *)
Fixpoint store (k : string) (v : value) (kvs : list (string * value))
  : list (string * value) :=
  match kvs with
  | [] => [(k, v)]
  | (k', v') :: rest =>
      if String.eqb k k' then (k', v) :: rest else (k', v') :: store k v rest
  end.

(** Truth value of a JSON value seen as a Python object. A float is
    falsy when it is zero: here, when the digits of its literal before the
    exponent are all zeros (a literal so small that it rounds to zero
    counts as non-zero). *)
Definition float_is_zero (lit : string) : bool :=
  let mantissa :=
    (fix go (s : string) : bool :=
       match s with
       | EmptyString => true
       | String c s' =>
           if (Ascii.eqb c "e" || Ascii.eqb c "E")%bool then true
           else if (Ascii.eqb c "0" || Ascii.eqb c "." || Ascii.eqb c "-")%bool
                then go s'
                else false
       end) in
  mantissa lit.

Definition truthy (j : value) : bool :=
  match j with
  | JNull => false
  | JBool b => b
  | JInt z => negb (Z.eqb z 0)
  | JFloat lit => negb (float_is_zero lit)
  | JStr s => negb (String.eqb s "")
  | JArr xs => match xs with [] => false | _ => true end
  | JObj kvs => match kvs with [] => false | _ => true end
  end.

(** *** The decoder

    [loads] follows CPython's [json.loads] on a [str]: [JSONDecoder.decode],
    [scan_once], [JSONObject], [JSONArray] and [scanstring] of
    json/decoder.py and json/scanner.py, with the grammar of the C scanner
    that CPython runs by default (ASCII digits, four hexadecimal digits
    after [\u]). Positions in the document are replaced by the text that
    remains to be read. *)

Inductive DecodeError : Type :=
| Malformed     (* json.JSONDecodeError *)
| Beyond        (* the document leaves the model: a [\u] escape above
                   U+00FF, a lone surrogate included *)
| Exhausted.    (* the recursion bound of the model was reached *)

Definition dresult := result DecodeError.

(** [WHITESPACE.match(s, end).end()] *)
Fixpoint skip_ws (s : string) : string :=
  match s with
  | String c s' =>
      if (Ascii.eqb c " " || Ascii.eqb c "009" || Ascii.eqb c "010"
          || Ascii.eqb c "013")%bool
      then skip_ws s' else s
  | EmptyString => s
  end.

Definition is_digit (c : ascii) : bool :=
  ((48 <=? code c) && (code c <=? 57))%N.

Definition hex_digit (c : ascii) : option N :=
  let n := code c in
  if ((48 <=? n) && (n <=? 57))%N then Some (n - 48)%N
  else if ((97 <=? n) && (n <=? 102))%N then Some (n - 87)%N
  else if ((65 <=? n) && (n <=? 70))%N then Some (n - 55)%N
  else None.

(** The four hexadecimal digits of a [\uXXXX] escape. *)
Definition hex4 (a b c d : ascii) : option N :=
  match hex_digit a, hex_digit b, hex_digit c, hex_digit d with
  | Some x, Some y, Some z, Some w => Some (((x * 16 + y) * 16 + z) * 16 + w)%N
  | _, _, _, _ => None
  end.

(** [BACKSLASH] *)
Definition backslash (esc : ascii) : option ascii :=
  if Ascii.eqb esc dquote then Some dquote
  else if Ascii.eqb esc "\" then Some "\"%char
  else if Ascii.eqb esc "/" then Some "/"%char
  else if Ascii.eqb esc "b" then Some "008"%char
  else if Ascii.eqb esc "f" then Some "012"%char
  else if Ascii.eqb esc "n" then Some "010"%char
  else if Ascii.eqb esc "r" then Some "013"%char
  else if Ascii.eqb esc "t" then Some "009"%char
  else None.

(** [scanstring], from the character after the opening quote: the decoded
    string and the text after the closing quote. *)
Fixpoint scanstring (s : string) : dresult (string * string) :=
  match s with
  | EmptyString => Raise Malformed
  | String c s' =>
      if Ascii.eqb c dquote then Ok (EmptyString, s')
      else if Ascii.eqb c "\" then
        match s' with
        | EmptyString => Raise Malformed
        | String esc s2 =>
            if Ascii.eqb esc "u" then
              match s2 with
              | String h1 (String h2 (String h3 (String h4 s3))) =>
                  match hex4 h1 h2 h3 h4 with
                  | None => Raise Malformed
                  | Some uni =>
                      if (uni <? 256)%N then
                        r <- scanstring s3 ;;
                        Ok (String (ascii_of_N uni) (fst r), snd r)
                      else Raise Beyond
                  end
              | _ => Raise Malformed
              end
            else
              match backslash esc with
              | None => Raise Malformed
              | Some ch =>
                  r <- scanstring s2 ;;
                  Ok (String ch (fst r), snd r)
              end
        end
      else if (code c <? 32)%N then Raise Malformed
      else
        r <- scanstring s' ;;
        Ok (String c (fst r), snd r)
  end.

(** The longest prefix of digits, and what follows it. *)
Fixpoint digits (s : string) : string * string :=
  match s with
  | String c s' =>
      if is_digit c then let (d, r) := digits s' in (String c d, r)
      else (EmptyString, s)
  | EmptyString => (EmptyString, s)
  end.

(** [int(lit)] for a literal made of digits. *)
Definition int_of_digits (lit : string) : Z :=
  (fix go (acc : Z) (s : string) : Z :=
     match s with
     | String c s' => go (acc * 10 + Z.of_N (code c - 48))%Z s'
     | EmptyString => acc
     end) 0%Z lit.

(** The integer part of [NUMBER_RE] (an optional minus, then a zero or a
    non-zero digit followed by digits): sign, digits, rest. *)
Definition match_integer (s : string) : option (bool * string * string) :=
  let (neg, s1) :=
    match s with
    | String c s' => if Ascii.eqb c "-" then (true, s') else (false, s)
    | EmptyString => (false, s)
    end in
  match s1 with
  | String c s2 =>
      if Ascii.eqb c "0" then Some (neg, "0", s2)
      else if is_digit c then
        let (d, r) := digits s2 in Some (neg, String c d, r)
      else None
  | EmptyString => None
  end.

(** The optional fraction of [NUMBER_RE] (a point and at least one digit):
    the matched text and the rest. *)
Definition match_frac (s : string) : string * string :=
  match s with
  | String c s' =>
      if Ascii.eqb c "." then
        match digits s' with
        | (EmptyString, _) => (EmptyString, s)
        | (d, r) => (String c d, r)
        end
      else (EmptyString, s)
  | EmptyString => (EmptyString, s)
  end.

(** The optional exponent of [NUMBER_RE] (e or E, an optional sign, at least
    one digit): the matched text and the rest. *)
Definition match_exp (s : string) : string * string :=
  match s with
  | String e s' =>
      if (Ascii.eqb e "e" || Ascii.eqb e "E")%bool then
        let (sign, s2) :=
          match s' with
          | String g s3 =>
              if (Ascii.eqb g "-" || Ascii.eqb g "+")%bool
              then (String g EmptyString, s3) else (EmptyString, s')
          | EmptyString => (EmptyString, s')
          end in
        match digits s2 with
        | (EmptyString, _) => (EmptyString, s)
        | (d, r) => (String e (sign ++ d), r)
        end
      else (EmptyString, s)
  | EmptyString => (EmptyString, s)
  end.

(** The number and constant branches of [_scan_once]. *)
Definition scan_number (s : string) : dresult (value * string) :=
  match match_integer s with
  | Some (neg, int_lit, r) =>
      let (frac, r1) := match_frac r in
      let (exp, r2) := match_exp r1 in
      let signed := if neg then String "-" int_lit else int_lit in
      match frac, exp with
      | EmptyString, EmptyString =>
          Ok (JInt (if neg then - int_of_digits int_lit else int_of_digits int_lit)%Z, r2)
      | _, _ => Ok (JFloat (signed ++ frac ++ exp), r2)
      end
  | None =>
      if startswith "NaN" s then Ok (JFloat "NaN", substring 3 (String.length s) s)
      else if startswith "Infinity" s
           then Ok (JFloat "Infinity", substring 8 (String.length s) s)
      else if startswith "-Infinity" s
           then Ok (JFloat "-Infinity", substring 9 (String.length s) s)
      else Raise Malformed
  end.

(** [dict(pairs)] *)
Definition dict (pairs : list (string * value)) : list (string * value) :=
  fold_left (fun d kv => store (fst kv) (snd kv) d) pairs [].

(** [_scan_once], with the loops of [JSONObject] ([members], entered after
    the opening quote of a key) and [JSONArray] ([elements], entered at a
    value). [fuel] bounds the number of nested calls; a document never needs
    more than twice its length, so [loads] never ends [Exhausted]. *)
Fixpoint scan_once (fuel : nat) (s : string) : dresult (value * string) :=
  match fuel with
  | O => Raise Exhausted
  | S fuel' =>
      match s with
      | EmptyString => Raise Malformed
      | String c s' =>
          if Ascii.eqb c dquote then
            r <- scanstring s' ;; Ok (JStr (fst r), snd r)
          else if Ascii.eqb c "{" then
            match skip_ws s' with
            | String d r =>
                if Ascii.eqb d "}" then Ok (JObj [], r)
                else if Ascii.eqb d dquote then members fuel' r []
                else Raise Malformed
            | EmptyString => Raise Malformed
            end
          else if Ascii.eqb c "[" then
            match skip_ws s' with
            | String d r =>
                if Ascii.eqb d "]" then Ok (JArr [], r)
                else elements fuel' (String d r) []
            | EmptyString => Raise Malformed
            end
          else if startswith "null" s then Ok (JNull, substring 4 (String.length s) s)
          else if startswith "true" s then Ok (JBool true, substring 4 (String.length s) s)
          else if startswith "false" s then Ok (JBool false, substring 5 (String.length s) s)
          else scan_number s
      end
  end

with members (fuel : nat) (s : string) (pairs : list (string * value))
  : dresult (value * string) :=
  match fuel with
  | O => Raise Exhausted
  | S fuel' =>
      k <- scanstring s ;;
      match skip_ws (snd k) with
      | String c s1 =>
          if Ascii.eqb c ":" then
            v <- scan_once fuel' (skip_ws s1) ;;
            let pairs' := pairs ++ [(fst k, fst v)] in
            match skip_ws (snd v) with
            | String d s2 =>
                if Ascii.eqb d "}" then Ok (JObj (dict pairs'), s2)
                else if Ascii.eqb d "," then
                  match skip_ws s2 with
                  | String q s3 =>
                      if Ascii.eqb q dquote then members fuel' s3 pairs'
                      else Raise Malformed
                  | EmptyString => Raise Malformed
                  end
                else Raise Malformed
            | EmptyString => Raise Malformed
            end
          else Raise Malformed
      | EmptyString => Raise Malformed
      end
  end

with elements (fuel : nat) (s : string) (values : list value)
  : dresult (value * string) :=
  match fuel with
  | O => Raise Exhausted
  | S fuel' =>
      v <- scan_once fuel' s ;;
      let values' := values ++ [fst v] in
      match skip_ws (snd v) with
      | String d s1 =>
          if Ascii.eqb d "]" then Ok (JArr values', s1)
          else if Ascii.eqb d "," then elements fuel' (skip_ws s1) values'
          else Raise Malformed
      | EmptyString => Raise Malformed
      end
  end.

(** [json.loads(s)] *)
Definition loads (s : string) : dresult value :=
  r <- scan_once (S (2 * String.length s)) (skip_ws s) ;;
  match skip_ws (snd r) with
  | EmptyString => Ok (fst r)
  | String _ _ => Raise Malformed
  end.

End Json.

Import Json.

(** ** models.py *)

Module Models.

(** [class Slide(BaseModel)] *)
Record Slide := mkSlide {
  title : string;
  bullets : list string;
  layout_hint : option string;
  notes : option string;
}.

(** [class SlideDeck(BaseModel)] *)
Record SlideDeck := mkSlideDeck {
  slides : list Slide;
  tone : option string;
  use_case : option string;
  fill_missing_notes : bool;
  llm : option value;
}.

Inductive ValidationError : Type :=
| Missing (field : string)
| WrongType (field : string)
| TooLong (field : string).

Definition vresult := result ValidationError.

(** [Slide.clamp_bullets]: [return v[:8]] *)
Definition clamp_bullets (v : list string) : list string := firstn 8 v.

(** A [str] field: only a string is accepted. *)
Definition as_str (field : string) (j : value) : vresult string :=
  match j with
  | JStr s => Ok s
  | _ => Raise (WrongType field)
  end.

(** An [Optional[str]] field: [None] or a string. *)
Definition as_opt_str (field : string) (j : value) : vresult (option string) :=
  match j with
  | JNull => Ok None
  | JStr s => Ok (Some s)
  | _ => Raise (WrongType field)
  end.

(** A [List[str]] field: a list all of whose items are strings. *)
Fixpoint as_str_items (field : string) (xs : list value) : vresult (list string) :=
  match xs with
  | [] => Ok []
  | x :: rest =>
      s <- as_str field x ;;
      ss <- as_str_items field rest ;;
      Ok (s :: ss)
  end.

Definition as_str_list (field : string) (j : value) : vresult (list string) :=
  match j with
  | JArr xs => as_str_items field xs
  | _ => Raise (WrongType field)
  end.

(** Validation of one slide from a parsed outline ([model_validate] on
    the dict). [title] is required and at most 120 characters; [bullets]
    defaults to the empty list and, when given, goes through the field
    validator [clamp_bullets] after the type check; [layout_hint]
    defaults to "Title and Content"; [notes] defaults to [None]; other
    keys are ignored. *)
Definition validate_slide (j : value) : vresult Slide :=
  match j with
  | JObj kvs =>
      t <- match lookup "title" kvs with
           | None => Raise (Missing "title")
           | Some v =>
               s <- as_str "title" v ;;
               if (String.length s <=? 120)%nat then Ok s
               else Raise (TooLong "title")
           end ;;
      bs <- match lookup "bullets" kvs with
            | None => Ok []
            | Some v =>
                l <- as_str_list "bullets" v ;;
                Ok (clamp_bullets l)
            end ;;
      h <- match lookup "layout_hint" kvs with
           | None => Ok (Some "Title and Content")
           | Some v => as_opt_str "layout_hint" v
           end ;;
      n <- match lookup "notes" kvs with
           | None => Ok None
           | Some v => as_opt_str "notes" v
           end ;;
      Ok (mkSlide t bs h n)
  | _ => Raise (WrongType "Slide")
  end.

(** The bullets a raw slide carries, when they are a list of strings. *)
Definition input_bullets (j : value) : option (list string) :=
  match j with
  | JObj kvs =>
      match lookup "bullets" kvs with
      | Some (JArr xs) =>
          match as_str_items "bullets" xs with
          | Ok l => Some l
          | Raise _ => None
          end
      | _ => None
      end
  | _ => None
  end.

End Models.

(** ** pptx_builder.py *)

Module Builder.

Import Models.

(** *** The template document, as python-pptx presents it *)

(** [MSO_SHAPE_TYPE], as far as the builder tells its members apart. *)
Inductive ShapeType : Type :=
| PICTURE
| OTHER_SHAPE.

(** A shape of an existing slide. [image_blob] is [None] when reading
    [shp.image.blob] raises. *)
Record Shape := mkShape {
  shape_type : ShapeType;
  image_blob : option bytes;
}.

(** [left, top, width, height] of a shape, in EMU. *)
Record Bounds := mkBounds {
  left : Z;
  top : Z;
  width : Z;
  height : Z;
}.

(** A placeholder of a slide freshly added from a layout.
    [ph_type] is [placeholder_format.type]; [is_title] says that the shape
    is [slide.shapes.title]; [para_sizes] are the [font.size] values (EMU,
    [None] when unset) of its paragraphs once text has been written;
    [bounds] is [None] when reading the geometry raises. *)
Record Placeholder := mkPlaceholder {
  ph_type : Z;
  has_text_frame : bool;
  is_title : bool;
  para_sizes : list (option Z);
  bounds : option Bounds;
}.

(** A slide layout: its name ([None] when the attribute is absent or
    [None]) and the placeholders that [add_slide] gives a new slide. *)
Record Layout := mkLayout {
  layout_name : option string;
  placeholders : list Placeholder;
}.

(** [Presentation(template_io)]: the layouts and the existing slides,
    each slide being its shapes in order. *)
Record Template := mkTemplate {
  slide_layouts : list Layout;
  tpl_slides : list (list Shape);
}.

(** *** Failure points

    Every call into python-pptx or the stream may raise. A call site is
    named by an [op]; per-slide sites carry the index of the deck slide,
    and the font loop also the index of the paragraph. A [faults] plan
    says which sites raise in a given run. *)
Inductive op : Type :=
| Seek                      (* template_io.seek(0) *)
| Open                      (* Presentation(template_io) in build_presentation *)
| HarvestOpen               (* Presentation(template_io) in collect_template_images *)
| Layouts (i : nat)         (* prs.slide_layouts *)
| AddSlide (i : nat)        (* prs.slides.add_slide(layout) *)
| TitleText (i : nat)       (* slide.shapes.title.text = s.title *)
| FontClamp (i k : nat)     (* p.font.size read or write, paragraph k *)
| Body (i : nat)            (* slide.placeholders, tf.clear(), tf.text, add_paragraph *)
| Pictures (i : nat)        (* the picture-placeholder comprehension *)
| AddPicture (i : nat)      (* slide.shapes.add_picture(...) *)
| Notes (i : nat)           (* slide.notes_slide *)
| NotesText (i : nat)       (* notes_text_frame.text = ... *)
| Save.                     (* prs.save(bio) *)

Definition faults := op -> bool.

Inductive BuildError : Type :=
| IndexError                (* list index out of range *)
| Fault (o : op).           (* the library raised at site [o] *)

Definition bresult := result BuildError.

(** [call F o v]: the call at site [o] returns [v] unless the plan makes it raise. *)
Definition call {A} (F : faults) (o : op) (v : A) : bresult A :=
  if F o then Raise (Fault o) else Ok v.

(** *** collect_template_images *)

(** The first loop: blobs of the picture shapes, slide by slide; a shape
    whose blob cannot be read is skipped. *)
Definition shape_blobs (shapes : list Shape) : list bytes :=
  flat_map (fun shp =>
              match shape_type shp with
              | PICTURE =>
                  match image_blob shp with
                  | Some b => [b]
                  | None => []
                  end
              | OTHER_SHAPE => []
              end) shapes.

Definition all_blobs (slides : list (list Shape)) : list bytes :=
  flat_map shape_blobs slides.

(** The second loop, with [uniq] and [seen] as they stand before the
    remaining [blobs] are visited. *)
Fixpoint dedup (limit : Z) (blobs uniq : list bytes) (seen : list nat) : list bytes :=
  match blobs with
  | [] => uniq
  | b :: rest =>
      let fresh :=
        match b with [] => false | _ => negb (existsb (Nat.eqb (List.length b)) seen) end in
      let uniq' := if fresh then uniq ++ [b] else uniq in
      let seen' := if fresh then List.length b :: seen else seen in
      if (limit <=? Z.of_nat (List.length uniq'))%Z then uniq'
      else dedup limit rest uniq' seen'
  end.

Definition collect_template_images (F : faults) (tpl : Template) (limit : Z)
  : bresult (list bytes) :=
  prs <- call F HarvestOpen tpl ;;
  Ok (dedup limit (all_blobs (tpl_slides prs)) [] []).

(** *** _choose_layout *)

(** [getattr(l, 'name', f'layout-{i}') or f'layout-{i}'] *)
Definition layout_label (i : nat) (l : Layout) : string :=
  opt_str_or (layout_name l) ("layout-" ++ str_of_int (Z.of_nat i)).

Fixpoint names_from (i : nat) (ls : list Layout) : list string :=
  match ls with
  | [] => []
  | l :: rest => layout_label i l :: names_from (S i) rest
  end.

(** [names = [... for i, l in enumerate(prs.slide_layouts)]] *)
Definition names (ls : list Layout) : list string := names_from 0 ls.

Definition priority : list string :=
  [ "Title and Content";
    "Title and Vertical Text";
    "Two Content";
    "Title Only";
    "Section Header";
    "Content with Caption" ].

(** [for i, l in enumerate(layouts): if test(names[i]): return l] *)
Fixpoint first_layout (test : string -> bool) (ns : list string) (ls : list Layout)
  : option Layout :=
  match ns, ls with
  | n :: ns', l :: ls' => if test n then Some l else first_layout test ns' ls'
  | _, _ => None
  end.

Definition exact_test (layout_hint : option string) (n : string) : bool :=
  String.eqb (lower n) (lower (opt_str_or layout_hint "")).

Definition archetype_test (want n : string) : bool :=
  contains (lower want) (lower (str_or n "")).

(** [for want in priority: for i, l in enumerate(layouts): ...] *)
Fixpoint by_priority (wants ns : list string) (ls : list Layout) : option Layout :=
  match wants with
  | [] => None
  | want :: rest =>
      match first_layout (archetype_test want) ns ls with
      | Some l => Some l
      | None => by_priority rest ns ls
      end
  end.

(** [prs.slide_layouts[1 if len(prs.slide_layouts) > 1 else 0]] *)
Definition fallback (ls : list Layout) : bresult Layout :=
  match nth_error ls (if (1 <? List.length ls)%nat then 1 else 0)%nat with
  | Some l => Ok l
  | None => Raise IndexError
  end.

Definition _choose_layout (ls : list Layout) (layout_hint : option string)
  : bresult Layout :=
  let ns := names ls in
  match first_layout (exact_test layout_hint) ns ls with
  | Some l => Ok l
  | None =>
      match by_priority priority ns ls with
      | Some l => Ok l
      | None => fallback ls
      end
  end.

(** *** build_presentation *)

(** A pseudo-random generator, seen through what the builder uses of it:
    [random.Random(seed)] and the index that [choice] draws below a
    length. *)
Record PRNG := mkPRNG {
  rng_state : Type;
  Random : Z -> rng_state;
  randbelow : rng_state -> nat -> nat * rng_state;
}.

(** [rng.choice(seq)] on the non-empty sequence [x :: xs] *)
Definition choice {G : PRNG} {A : Type} (g : rng_state G) (x : A) (xs : list A)
  : A * rng_state G :=
  let (i, g') := randbelow G g (List.length (x :: xs)) in
  (nth i (x :: xs) x, g').

(** A slide appended by the builder, as the calls of the builder leave
    it. [title_text], [body_paragraphs] and [notes_text] are the strings
    that the builder assigns to the text properties, not what the slide
    gives back when it is read: python-pptx makes paragraphs and runs of
    them, splitting at line breaks and escaping control characters.
    [chosen] is the image drawn for the slide, when a draw was made;
    [picture] is the inserted picture. *)
Record BuiltSlide := mkBuilt {
  from_layout : Layout;
  title_text : option string;
  title_sizes : list (option Z);
  body_paragraphs : option (list string);
  chosen : option bytes;
  picture : option (bytes * Bounds);
  notes_text : string;
}.

(** The document that [prs.save] serialises. *)
Record Document := mkDocument {
  existing_slides : list (list Shape);
  added_slides : list BuiltSlide;
}.

(** [Pt(40)] and 48 pt, in EMU (12700 EMU to the point). *)
Definition Pt40 : Z := 508000.
Definition Pt48 : Z := 609600.

(** [if p.font.size and p.font.size.pt > 48: p.font.size = Pt(40)] *)
Definition clamp_size (sz : option Z) : option Z :=
  match sz with
  | Some e => if (negb (e =? 0) && (Pt48 <? e))%Z then Some Pt40 else Some e
  | None => None
  end.

(** The font loop under [try]: an exception at paragraph [k] ends the loop
    and leaves the remaining paragraphs as they are. *)
Fixpoint clamp_sizes (F : faults) (i k : nat) (sizes : list (option Z))
  : list (option Z) :=
  match sizes with
  | [] => []
  | sz :: rest =>
      if F (FontClamp i k) then sizes
      else clamp_size sz :: clamp_sizes F i (S k) rest
  end.

(** [slide.shapes.title] *)
Definition title_of (phs : list Placeholder) : option Placeholder :=
  find is_title phs.

(** The first placeholder with a text frame that is not the title. *)
Definition body_of (phs : list Placeholder) : option Placeholder :=
  find (fun ph => has_text_frame ph && negb (is_title ph)) phs.

(** The placeholders of type 18 (PICTURE). *)
Definition pics_of (phs : list Placeholder) : list Placeholder :=
  filter (fun ph => (ph_type ph =? 18)%Z) phs.

(** One turn of [for s in deck.slides], for the slide [s] at index [i],
    with the generator in state [g].

    The notes block reads [slide.notes_slide] under [try]; its handler
    reads the property again and assigns to it, so a read that raises ends
    in an exception either way (the second read, or the assignment to a
    property that has no setter): a fault at [Notes i] raises. *)
Definition add_deck_slide (G : PRNG) (F : faults) (ls : list Layout)
  (reusable_images : list bytes) (i : nat) (s : Slide) (g : rng_state G)
  : bresult (BuiltSlide * rng_state G) :=
  layouts <- call F (Layouts i) ls ;;
  layout <- _choose_layout layouts (Some (opt_str_or (layout_hint s) "")) ;;
  phs <- call F (AddSlide i) (placeholders layout) ;;
  ttl <- match title_of phs with
         | None => Ok (None, [])
         | Some t =>
             _ <- call F (TitleText i) tt ;;
             Ok (Some (title s), clamp_sizes F i 0 (para_sizes t))
         end ;;
  body <- call F (Body i)
            (match body_of phs with
             | None => None
             | Some _ => Some (bullets s)
             end) ;;
  pics <- call F (Pictures i) (pics_of phs) ;;
  let '(ch, pic, g') :=
    match pics, reusable_images with
    | ph :: _, im :: ims =>
        let (c, g1) := choice g im ims in
        (Some c,
         match (if F (AddPicture i) then None else bounds ph) with
         | Some b => Some (c, b)
         | None => None
         end,
         g1)
    | _, _ => (None, None, g)
    end in
  _ <- call F (Notes i) tt ;;
  _ <- call F (NotesText i) tt ;;
  Ok (mkBuilt layout (fst ttl) (snd ttl) body ch pic
        (opt_str_or (notes s) ""),
      g').

(** [for s in deck.slides], from index [i] on. *)
Fixpoint add_deck_slides (G : PRNG) (F : faults) (ls : list Layout)
  (reusable_images : list bytes) (i : nat) (ss : list Slide) (g : rng_state G)
  : bresult (list BuiltSlide) :=
  match ss with
  | [] => Ok []
  | s :: rest =>
      r <- add_deck_slide G F ls reusable_images i s g ;;
      bs <- add_deck_slides G F ls reusable_images (S i) rest (snd r) ;;
      Ok (fst r :: bs)
  end.

(** The reusable images of a build: harvesting under [try], with the
    empty list kept when it raises. *)
Definition harvest (F : faults) (tpl : Template) : list bytes :=
  match collect_template_images F tpl 8 with
  | Ok l => l
  | Raise _ => []
  end.

Definition build_presentation (G : PRNG) (F : faults) (tpl : Template)
  (deck : SlideDeck) : bresult Document :=
  _ <- call F Seek tt ;;
  prs <- call F Open tpl ;;
  let reusable_images := harvest F tpl in
  let rng := Random G 42 in
  added <- add_deck_slides G F (slide_layouts prs) reusable_images 0 (slides deck) rng ;;
  call F Save (mkDocument (tpl_slides prs) added).

(** The image assignment of a finished build: per added slide, the image
    drawn for it, if any. *)
Definition assignments (d : Document) : list (option bytes) :=
  map chosen (added_slides d).

End Builder.

(** ** Regular expressions, as [re.search] runs them

    A backtracking matcher for the fragment the backend uses: literals,
    [.], [\s], the greedy and the lazy star of a single-character class,
    concatenation and one capturing group. Alternatives are tried in the
    order of the [re] module: a greedy star first takes one more character,
    a lazy star first tries to go on without it. *)

Module Re.

(** [re.I] and [re.S] *)
Record Flags := mkFlags {
  IGNORECASE : bool;
  DOTALL : bool;
}.

Inductive atom : Type :=
| Chr (c : ascii)     (* a literal character *)
| Dot                 (* . *)
| Space.              (* \s *)

Definition atom_matches (fl : Flags) (a : atom) (c : ascii) : bool :=
  match a with
  | Chr x =>
      if IGNORECASE fl then Ascii.eqb (lower_char x) (lower_char c)
      else Ascii.eqb x c
  | Dot => DOTALL fl || negb (Ascii.eqb c "010")
  | Space => isspace c
  end.

Inductive regex : Type :=
| Eps
| One (a : atom)
| Star (a : atom)         (* a*, greedy *)
| StarLazy (a : atom)     (* a*?, lazy *)
| Cat (r1 r2 : regex)
| Group (r : regex).      (* ( r ), group 1 *)

(** The greedy loop of [Star]: take one more character when it matches,
    and only when the rest then fails go on from here. *)
Fixpoint greedy {R : Type} (test : ascii -> bool) (k : string -> option R)
  (s : string) : option R :=
  match s with
  | String c s' =>
      if test c then
        match greedy test k s' with
        | Some x => Some x
        | None => k s
        end
      else k s
  | EmptyString => k s
  end.

(** The lazy loop of [StarLazy]: go on from here, and only when that fails
    take one more character. *)
Fixpoint lazy_ {R : Type} (test : ascii -> bool) (k : string -> option R)
  (s : string) : option R :=
  match k s with
  | Some x => Some x
  | None =>
      match s with
      | String c s' => if test c then lazy_ test k s' else None
      | EmptyString => None
      end
  end.

(** [run fl r s g k]: match [r] at the head of [s], with group 1 holding
    [g] so far, and hand the remaining text and the group to [k]; [None]
    when every alternative fails. *)
Fixpoint run {R : Type} (fl : Flags) (r : regex) (s : string) (g : option string)
  (k : string -> option string -> option R) : option R :=
  match r with
  | Eps => k s g
  | One a =>
      match s with
      | String c s' => if atom_matches fl a c then k s' g else None
      | EmptyString => None
      end
  | Star a => greedy (atom_matches fl a) (fun s' => k s' g) s
  | StarLazy a => lazy_ (atom_matches fl a) (fun s' => k s' g) s
  | Cat r1 r2 => run fl r1 s g (fun s' g' => run fl r2 s' g' k)
  | Group r1 =>
      run fl r1 s g
        (fun s' _ => k s' (Some (substring 0 (String.length s - String.length s') s)))
  end.

(** [re.match(r, text)]: group 1 of the match at the head of [text]. *)
Definition match_here (fl : Flags) (r : regex) (text : string)
  : option (option string) :=
  run fl r text None (fun _ g => Some g).

(** [re.search(r, text)]: the match at the leftmost position that has one;
    the result is its group 1. *)
Fixpoint search (fl : Flags) (r : regex) (text : string) : option (option string) :=
  match match_here fl r text with
  | Some g => Some g
  | None =>
      match text with
      | String _ text' => search fl r text'
      | EmptyString => None
      end
  end.

(** A literal string as a pattern. *)
Fixpoint lit (s : string) : regex :=
  match s with
  | EmptyString => Eps
  | String c s' => Cat (One (Chr c)) (lit s')
  end.

End Re.

(** ** httpx and the exceptions of the provider adapter *)

Module Http.

(** The request that [client.post(url, headers=..., json=...)] sends. *)
Record Request := mkRequest {
  url : string;
  headers : list (string * string);
  json_body : value;
}.

(** [httpx.Response]. [text] is [None] when reading [resp.text] raises;
    [json] is [None] when [resp.json()] raises. *)
Record Response := mkResponse {
  status_code : Z;
  text : option string;
  json : option value;
  request : Request;
}.

(** The exceptions that reach the retry wrapper. [CancelledError] is the
    one here that derives from [BaseException] and not from [Exception]. *)
Inductive exn : Type :=
| ValueError (msg : string)
| ValueErrorOn (msg : string) (j : value)   (* the message ends with the text of [j] *)
| JSONDecodeError
| TypeError
| KeyError (key : string)
| IndexError
| AttributeError
| TransportError (msg : string)             (* httpx: the request could not be completed *)
| HTTPStatusError (msg : string) (request : Request) (response : Response)
| CancelledError
| RetryError (last_attempt : exn).          (* tenacity.RetryError *)

(** [isinstance(e, Exception)] *)
Definition is_Exception (e : exn) : bool :=
  match e with
  | CancelledError => false
  | _ => true
  end.

End Http.

(** ** tenacity *)

Module Tenacity.

Import Http.

(** [wait_exponential_jitter(initial, max, exp_base, jitter)] after attempt
    [attempt_number], given the draw [u] of [random.uniform(0, jitter)]:
    [max(0, min(initial * exp_base ** (attempt_number - 1) + u, max))]. *)
Definition wait_exponential_jitter (initial max exp_base : Q)
  (attempt_number : nat) (u : Q) : Q :=
  Qmax 0 (Qmin (initial * exp_base ^ (Z.of_nat (attempt_number - 1)) + u) max).

Section Retrying.

(** The world the wrapped call acts on, the draw of
    [random.uniform(0, jitter)] and the sleep between attempts. *)
Variable W : Type.
Variable A : Type.
Variable uniform : Q -> W -> Q * W.
Variable sleep : Q -> W -> W.

Definition action := W -> result exn A * W.

(** The loop of [Retrying.__call__] with [stop=stop_after_attempt(n)],
    the default [retry=retry_if_exception_type()] and the default
    [reraise=False]. [remaining] is [n - attempt_number], so that the stop
    test [attempt_number >= n] reads [remaining = 0].
    - The call returns: its value is the result.
    - It raises something that is not an [Exception]: that is raised again.
    - It raises an [Exception] and the stop test holds: [RetryError],
      holding the last attempt, is raised.
    - Otherwise the wait is computed, slept, and the call is tried again. *)
Fixpoint retrying (wait : nat -> Q -> Q) (jitter : Q) (remaining attempt_number : nat)
  (fn : action) (w : W) : result exn A * W :=
  let (outcome, w1) := fn w in
  match outcome with
  | Ok v => (Ok v, w1)
  | Raise e =>
      if negb (is_Exception e) then (Raise e, w1)
      else
        match remaining with
        | O => (Raise (RetryError e), w1)
        | S remaining' =>
            let (u, w2) := uniform jitter w1 in
            retrying wait jitter remaining' (S attempt_number) fn
              (sleep (wait attempt_number u) w2)
        end
  end.

(** [@retry(stop=stop_after_attempt(n), wait=wait_exponential_jitter(initial=i, max=m))];
    [exp_base] and [jitter] keep their defaults 2 and 1. *)
Definition retry (n : nat) (initial max : Q) (fn : action) : action :=
  retrying (wait_exponential_jitter initial max 2) 1 (n - 1) 1 fn.

End Retrying.

End Tenacity.

(** ** llm_providers.py *)

Module Providers.

Import Http Re.

Definition nl : string := String "010" EmptyString.

(** The en dash U+2013 of the prompt, kept as its three UTF-8 bytes. *)
Definition en_dash : string :=
  String (ascii_of_nat 226) (String (ascii_of_nat 128) (String (ascii_of_nat 147) EmptyString)).

Definition SYSTEM_PROMPT : string :=
  "You convert long text or Markdown into a concise, well-structured slide deck. "
  ++ "You MUST answer as strict JSON with keys: slides:[{title, bullets[], layout_hint, notes}], tone, use_case. "
  ++ "Pick a reasonable number of slides (5" ++ en_dash ++ "20) depending on length and guidance. "
  ++ "Each slide: short title, 3" ++ en_dash ++ "6 bullets max. Always include speaker notes (1"
  ++ en_dash ++ "3 short paragraphs).".

(** [USER_PROMPT_TMPL.format(raw_text=..., guidance=...)] *)
Definition USER_PROMPT_TMPL (raw_text guidance : string) : string :=
  "Input text (can be Markdown):" ++ nl ++ nl ++ raw_text ++ nl ++ nl
  ++ "Guidance/tone/use-case (optional): " ++ guidance ++ nl ++ nl
  ++ "Return STRICT JSON only, no prose.".

(** The two patterns of [_extract_json_maybe]: a fence opened by three
    backquotes and the word json, white space, a group holding a brace, a
    lazy run of any characters and a brace, white space, three backquotes
    (flags [re.S | re.I]); and a group holding a brace, a greedy run of any
    characters and a brace (flag [re.S]). *)
Definition fence_re : regex :=
  Cat (lit "```json")
    (Cat (Star Space)
       (Cat (Group (Cat (One (Chr "{")) (Cat (StarLazy Dot) (One (Chr "}")))))
          (Cat (Star Space) (lit "```")))).

Definition brace_re : regex :=
  Group (Cat (One (Chr "{")) (Cat (Star Dot) (One (Chr "}")))).

Definition fence_flags : Flags := mkFlags true true.
Definition brace_flags : Flags := mkFlags false true.

(** The payload dict built by [generate_slide_outline]. *)
Record Payload := mkPayload {
  system : string;
  user : string;
}.

(** What the adapter has done to the outside world: the POST requests
    issued, the backoff waits slept, and the number of jitter draws, all in
    order of occurrence. *)
Record World := mkWorld {
  posts : list Request;
  sleeps : list Q;
  draws : nat;
}.

Definition M (A : Type) : Type := World -> result exn A * World.

Definition ret {A} (a : A) : M A := fun w => (Ok a, w).

Definition raise {A} (e : exn) : M A := fun w => (Raise e, w).

Definition lift {A} (r : result exn A) : M A := fun w => (r, w).

Definition mbind {A B} (m : M A) (k : A -> M B) : M B :=
  fun w =>
    match m w with
    | (Ok a, w') => k a w'
    | (Raise e, w') => (Raise e, w')
    end.

Notation "x <~ m ;; k" := (mbind m (fun x => k))
  (at level 61, m at next level, right associativity).

(** *** Reading a decoded response the way Python does *)

(** [j[key]] *)
Definition getitem (j : value) (key : string) : result exn value :=
  match j with
  | JObj kvs =>
      match lookup key kvs with
      | Some v => Ok v
      | None => Raise (KeyError key)
      end
  | _ => Raise TypeError
  end.

(** [j[0]] *)
Definition getitem0 (j : value) : result exn value :=
  match j with
  | JArr (x :: _) => Ok x
  | JArr [] => Raise IndexError
  | JStr (String c _) => Ok (JStr (String c EmptyString))
  | JStr EmptyString => Raise IndexError
  | JObj _ => Raise (KeyError "0")
  | _ => Raise TypeError
  end.

(** [j.get(key, default)] *)
Definition get (j : value) (key : string) (default : value) : result exn value :=
  match j with
  | JObj kvs =>
      match lookup key kvs with
      | Some v => Ok v
      | None => Ok default
      end
  | _ => Raise AttributeError
  end.

(** The items of [for x in j] *)
Definition iterate (j : value) : result exn (list value) :=
  match j with
  | JArr xs => Ok xs
  | JObj kvs => Ok (map (fun kv => JStr (fst kv)) kvs)
  | JStr s => Ok (map (fun c => JStr (String c EmptyString)) (list_ascii_of_string s))
  | _ => Raise TypeError
  end.

(** [[f(x) for x in xs]] *)
Fixpoint traverse {X Y} (f : X -> result exn Y) (xs : list X) : result exn (list Y) :=
  match xs with
  | [] => Ok []
  | x :: rest =>
      y <- f x ;;
      ys <- traverse f rest ;;
      Ok (y :: ys)
  end.

(** The empty-separator join of a list of values: every item has to be a [str]. *)
Fixpoint join (xs : list value) : result exn string :=
  match xs with
  | [] => Ok EmptyString
  | JStr s :: rest =>
      r <- join rest ;;
      Ok (s ++ r)%string
  | _ :: _ => Raise TypeError
  end.

Section Adapter.

(** The surroundings of a call: [json.loads]; the value of the environment
    variable [OPENAI_BASE]; the outcome of the n-th POST of the run, a
    response or an exception of the transport; the n-th value drawn for the
    backoff jitter, as a fraction of the jitter bound. *)
Variable json_loads : string -> result exn value.
Variable OPENAI_BASE : option string.
Variable transport : nat -> Request -> result exn Response.
Variable random : nat -> Q.

(** *** Helpers *)

Definition _extract_json_maybe (text : value) : result exn value :=
  match text with
  | JStr t =>
      if String.eqb t "" then Raise (ValueError "Empty response from model")
      else
        match search fence_flags fence_re t with
        | Some (Some g) => json_loads g
        | Some None => Raise TypeError
        | None =>
            match search brace_flags brace_re t with
            | Some (Some g) => json_loads g
            | Some None => Raise TypeError
            | None => json_loads t
            end
        end
  | other =>
      if truthy other then Raise TypeError
      else Raise (ValueError "Empty response from model")
  end.

(** The message of [_raise_for_provider_error]. *)
Definition provider_error_message (resp : Response) (provider_label : string) : string :=
  let body :=
    match text resp with
    | Some t => take 500 t
    | None => "<no body>"
    end in
  provider_label ++ " HTTP " ++ str_of_int (status_code resp) ++ ": " ++ body.

Definition _raise_for_provider_error {A} (resp : Response) (provider_label : string)
  : result exn A :=
  Raise (HTTPStatusError (provider_error_message resp provider_label)
           (request resp) resp).

(** [await client.post(...)]: the request is recorded as issued, and the
    transport decides what comes back. *)
Definition post (req : Request) : M Response :=
  fun w =>
    (transport (List.length (posts w)) req,
     mkWorld (posts w ++ [req]) (sleeps w) (draws w)).

(** [r.json()] *)
Definition json_of (r : Response) : result exn value :=
  match json r with
  | Some j => Ok j
  | None => Raise JSONDecodeError
  end.

(** *** OpenAI-compatible *)

Definition openai_url : string :=
  let base :=
    match OPENAI_BASE with
    | Some b => b
    | None => "https://api.openai.com/v1"
    end in
  if endswith "/chat/completions" base then base
  else rstrip_char "/" base ++ "/chat/completions".

Definition openai_request (model api_key : string) (p : Payload) : Request :=
  mkRequest openai_url
    [("Authorization", ("Bearer " ++ api_key)%string)]
    (JObj [ ("model", JStr model);
            ("temperature", JFloat "0.3");
            ("response_format", JObj [("type", JStr "json_object")]);
            ("messages",
              JArr [ JObj [("role", JStr "system"); ("content", JStr (system p))];
                     JObj [("role", JStr "user"); ("content", JStr (user p))] ]) ]).

Definition _call_openai (model api_key : string) (p : Payload) : M value :=
  r <~ post (openai_request model api_key p) ;;
  if (400 <=? status_code r)%Z
  then lift (_raise_for_provider_error r "OpenAI-compatible")
  else
    lift (j <- json_of r ;;
          choices <- getitem j "choices" ;;
          first <- getitem0 choices ;;
          message <- getitem first "message" ;;
          content <- getitem message "content" ;;
          _extract_json_maybe content).

(** *** Anthropic *)

Definition anthropic_request (model api_key : string) (p : Payload) : Request :=
  mkRequest "https://api.anthropic.com/v1/messages"
    [("x-api-key", api_key); ("anthropic-version", "2023-06-01")]
    (JObj [ ("model", JStr model);
            ("max_tokens", JInt 4096);
            ("temperature", JFloat "0.3");
            ("system", JStr (system p));
            ("messages",
              JArr [ JObj [("role", JStr "user"); ("content", JStr (user p))] ]) ]).

Definition _call_anthropic (model api_key : string) (p : Payload) : M value :=
  r <~ post (anthropic_request model api_key p) ;;
  if (400 <=? status_code r)%Z
  then lift (_raise_for_provider_error r "Anthropic")
  else
    lift (j <- json_of r ;;
          blocks <- get j "content" (JArr []) ;;
          items <- iterate blocks ;;
          texts <- traverse (fun blk => get blk "text" (JStr "")) items ;;
          content <- join texts ;;
          _extract_json_maybe (JStr content)).

(** *** Gemini *)

Definition gemini_request (model api_key : string) (p : Payload) : Request :=
  mkRequest
    ("https://generativelanguage.googleapis.com/v1beta/models/" ++ model
     ++ ":generateContent?key=" ++ api_key)%string
    []
    (JObj [ ("systemInstruction",
              JObj [("parts", JArr [JObj [("text", JStr (system p))]])]);
            ("contents",
              JArr [ JObj [("role", JStr "user");
                           ("parts", JArr [JObj [("text", JStr (user p))]])] ]);
            ("generationConfig",
              JObj [ ("temperature", JFloat "0.3");
                     ("response_mime_type", JStr "application/json");
                     ("maxOutputTokens", JInt 4096) ]) ]).

Definition _call_gemini (model api_key : string) (p : Payload) : M value :=
  r <~ post (gemini_request model api_key p) ;;
  if (400 <=? status_code r)%Z
  then lift (_raise_for_provider_error r "Gemini")
  else
    lift (j <- json_of r ;;
          candidates <- get j "candidates" JNull ;;
          if negb (truthy candidates)
          then Raise (ValueErrorOn "Gemini returned no candidates: " j)
          else
            candidates' <- getitem j "candidates" ;;
            cand <- getitem0 candidates' ;;
            content <- get cand "content" (JObj []) ;;
            parts <- get content "parts" (JArr []) ;;
            if negb (truthy parts)
            then Raise (ValueErrorOn "Gemini returned empty parts: " j)
            else
              part <- getitem0 parts ;;
              text <- get part "text" (JStr "") ;;
              _extract_json_maybe text).

(** *** Entry point with retries *)

(** The body of [generate_slide_outline]: one attempt. *)
Definition generate_slide_outline_body (provider model : option string)
  (api_key raw_text guidance : string) : M value :=
  let payload :=
    mkPayload SYSTEM_PROMPT
      (USER_PROMPT_TMPL (take 60000 raw_text) (take 200 guidance)) in
  let provider := lower (strip (opt_str_or provider "")) in
  if String.eqb provider "openai" then
    _call_openai (opt_str_or model "gpt-4o-mini") api_key payload
  else if String.eqb provider "anthropic" then
    _call_anthropic (opt_str_or model "claude-3-5-sonnet-latest") api_key payload
  else if String.eqb provider "gemini" then
    _call_gemini (opt_str_or model "gemini-1.5-pro") api_key payload
  else raise (ValueError "Unsupported provider. Use openai|anthropic|gemini.").

(** [random.uniform(0, jitter)] *)
Definition uniform (jitter : Q) (w : World) : Q * World :=
  (jitter * random (draws w), mkWorld (posts w) (sleeps w) (S (draws w))).

(** The sleep between two attempts. *)
Definition sleep (seconds : Q) (w : World) : World :=
  mkWorld (posts w) (sleeps w ++ [seconds]) (draws w).

(** [generate_slide_outline], under its decorator
    [@retry(stop=stop_after_attempt(3), wait=wait_exponential_jitter(initial=1, max=8))]. *)
Definition generate_slide_outline (provider model : option string)
  (api_key raw_text guidance : string) : M value :=
  Tenacity.retry World value uniform sleep 3 1 8
    (generate_slide_outline_body provider model api_key raw_text guidance).

End Adapter.

(** The decoder of the [Json] module as [json.loads]. A document that
    leaves the model is reported like a malformed one. *)
Definition reference_loads (s : string) : result exn value :=
  match Json.loads s with
  | Ok j => Ok j
  | Raise _ => Raise JSONDecodeError
  end.

(** The world before a call. *)
Definition fresh : World := mkWorld [] [] 0.

End Providers.

(** ** security.py *)

Module Security.

(** 20 MB *)
Definition MAX_FILE_SIZE_BYTES : Z := 20 * 1024 * 1024.

(** The bullet U+2022 of the mask, kept as its three UTF-8 bytes. *)
Definition bullet : string :=
  String (ascii_of_nat 226) (String (ascii_of_nat 128) (String (ascii_of_nat 162) EmptyString)).

(** Eight bullets. *)
Definition MASK : string :=
  bullet ++ bullet ++ bullet ++ bullet ++ bullet ++ bullet ++ bullet ++ bullet.

(** [mask_api_key(s)] for a [str]: [s[:4] + MASK + s[-2:]] once the key
    has more than eight characters. *)
Definition mask_api_key (s : string) : string :=
  if String.eqb s "" then s
  else if (String.length s <=? 8)%nat then MASK
  else take 4 s ++ MASK ++ substring (String.length s - 2) 2 s.

(** [len(s or "")]; [s] may be [None]. *)
Definition safe_len (s : option string) : nat :=
  String.length (opt_str_or s "").

End Security.

(** ** models.py: the deck *)

Module Decks.

Import Models.

(** [class AnalyzeResponse(BaseModel)]; [theme_summary] is a dict. *)
Record AnalyzeResponse := mkAnalyzeResponse {
  deck : SlideDeck;
  theme_summary : value;
}.

(** [class GenerateRequest(BaseModel)] *)
Record GenerateRequest := mkGenerateRequest {
  request_deck : SlideDeck;
}.

(** What [SlideDeck.model_validate_json] raises: the text is no JSON, or
    the decoded value does not validate. *)
Inductive JsonValidationError : Type :=
| JsonInvalid
| Invalid (e : ValidationError).

Section Validation.

(** The conversion pydantic applies to the value of a [bool] field: the
    boolean, or [None] when the value is refused. *)
Variable as_bool : value -> option bool.

(** The JSON parser behind [model_validate_json]: the decoded value, or
    [None] when the text is refused. *)
Variable from_json : string -> option value.

(** A [List[Slide]] field: every item is validated as a [Slide]. *)
Fixpoint validate_slides (xs : list value) : vresult (list Slide) :=
  match xs with
  | [] => Ok []
  | x :: rest =>
      s <- validate_slide x ;;
      ss <- validate_slides rest ;;
      Ok (s :: ss)
  end.

(** An [Optional[dict]] field: [None] or a dict. *)
Definition as_opt_dict (field : string) (j : value) : vresult (option value) :=
  match j with
  | JNull => Ok None
  | JObj kvs => Ok (Some (JObj kvs))
  | _ => Raise (WrongType field)
  end.

(** [SlideDeck.model_validate(obj)] on a decoded value. [slides] is
    required; [tone], [use_case] and [llm] default to [None] and
    [fill_missing_notes] to [False]; other keys are ignored. The first
    failing field, in the order of the class, stands for the
    [ValidationError]. *)
Definition model_validate (j : value) : vresult SlideDeck :=
  match j with
  | JObj kvs =>
      ss <- match lookup "slides" kvs with
            | None => Raise (Missing "slides")
            | Some (JArr xs) => validate_slides xs
            | Some _ => Raise (WrongType "slides")
            end ;;
      t <- match lookup "tone" kvs with
           | None => Ok None
           | Some v => as_opt_str "tone" v
           end ;;
      u <- match lookup "use_case" kvs with
           | None => Ok None
           | Some v => as_opt_str "use_case" v
           end ;;
      f <- match lookup "fill_missing_notes" kvs with
           | None => Ok false
           | Some v =>
               match as_bool v with
               | Some b => Ok b
               | None => Raise (WrongType "fill_missing_notes")
               end
           end ;;
      l <- match lookup "llm" kvs with
           | None => Ok None
           | Some v => as_opt_dict "llm" v
           end ;;
      Ok (mkSlideDeck ss t u f l)
  | _ => Raise (WrongType "SlideDeck")
  end.

(** [SlideDeck.model_validate_json(text)] *)
Definition model_validate_json (text : string) : result JsonValidationError SlideDeck :=
  match from_json text with
  | None => Raise JsonInvalid
  | Some j =>
      match model_validate j with
      | Ok d => Ok d
      | Raise e => Raise (Invalid e)
      end
  end.

End Validation.

End Decks.

(** ** main.py *)

Module Main.

Import Models Builder Http Providers Security Decks.

(** [UploadFile], as the handlers read it: the declared content type, the
    file name (either may be [None]), and the bytes that
    [await template.read()] returns, [None] when the read raises. *)
Record UploadFile := mkUploadFile {
  content_type : option string;
  filename : option string;
  read : option bytes;
}.

(** What leaves a handler as an exception. *)
Inductive Raised : Type :=
| HTTPException (status : Z) (detail : string)
| NoFilename              (* AttributeError: [template.filename] is [None] *)
| ReadError               (* [await template.read()] raised *)
| Propagated (e : exn).   (* raised by the adapter and caught by no handler *)

(** A record of the logger. *)
Inductive LogRecord : Type :=
| WARNING (msg : string)
| ERROR (msg : string).

(** [StreamingResponse(io.BytesIO(pptx_bytes), media_type=..., headers=...)] *)
Record StreamingResponse := mkStreamingResponse {
  content : Document;
  media_type : string;
  response_headers : list (string * string);
}.

Definition PPTX_TYPE : string :=
  "application/vnd.openxmlformats-officedocument.presentationml.presentation".

Definition POTX_TYPE : string :=
  "application/vnd.openxmlformats-officedocument.presentationml.template".

(** The sign U+2265 of the first message, kept as its three UTF-8 bytes. *)
Definition at_least : string :=
  String (ascii_of_nat 226) (String (ascii_of_nat 137) (String (ascii_of_nat 165) EmptyString)).

(** [f"... too large (> {MAX_FILE_SIZE_BYTES // (1024*1024)} MB)."] *)
Definition too_large (what : string) : string :=
  what ++ " too large (> " ++ str_of_int (MAX_FILE_SIZE_BYTES / (1024 * 1024)) ++ " MB).".

(** The file-type test of [analyze]: the content type is none of the two
    presentation types and the lower-cased file name ends with neither
    extension. The file name is only looked at when the content type is
    not accepted. *)
Definition wrong_type (template : UploadFile) : result Raised bool :=
  let known :=
    match content_type template with
    | Some c => (String.eqb c PPTX_TYPE || String.eqb c POTX_TYPE)%bool
    | None => false
    end in
  if known then Ok false
  else
    match filename template with
    | None => Raise NoFilename
    | Some f =>
        Ok (negb (endswith ".pptx" (lower f) || endswith ".potx" (lower f)))
    end.

(** What a handler leaves behind: its result, the records logged, and the
    world of the adapter. *)
Record Outcome (A : Type) := mkOutcome {
  returned : result Raised A;
  logged : list LogRecord;
  world : World;
}.
Arguments mkOutcome {A} returned logged world.
Arguments returned {A} o.
Arguments logged {A} o.
Arguments world {A} o.

Section Handlers.

(** The surroundings of the handlers: those of the provider adapter; the
    conversions left to pydantic; [int] on a [str], [None] standing for
    [ValueError]; [str] of the exceptions that are put into a message;
    python-pptx reading the bytes of a template; the generator behind
    [random.Random]. *)
Variable json_loads : string -> result exn value.
Variable OPENAI_BASE : option string.
Variable transport : nat -> Request -> result exn Response.
Variable random : nat -> Q.
Variable as_bool : value -> option bool.
Variable from_json : string -> option value.
Variable int : string -> option Z.
Variable str_of_exn : exn -> string.
Variable str_of_build_error : BuildError -> string.
Variable str_of_validation_error : ValidationError -> string.
Variable str_of_json_validation_error : JsonValidationError -> string.
Variable Presentation : bytes -> Template.
Variable G : PRNG.

(** [body_len and int(body_len) > MAX_FILE_SIZE_BYTES], under
    [except ValueError: pass]. *)
Definition payload_too_large (body_len : option string) : bool :=
  match body_len with
  | None => false
  | Some b =>
      if String.eqb b "" then false
      else
        match int b with
        | Some n => (MAX_FILE_SIZE_BYTES <? n)%Z
        | None => false
        end
  end.

(** [POST /analyze]. [body_len] is the content-length header of the
    request. *)
Definition analyze (F : faults) (body_len : option string)
  (text guidance provider model api_key : string) (template : UploadFile)
  (w : World) : Outcome AnalyzeResponse :=
  if (String.eqb text "" || (safe_len (Some text) <? 10)%nat)%bool
  then mkOutcome
         (Raise (HTTPException 422
                   ("Please paste more text (" ++ at_least ++ "10 chars).")))
         [] w
  else
    match wrong_type template with
    | Raise e => mkOutcome (Raise e) [] w
    | Ok true =>
        mkOutcome (Raise (HTTPException 415 "Upload a .pptx or .potx file.")) [] w
    | Ok false =>
        if payload_too_large body_len
        then mkOutcome (Raise (HTTPException 413 (too_large "Payload"))) [] w
        else
          match read template with
          | None => mkOutcome (Raise ReadError) [] w
          | Some template_bytes =>
              if (MAX_FILE_SIZE_BYTES <? Z.of_nat (List.length template_bytes))%Z
              then mkOutcome (Raise (HTTPException 413 (too_large "Template"))) [] w
              else
                let (sample_image_blobs, log1) :=
                  match collect_template_images F (Presentation template_bytes) 8 with
                  | Ok blobs => (blobs, [])
                  | Raise e =>
                      ([], [WARNING ("Could not collect images from template: "
                                     ++ str_of_build_error e)])
                  end in
                match generate_slide_outline json_loads OPENAI_BASE transport random
                        (Some (lower (strip provider))) (Some (strip model))
                        (strip api_key) text guidance w with
                | (Raise e, w') =>
                    if is_Exception e
                    then mkOutcome
                           (Raise (HTTPException 502 ("LLM failed: " ++ str_of_exn e)))
                           (log1 ++ [ERROR ("LLM error: " ++ str_of_exn e ++ " (key="
                                            ++ mask_api_key api_key ++ ")")])
                           w'
                    else mkOutcome (Raise (Propagated e)) log1 w'
                | (Ok slides_json, w') =>
                    match model_validate as_bool slides_json with
                    | Raise ve =>
                        mkOutcome
                          (Raise (HTTPException 500
                                    ("Bad LLM output. " ++ str_of_validation_error ve)))
                          log1 w'
                    | Ok deck =>
                        mkOutcome
                          (Ok (mkAnalyzeResponse deck
                                 (JObj [ ("templateFilename",
                                           match filename template with
                                           | Some f => JStr f
                                           | None => JNull
                                           end);
                                         ("reusableImageCount",
                                           JInt (Z.of_nat (List.length sample_image_blobs)));
                                         ("note",
                                           JStr "Preview is an approximation; final PPTX inherits exact styles from template.") ])))
                          log1 w'
                    end
                end
          end
    end.

(** The deck after the two assignments of [generate], made when both the
    key and the provider are given: the key is stored masked. *)
Definition with_llm (deck : SlideDeck) (provider model api_key : string) : SlideDeck :=
  if (negb (String.eqb api_key "") && negb (String.eqb provider ""))%bool
  then mkSlideDeck (slides deck) (tone deck) (use_case deck) true
         (Some (JObj [ ("provider", JStr provider);
                       ("model", JStr model);
                       ("api_key", JStr (mask_api_key api_key)) ]))
  else deck.

(** [POST /generate] *)
Definition generate (F : faults) (deck_json : string) (template : UploadFile)
  (provider model api_key : string) : result Raised StreamingResponse :=
  match model_validate_json as_bool from_json deck_json with
  | Raise ve =>
      Raise (HTTPException 422
               ("Invalid deck JSON: " ++ str_of_json_validation_error ve))
  | Ok deck =>
      match read template with
      | None => Raise ReadError
      | Some template_bytes =>
          if (MAX_FILE_SIZE_BYTES <? Z.of_nat (List.length template_bytes))%Z
          then Raise (HTTPException 413 (too_large "Template"))
          else
            match build_presentation G F (Presentation template_bytes)
                    (with_llm deck provider model api_key) with
            | Raise e =>
                Raise (HTTPException 500
                         ("Failed to build PPTX: " ++ str_of_build_error e))
            | Ok pptx =>
                Ok (mkStreamingResponse pptx PPTX_TYPE
                      [("Content-Disposition",
                        "attachment; filename=generated_presentation.pptx")])
            end
      end
  end.

End Handlers.

End Main.

(** * Vocabulary of the properties *)

(** ** The JSON decoder *)

Module JsonSpec.

Import Json.

(** The outcome [res] of scanning [s] is not a reached recursion bound,
    and a value was read from at least one character. *)
Definition progresses (s : string) (res : dresult (value * string)) : Prop :=
  res <> Raise Exhausted
  /\ forall v r, res = Ok (v, r) -> (String.length r < String.length s)%nat.

End JsonSpec.

(** ** Image harvesting *)

Module HarvestSpec.

Import Builder.

(** The test of the second loop of [collect_template_images]: the blob is
    not empty and no blob of its length has been kept. *)
Definition fresh_blob (seen : list nat) (b : bytes) : bool :=
  match b with
  | [] => false
  | _ => negb (existsb (Nat.eqb (List.length b)) seen)
  end.

(** The blobs a scan keeps when nothing caps it: each non-empty blob whose
    length is neither in [seen] nor that of an earlier blob of the scan. *)
Fixpoint first_of_each_length (seen : list nat) (blobs : list bytes) : list bytes :=
  match blobs with
  | [] => []
  | b :: rest =>
      if fresh_blob seen b
      then b :: first_of_each_length (List.length b :: seen) rest
      else first_of_each_length seen rest
  end.

(** [b] is the first blob of its byte length in [blobs]. *)
Definition first_of_its_length (b : bytes) (blobs : list bytes) : Prop :=
  exists pre post,
    blobs = pre ++ b :: post
    /\ forall x, In x pre -> List.length x <> List.length b.

End HarvestSpec.

(** ** Layout selection *)

Module LayoutSpec.

Import Builder.

(** Two names are equal up to case. *)
Definition same_name (a b : string) : Prop := lower a = lower b.

(** [want] occurs in [name] up to case. *)
Definition occurs_in (want name : string) : Prop :=
  contains (lower want) (lower name) = true.

End LayoutSpec.

(** ** Building the deck *)

Module BuildSpec.

Import Models Builder.

(** The hint that [build_presentation] passes for a slide. *)
Definition hint_of (s : Slide) : option string :=
  Some (opt_str_or (layout_hint s) "").

(** The exception of a call, if it raised. *)
Definition raised {A} (r : bresult A) : option BuildError :=
  match r with
  | Ok _ => None
  | Raise e => Some e
  end.

(** The failure points that the builder wraps in [try/except]. *)
Definition cosmetic (o : op) : bool :=
  match o with
  | HarvestOpen | FontClamp _ _ | AddPicture _ => true
  | _ => false
  end.

(** The draw made for a slide built on [layout]: one call of [choice] when
    the layout has a picture placeholder and there are reusable images,
    none otherwise. *)
Definition draw (G : PRNG) (imgs : list bytes) (layout : Layout) (g : rng_state G)
  : option bytes * rng_state G :=
  match pics_of (placeholders layout), imgs with
  | _ :: _, im :: ims => let (c, g1) := choice g im ims in (Some c, g1)
  | _, _ => (None, g)
  end.

(** The draws of a run over the layouts of its slides, in slide order. *)
Fixpoint draw_sequence (G : PRNG) (imgs : list bytes) (layouts : list Layout)
  (g : rng_state G) : list (option bytes) :=
  match layouts with
  | [] => []
  | l :: rest =>
      fst (draw G imgs l g) :: draw_sequence G imgs rest (snd (draw G imgs l g))
  end.

(** The exception that ends the turn of slide [s] at index [i], if any. *)
Definition slide_error (F : faults) (ls : list Layout) (i : nat) (s : Slide)
  : option BuildError :=
  if F (Layouts i) then Some (Fault (Layouts i))
  else
    match _choose_layout ls (hint_of s) with
    | Raise e => Some e
    | Ok layout =>
        if F (AddSlide i) then Some (Fault (AddSlide i))
        else if match title_of (placeholders layout) with
                | Some _ => F (TitleText i)
                | None => false
                end then Some (Fault (TitleText i))
        else if F (Body i) then Some (Fault (Body i))
        else if F (Pictures i) then Some (Fault (Pictures i))
        else if F (Notes i) then Some (Fault (Notes i))
        else if F (NotesText i) then Some (Fault (NotesText i))
        else None
    end.

Fixpoint deck_error (F : faults) (ls : list Layout) (i : nat) (ss : list Slide)
  : option BuildError :=
  match ss with
  | [] => None
  | s :: rest =>
      match slide_error F ls i s with
      | Some e => Some e
      | None => deck_error F ls (S i) rest
      end
  end.

Definition build_error (F : faults) (tpl : Template) (deck : SlideDeck)
  : option BuildError :=
  if F Seek then Some (Fault Seek)
  else if F Open then Some (Fault Open)
  else
    match deck_error F (slide_layouts tpl) 0 (slides deck) with
    | Some e => Some e
    | None => if F Save then Some (Fault Save) else None
    end.

(** Two fault plans that differ on cosmetic sites only. *)
Definition same_fatal_faults (F F' : faults) : Prop :=
  forall o, cosmetic o = false -> F o = F' o.

(** A fault outside every [try] at the turn of slide [s], at index [i]:
    retrieving the layouts, adding the slide, writing the title when the
    layout chosen for the slide has a title placeholder, filling the body,
    listing the picture placeholders, or writing the notes. *)
Definition turn_fault (F : faults) (ls : list Layout) (i : nat) (s : Slide) : Prop :=
  F (Layouts i) = true \/ F (AddSlide i) = true
  \/ (F (TitleText i) = true
      /\ exists layout t,
           _choose_layout ls (hint_of s) = Ok layout
           /\ title_of (placeholders layout) = Some t)
  \/ F (Body i) = true \/ F (Pictures i) = true \/ F (NotesText i) = true.

(** A generator that counts the calls of [choice] made on it. *)
Definition counting (G : PRNG) : PRNG :=
  mkPRNG (rng_state G * nat)
    (fun seed => (Random G seed, 0%nat))
    (fun st n => let (i, g') := randbelow G (fst st) n in (i, (g', S (snd st)))).

(** The slide qualifies for a picture: its layout has a picture
    placeholder and there are reusable images. *)
Definition qualifies (imgs : list bytes) (layout : Layout) : bool :=
  match pics_of (placeholders layout), imgs with
  | _ :: _, _ :: _ => true
  | _, _ => false
  end.

End BuildSpec.

(** ** The provider adapter *)

Module ProviderSpec.

Import Http Re Providers.

(** The three call strategies. *)
Inductive strategy : Type :=
| OpenAI
| Anthropic
| Gemini.

Definition label_of (st : strategy) : string :=
  match st with
  | OpenAI => "OpenAI-compatible"
  | Anthropic => "Anthropic"
  | Gemini => "Gemini"
  end.

Definition unsupported : exn :=
  ValueError "Unsupported provider. Use openai|anthropic|gemini.".

(** The strategy that a normalised provider string selects. *)
Definition strategy_of (provider : string) : option strategy :=
  if String.eqb provider "openai" then Some OpenAI
  else if String.eqb provider "anthropic" then Some Anthropic
  else if String.eqb provider "gemini" then Some Gemini
  else None.

Definition default_model (st : strategy) : string :=
  match st with
  | OpenAI => "gpt-4o-mini"
  | Anthropic => "claude-3-5-sonnet-latest"
  | Gemini => "gemini-1.5-pro"
  end.

Definition payload_of (raw_text guidance : string) : Payload :=
  mkPayload SYSTEM_PROMPT (USER_PROMPT_TMPL (take 60000 raw_text) (take 200 guidance)).

Section Surroundings.

Variable json_loads : string -> result exn value.
Variable OPENAI_BASE : option string.
Variable transport : nat -> Request -> result exn Response.
Variable random : nat -> Q.

(** The request and the call of a strategy. *)
Definition request_of (st : strategy) (model api_key : string) (p : Payload) : Request :=
  match st with
  | OpenAI => openai_request OPENAI_BASE model api_key p
  | Anthropic => anthropic_request model api_key p
  | Gemini => gemini_request model api_key p
  end.

Definition call_of (st : strategy) (model api_key : string) (p : Payload) : M value :=
  match st with
  | OpenAI => _call_openai json_loads OPENAI_BASE transport model api_key p
  | Anthropic => _call_anthropic json_loads transport model api_key p
  | Gemini => _call_gemini json_loads transport model api_key p
  end.

(** One attempt, and the decorated function. *)
Definition attempt := generate_slide_outline_body json_loads OPENAI_BASE transport.
Definition outline := generate_slide_outline json_loads OPENAI_BASE transport random.

(** The first and the second backoff wait of a call started in [w]. *)
Definition first_wait (w : World) : Q :=
  Tenacity.wait_exponential_jitter 1 8 2 1 (1 * random (draws w)).
Definition second_wait (w : World) : Q :=
  Tenacity.wait_exponential_jitter 1 8 2 2 (1 * random (S (draws w))).

End Surroundings.

Section Backoff.

Variable W : Type.
Variable uniform : Q -> W -> Q * W.
Variable sleep : Q -> W -> W.

(** The world in which the next attempt starts, after attempt [k] left [w]. *)
Definition backoff (initial max : Q) (k : nat) (w : W) : W :=
  sleep (Tenacity.wait_exponential_jitter initial max 2 k (fst (uniform 1 w)))
    (snd (uniform 1 w)).

End Backoff.

End ProviderSpec.

(** ** JSON extraction *)

Module ExtractSpec.

Import Http Re Providers.

(** [c] occurs in [s]. *)
Fixpoint has (c : ascii) (s : string) : bool :=
  match s with
  | EmptyString => false
  | String d s' => Ascii.eqb c d || has c s'
  end.

(** Every character of [s] passes [test]. *)
Fixpoint all_chars (test : ascii -> bool) (s : string) : bool :=
  match s with
  | EmptyString => true
  | String d s' => test d && all_chars test s'
  end.

(** [matches fl r m g g']: the text [m] is in the language of [r], and
    matching it turns the content [g] of group 1 into [g']. *)
Inductive matches (fl : Flags) : regex -> string -> option string -> option string -> Prop :=
| matches_eps g : matches fl Eps "" g g
| matches_one a c g :
    atom_matches fl a c = true -> matches fl (One a) (String c "") g g
| matches_star a m g :
    all_chars (atom_matches fl a) m = true -> matches fl (Star a) m g g
| matches_lazy a m g :
    all_chars (atom_matches fl a) m = true -> matches fl (StarLazy a) m g g
| matches_cat r1 r2 m1 m2 g g1 g2 :
    matches fl r1 m1 g g1 -> matches fl r2 m2 g1 g2 ->
    matches fl (Cat r1 r2) (m1 ++ m2) g g2
| matches_group r m g g1 :
    matches fl r m g g1 -> matches fl (Group r) m g (Some m).

(** The text after the last [c] of [s]. *)
Fixpoint after_last (c : ascii) (s : string) : option string :=
  match s with
  | EmptyString => None
  | String d s' =>
      match after_last c s' with
      | Some r => Some r
      | None => if Ascii.eqb c d then Some s' else None
      end
  end.

(** The text from the first [c] of [s] on. *)
Fixpoint from_first (c : ascii) (s : string) : option string :=
  match s with
  | EmptyString => None
  | String d s' => if Ascii.eqb c d then Some s else from_first c s'
  end.

(** The span from the first opening brace to the last closing brace after it. *)
Definition brace_span (t : string) : option string :=
  match from_first "{" t with
  | Some (String o rest) =>
      match after_last "}" rest with
      | Some tail =>
          Some (substring 0 (String.length (String o rest) - String.length tail)
                  (String o rest))
      | None => None
      end
  | _ => None
  end.

(** [s] between double quotes. *)
Definition quoted (s : string) : string := String dquote (s ++ String dquote "").

(** The extraction as the specification words it: the candidates of the
    three strategies in order, and the first one that parses wins; when
    none parses, the parse error of the last is raised. *)
Definition candidates (t : string) : list string :=
  match search fence_flags fence_re t with
  | Some (Some g) => [g]
  | _ => []
  end
  ++ match brace_span t with
     | Some g => [g]
     | None => []
     end
  ++ [t].

Fixpoint first_successful_parse (json_loads : string -> result exn value)
  (cands : list string) : result exn value :=
  match cands with
  | [] => Raise JSONDecodeError
  | c :: rest =>
      match json_loads c, rest with
      | Ok v, _ => Ok v
      | Raise e, [] => Raise e
      | Raise _, _ :: _ => first_successful_parse json_loads rest
      end
  end.

End ExtractSpec.

(** ** Sample data for the examples *)

Module Sample.

Import Models Builder.

(** A small linear congruential generator standing for [random.Random]. *)
Definition lcg : PRNG :=
  mkPRNG Z
    (fun seed => seed)
    (fun g n => (Z.to_nat (g mod Z.of_nat n),
                 ((g * 1103515245 + 12345) mod 2147483648)%Z)).

Definition blob (n : nat) (fill : Byte.byte) : bytes := repeat fill n.

Definition pic (b : bytes) : Shape := mkShape PICTURE (Some b).

(** Two existing slides: pictures of 3, 5, 3, 0, 1, 2, 4, 6, 7, 8, 9 and 10
    bytes in scan order, a shape that is no picture and a picture whose
    blob cannot be read. *)
Definition existing : list (list Shape) :=
  [ [ pic (blob 3 Byte.x01); mkShape OTHER_SHAPE None; pic (blob 5 Byte.x02);
      mkShape PICTURE None ];
    [ pic (blob 3 Byte.x03); pic []; pic (blob 1 Byte.x04); pic (blob 2 Byte.x05);
      pic (blob 4 Byte.x06); pic (blob 6 Byte.x07); pic (blob 7 Byte.x08);
      pic (blob 8 Byte.x09); pic (blob 9 Byte.x0a); pic (blob 10 Byte.x0b) ] ].

Definition kept : list bytes :=
  [ blob 3 Byte.x01; blob 5 Byte.x02; blob 1 Byte.x04; blob 2 Byte.x05;
    blob 4 Byte.x06; blob 6 Byte.x07; blob 7 Byte.x08; blob 8 Byte.x09 ].

Definition box : Bounds := mkBounds 100 200 3000 2000.

(** A title with one 54 pt paragraph, a body, and a picture slot. *)
Definition title_ph : Placeholder := mkPlaceholder 1 true true [Some 685800%Z] (Some box).
Definition body_ph : Placeholder := mkPlaceholder 2 true false [] (Some box).
Definition picture_ph : Placeholder := mkPlaceholder 18 false false [] (Some box).

Definition layouts : list Layout :=
  [ mkLayout (Some "Title Slide") [title_ph];
    mkLayout (Some "Title and Content") [title_ph; body_ph];
    mkLayout (Some "Picture with Caption") [title_ph; picture_ph; body_ph] ].

Definition template : Template := mkTemplate layouts existing.

(** The same slides over a template without layouts. *)
Definition bare_template : Template := mkTemplate [] existing.

Definition deck : SlideDeck :=
  mkSlideDeck
    [ mkSlide "Intro" ["first"; "second"] (Some "title and content") (Some "Welcome");
      mkSlide "Photo" [] (Some "Picture with Caption") None;
      mkSlide "Album" ["one"] (Some "PICTURE WITH CAPTION") None;
      mkSlide "End" [] None None ]
    None None false None.

(** Fault plans: none; the cosmetic sites only; one site only. *)
Definition no_faults : faults := fun _ => false.

Definition cosmetic_faults : faults :=
  fun o =>
    match o with
    | HarvestOpen | FontClamp _ _ | AddPicture _ => true
    | _ => false
    end.

Definition picture_faults : faults :=
  fun o =>
    match o with
    | FontClamp _ _ | AddPicture _ => true
    | _ => false
    end.

Definition open_fails : faults :=
  fun o => match o with Open => true | _ => false end.

Definition add_slide_fails : faults :=
  fun o => match o with AddSlide 1 => true | _ => false end.

Definition notes_fail : faults :=
  fun o => match o with NotesText 0 => true | _ => false end.

Definition title_fails : faults :=
  fun o => match o with TitleText 2 => true | _ => false end.

(** The document of a finished run. *)
Definition document_of (r : bresult Document) : Document :=
  match r with
  | Ok d => d
  | Raise _ => mkDocument [] []
  end.

Definition plain_run : Document :=
  document_of (build_presentation lcg no_faults template deck).

Definition faulty_run : Document :=
  document_of (build_presentation lcg picture_faults template deck).

(** A raw slide with the twelve bullets b01 .. b12, and what it validates to. *)
(** A raw slide with the twelve bullets b01 .. b12. *)
Definition twelve : list string :=
  ["b01"; "b02"; "b03"; "b04"; "b05"; "b06"; "b07"; "b08"; "b09"; "b10"; "b11"; "b12"].

Definition raw_slide_twelve : value :=
  JObj [("title", JStr "Agenda"); ("bullets", JArr (map JStr twelve))].

Definition slide_twelve : Slide :=
  mkSlide "Agenda" ["b01"; "b02"; "b03"; "b04"; "b05"; "b06"; "b07"; "b08"]
    (Some "Title and Content") None.

(** Layouts known by their names only. *)
(** Examples: layouts known by their names only. *)
Definition named (n : string) : Layout := mkLayout (Some n) [].

Definition three_layouts : list Layout :=
  [named "Blank"; named "My Section Header"; named "TITLE ONLY slide"].

End Sample.

(** ** Sample surroundings for the provider examples *)

Module SampleNet.

Import Http Providers ExtractSpec.

(** A transport on which every request fails. *)
Definition down : nat -> Request -> result exn Response :=
  fun _ _ => Raise (TransportError "connection refused").

(** A transport that answers every request with the given status, text and
    decoded body. *)
Definition answers (status : Z) (body : option string) (decoded : option value)
  : nat -> Request -> result exn Response :=
  fun _ req => Ok (mkResponse status body decoded req).

(** Jitter draws in the middle of the unit interval. *)
Definition half : nat -> Q := fun _ => 1 # 2.

(** The envelope of an OpenAI-compatible answer whose content is [content]. *)
Definition chat_completion (content : string) : value :=
  JObj [("choices", JArr [JObj [("message", JObj [("content", JStr content)])]])].

Definition payload : Payload := mkPayload "system prompt" "user prompt".

Definition unavailable : nat -> Request -> result exn Response :=
  answers 503 (Some "Service Unavailable") None.

(** A provider that is down for the first three requests of a run and
    answers every later one. *)
Definition recovers : nat -> Request -> result exn Response :=
  fun n req =>
    if (n <? 3)%nat then Raise (TransportError "connection refused")
    else Ok (mkResponse 200 (Some "ok") (Some (chat_completion "{}")) req).

(** The model text of the boundary example, and its outer brace span. *)
Definition answer_text : string :=
  "Here's the answer: {" ++ quoted "a" ++ ": {" ++ quoted "slides" ++ ": []}} done".

Definition answer_span : string :=
  "{" ++ quoted "a" ++ ": {" ++ quoted "slides" ++ ": []}}".

(** A JSON document whose only string holds a fence around a text that is
    no JSON, and that string's fenced text. *)
Definition fence_in_string : string :=
  "{" ++ quoted "a" ++ ": " ++ quoted "```json {x} ```" ++ "}".

(** A JSON array of two objects, and the span between its outer braces. *)
Definition two_objects : string :=
  "[{" ++ quoted "a" ++ ":1},{" ++ quoted "b" ++ ":2}]".

Definition two_objects_span : string :=
  "{" ++ quoted "a" ++ ":1},{" ++ quoted "b" ++ ":2}".

End SampleNet.

(** ** The adapter, attempt by attempt *)

Module AdapterSpec.

Import Http Providers ProviderSpec.

(** The value of [base] in [_call_openai]. *)
Definition base_of (OPENAI_BASE : option string) : string :=
  match OPENAI_BASE with
  | Some b => b
  | None => "https://api.openai.com/v1"
  end.

(** The POST requests of one attempt: the request of the selected
    strategy, and none for an unsupported provider. *)
Definition attempt_posts (OPENAI_BASE : option string) (provider model : option string)
  (api_key raw_text guidance : string) : list Request :=
  match strategy_of (lower (strip (opt_str_or provider ""))) with
  | Some st =>
      [request_of OPENAI_BASE st (opt_str_or model (default_model st)) api_key
         (payload_of raw_text guidance)]
  | None => []
  end.

(** The world in which attempt [k] (from 1) of a call started in [w]
    begins, when each attempt issues [reqs], and the world it leaves. *)
Definition before_attempt (random : nat -> Q) (reqs : list Request) (w : World)
  (k : nat) : World :=
  mkWorld (posts w ++ List.concat (repeat reqs (k - 1)))
    (sleeps w ++ firstn (k - 1) [first_wait random w; second_wait random w])
    (draws w + (k - 1)).

Definition after_attempt (random : nat -> Q) (reqs : list Request) (w : World)
  (k : nat) : World :=
  mkWorld (posts w ++ List.concat (repeat reqs k))
    (sleeps w ++ firstn (k - 1) [first_wait random w; second_wait random w])
    (draws w + (k - 1)).

(** A block of an Anthropic answer and the text it contributes: its
    [text] when it has one, and nothing otherwise. *)
Inductive text_block : value -> string -> Prop :=
| block_with_text kvs t :
    lookup "text" kvs = Some (JStr t) -> text_block (JObj kvs) t
| block_without_text kvs :
    lookup "text" kvs = None -> text_block (JObj kvs) "".

End AdapterSpec.

(** ** The handlers *)

Module MainSpec.

Import Models Builder Http Providers Security Decks Main.

(** A request that passes the checks of [analyze]: a text of ten
    characters or more, an accepted file type, no content-length beyond
    the limit, and a template that can be read and is within the limit. *)
Definition admitted (int : string -> option Z) (body_len : option string)
  (text : string) (template : UploadFile) : Prop :=
  (10 <= String.length text)%nat
  /\ wrong_type template = Ok false
  /\ payload_too_large int body_len = false
  /\ exists template_bytes,
       read template = Some template_bytes
       /\ (Z.of_nat (List.length template_bytes) <= MAX_FILE_SIZE_BYTES)%Z.

(** A slide within the limits of the schema. *)
Definition within_limits (s : Slide) : Prop :=
  (String.length (title s) <= 120)%nat /\ (List.length (bullets s) <= 8)%nat.

End MainSpec.

(** ** Sample surroundings for the handler examples *)

Module SampleApp.

Import Models Builder Http Providers Security Decks Main.

(** Booleans only. *)
Definition booleans (j : value) : option bool :=
  match j with
  | JBool b => Some b
  | _ => None
  end.

Definition decoded (s : string) : option value :=
  match Json.loads s with
  | Ok j => Some j
  | Raise _ => None
  end.

(** Unsigned decimal numbers. *)
Definition decimal (s : string) : option Z :=
  match s with
  | EmptyString => None
  | _ =>
      match Json.digits s with
      | (d, EmptyString) => Some (Json.int_of_digits d)
      | _ => None
      end
  end.

Definition exn_name (e : exn) : string :=
  match e with
  | RetryError _ => "RetryError"
  | ValueError msg => msg
  | _ => "error"
  end.

Definition build_error_name (e : BuildError) : string :=
  match e with
  | Builder.IndexError => "list index out of range"
  | Fault _ => "fault"
  end.

Definition validation_error_name (e : ValidationError) : string :=
  match e with
  | Missing f => "missing " ++ f
  | WrongType f => "wrong type " ++ f
  | TooLong f => "too long " ++ f
  end.

Definition json_validation_error_name (e : JsonValidationError) : string :=
  match e with
  | JsonInvalid => "invalid JSON"
  | Invalid e' => validation_error_name e'
  end.

(** Every upload reads as the sample template. *)
Definition parsed (b : bytes) : Template := Sample.template.

Definition upload : UploadFile :=
  mkUploadFile (Some PPTX_TYPE) (Some "brand.pptx") (Some [Byte.x50; Byte.x4b]).

(** An upload declared as a plain stream, named like a presentation. *)
Definition renamed_upload : UploadFile :=
  mkUploadFile (Some "application/octet-stream") (Some "Brand.PPTX")
    (Some [Byte.x50; Byte.x4b]).

Definition text_upload : UploadFile :=
  mkUploadFile (Some "text/plain") (Some "notes.txt") (Some [Byte.x50; Byte.x4b]).

(** An outline of one slide, as the model might answer it. *)
Definition outline_text : string :=
  "{" ++ ExtractSpec.quoted "slides" ++ ": [{" ++ ExtractSpec.quoted "title" ++ ": "
  ++ ExtractSpec.quoted "Intro" ++ "}]}".

Definition outline_deck : SlideDeck :=
  mkSlideDeck [mkSlide "Intro" [] (Some "Title and Content") None] None None false None.

(** The answer of [analyze] for that outline and the sample upload. *)
Definition analysis : AnalyzeResponse :=
  mkAnalyzeResponse outline_deck
    (JObj [ ("templateFilename", JStr "brand.pptx");
            ("reusableImageCount", JInt 8);
            ("note",
              JStr "Preview is an approximation; final PPTX inherits exact styles from template.") ]).

(** A text of 60000 characters and a guidance of 200. *)
Definition long_text : string :=
  string_of_list_ascii (repeat "a"%char (N.to_nat 60000)).

Definition long_guidance : string :=
  string_of_list_ascii (repeat "g"%char 200).

(** An Anthropic answer of three blocks, the second without text. *)
Definition three_blocks : value :=
  JObj [("content",
          JArr [ JObj [("type", JStr "text"); ("text", JStr "{")];
                 JObj [("type", JStr "tool_use")];
                 JObj [("type", JStr "text"); ("text", JStr "}")] ])].

(** A Gemini answer of two candidates. *)
Definition two_candidates : value :=
  JObj [("candidates",
          JArr [ JObj [("content",
                         JObj [("parts", JArr [ JObj [("text", JStr "{}")];
                                                JObj [("text", JStr "[]")] ])])];
                 JObj [("content",
                         JObj [("parts", JArr [JObj [("text", JStr "[]")]])])] ])].

(** A template whose only layout has a title of three paragraphs, of 60,
    60 and 20 pt, and a plan in which the font size of the second cannot
    be read. *)
Definition three_paragraphs : Placeholder :=
  mkPlaceholder 1 true true [Some 762000%Z; Some 762000%Z; Some 254000%Z] None.

Definition title_only : Template :=
  mkTemplate [mkLayout (Some "Title Only") [three_paragraphs]] [].

Definition second_paragraph_fails : faults :=
  fun o => match o with FontClamp 0 1 => true | _ => false end.

Definition one_slide : SlideDeck :=
  mkSlideDeck [mkSlide "Intro" [] None None] None None false None.

End SampleApp.

(** * Properties *)

(** Case analysis on the first computation of a sequence. *)
Ltac bind_case :=
  match goal with
  | |- context [Py.bind ?m _] => destruct m; simpl
  end.

(** ** The JSON decoder reads every document to its end *)

Module JsonProps.

Import Json JsonSpec.

Lemma skip_ws_length (s : string) :
  (String.length (skip_ws s) <= String.length s)%nat.
Proof.
  induction s as [|c s IH]; simpl; [lia|].
  destruct (Ascii.eqb c " " || Ascii.eqb c "009" || Ascii.eqb c "010"
            || Ascii.eqb c "013")%bool; simpl; lia.
Qed.

Lemma scanstring_shorter (n : nat) :
  forall (s x r : string),
    (String.length s <= n)%nat -> scanstring s = Ok (x, r) ->
    (String.length r < String.length s)%nat.
Proof.
  induction n as [|n IH]; intros s x r Hn H; destruct s as [|c s']; simpl in *;
    try discriminate; try lia.
  destruct (Ascii.eqb c dquote).
  { injection H as <- <-. lia. }
  destruct (Ascii.eqb c "\").
  - destruct s' as [|esc s2]; [discriminate|].
    destruct (Ascii.eqb esc "u").
    + destruct s2 as [|h1 [|h2 [|h3 [|h4 s3]]]]; try discriminate.
      destruct (hex4 h1 h2 h3 h4) as [uni|]; [|discriminate].
      destruct (uni <? 256)%N; [|discriminate].
      destruct (scanstring s3) as [[x' r']|e] eqn:E; simpl in H; [|discriminate].
      injection H as <- <-. apply IH in E; simpl in *; lia.
    + destruct (backslash esc); [|discriminate].
      destruct (scanstring s2) as [[x' r']|e] eqn:E; simpl in H; [|discriminate].
      injection H as <- <-. apply IH in E; simpl in *; lia.
  - destruct (code c <? 32)%N; [discriminate|].
    destruct (scanstring s') as [[x' r']|e] eqn:E; simpl in H; [|discriminate].
    injection H as <- <-. apply IH in E; simpl in *; lia.
Qed.

Lemma digits_length (s : string) :
  (String.length (snd (digits s)) <= String.length s)%nat.
Proof.
  induction s as [|c s IH]; simpl; [lia|].
  destruct (is_digit c); simpl; [|lia].
  destruct (digits s); simpl in *. lia.
Qed.

Lemma match_integer_shorter (s : string) (neg : bool) (lit r : string) :
  match_integer s = Some (neg, lit, r) ->
  (String.length r < String.length s)%nat.
Proof.
  unfold match_integer. destruct s as [|c s']; [discriminate|].
  destruct (Ascii.eqb c "-").
  - destruct s' as [|d s2]; [discriminate|].
    destruct (Ascii.eqb d "0"); [intros [= _ _ <-]; simpl; lia|].
    destruct (is_digit d); [|discriminate].
    pose proof (digits_length s2) as L. destruct (digits s2). simpl in L.
    intros [= _ _ <-]. simpl. lia.
  - destruct (Ascii.eqb c "0"); [intros [= _ _ <-]; simpl; lia|].
    destruct (is_digit c); [|discriminate].
    pose proof (digits_length s') as L. destruct (digits s'). simpl in L.
    intros [= _ _ <-]. simpl. lia.
Qed.

Lemma match_frac_length (s : string) :
  (String.length (snd (match_frac s)) <= String.length s)%nat.
Proof.
  unfold match_frac. destruct s as [|c s']; simpl; [lia|].
  destruct (Ascii.eqb c "."); simpl; [|lia].
  pose proof (digits_length s') as L. destruct (digits s') as [[|d ds] r];
    simpl in *; lia.
Qed.

Lemma match_exp_length (s : string) :
  (String.length (snd (match_exp s)) <= String.length s)%nat.
Proof.
  unfold match_exp. destruct s as [|e s']; simpl; [lia|].
  destruct (Ascii.eqb e "e" || Ascii.eqb e "E")%bool; simpl; [|lia].
  destruct s' as [|g s3]; simpl; [lia|].
  destruct (Ascii.eqb g "-" || Ascii.eqb g "+")%bool.
  - pose proof (digits_length s3) as L. destruct (digits s3) as [[|d ds] r];
      simpl in *; lia.
  - pose proof (digits_length (String g s3)) as L.
    destruct (digits (String g s3)) as [[|d ds] r]; simpl in *; lia.
Qed.

Lemma substring_length (k n : nat) (s : string) :
  (String.length (substring k n s) <= String.length s - k)%nat.
Proof.
  revert k n. induction s as [|c s IH]; intros k n.
  - destruct k, n; simpl; lia.
  - destruct k as [|k]; simpl.
    + destruct n as [|n]; simpl; [lia|]. specialize (IH 0%nat n). lia.
    + apply IH.
Qed.

Lemma keyword_shorter (p s : string) (k : nat) :
  startswith p s = true -> p <> EmptyString -> (0 < k)%nat ->
  (String.length (substring k (String.length s) s) < String.length s)%nat.
Proof.
  intros H Hp Hk. pose proof (substring_length k (String.length s) s) as L.
  destruct p as [|a p]; [contradiction|].
  destruct s as [|b s]; [discriminate|].
  remember (substring k (String.length (String b s)) (String b s)) as sub.
  simpl String.length in *. lia.
Qed.

Lemma scan_number_shorter (s : string) (v : value) (r : string) :
  scan_number s = Ok (v, r) -> (String.length r < String.length s)%nat.
Proof.
  unfold scan_number.
  destruct (match_integer s) as [[[neg lit] r0]|] eqn:E.
  - apply match_integer_shorter in E.
    pose proof (match_frac_length r0) as L1.
    destruct (match_frac r0) as [frac r1]. simpl in L1.
    pose proof (match_exp_length r1) as L2.
    destruct (match_exp r1) as [exp r2]. simpl in L2.
    destruct frac, exp; intros [= _ <-]; lia.
  - destruct (startswith "NaN" s) eqn:E1.
    { intros [= _ <-]. apply (keyword_shorter "NaN"); [exact E1|discriminate|lia]. }
    destruct (startswith "Infinity" s) eqn:E2.
    { intros [= _ <-]. apply (keyword_shorter "Infinity"); [exact E2|discriminate|lia]. }
    destruct (startswith "-Infinity" s) eqn:E3; [|discriminate].
    intros [= _ <-]. apply (keyword_shorter "-Infinity"); [exact E3|discriminate|lia].
Qed.


Lemma scanstring_not_exhausted (n : nat) :
  forall s : string,
    (String.length s <= n)%nat -> scanstring s <> Raise Exhausted.
Proof.
  induction n as [|n IH]; intros s Hn; destruct s as [|c s']; simpl in *;
    try discriminate; try lia.
  destruct (Ascii.eqb c dquote); [discriminate|].
  destruct (Ascii.eqb c "\").
  - destruct s' as [|esc s2]; [discriminate|].
    destruct (Ascii.eqb esc "u").
    + destruct s2 as [|h1 [|h2 [|h3 [|h4 s3]]]]; try discriminate.
      destruct (hex4 h1 h2 h3 h4) as [uni|]; [|discriminate].
      destruct (uni <? 256)%N; [|discriminate].
      assert (scanstring s3 <> Raise Exhausted) as E by (apply IH; simpl in *; lia).
      destruct (scanstring s3) as [[x' r']|e]; simpl; [discriminate|congruence].
    + destruct (backslash esc); [|discriminate].
      assert (scanstring s2 <> Raise Exhausted) as E by (apply IH; simpl in *; lia).
      destruct (scanstring s2) as [[x' r']|e]; simpl; [discriminate|congruence].
  - destruct (code c <? 32)%N; [discriminate|].
    assert (scanstring s' <> Raise Exhausted) as E by (apply IH; simpl in *; lia).
    destruct (scanstring s') as [[x' r']|e]; simpl; [discriminate|congruence].
Qed.

Lemma scan_number_not_exhausted (s : string) : scan_number s <> Raise Exhausted.
Proof.
  unfold scan_number.
  destruct (match_integer s) as [[[neg lit] r0]|].
  - destruct (match_frac r0) as [frac r1]. destruct (match_exp r1) as [exp r2].
    destruct frac, exp; discriminate.
  - destruct (startswith "NaN" s); [discriminate|].
    destruct (startswith "Infinity" s); [discriminate|].
    destruct (startswith "-Infinity" s); discriminate.
Qed.

(** The remaining text after white space, with its length. *)
Tactic Notation "after_ws" constr(x) "as" ident(d) ident(r) ident(L) :=
  pose proof (skip_ws_length x) as L;
  destruct (skip_ws x) as [|d r]; simpl in L.

Lemma progresses_raise (s : string) (e : DecodeError) :
  e <> Exhausted -> progresses s (Raise e).
Proof. intros H. split; [congruence|discriminate]. Qed.

Lemma progresses_ok (s : string) (v : value) (r : string) :
  (String.length r < String.length s)%nat -> progresses s (Ok (v, r)).
Proof. intros H. split; [discriminate|]. now intros v0 r0 [= <- <-]. Qed.

Lemma progresses_longer (s s' : string) (res : dresult (value * string)) :
  (String.length s' <= String.length s)%nat -> progresses s' res -> progresses s res.
Proof.
  intros H [H1 H2]. split; [exact H1|]. intros v r E. specialize (H2 v r E). lia.
Qed.

(** With fuel above twice the length of the text (one more for the
    elements of an array, which recurse before reading a character),
    the three scanners never run out of fuel, and a value they return
    leaves a strictly shorter text. *)
Lemma scanners_progress (fuel : nat) :
  (forall s, (2 * String.length s < fuel)%nat -> progresses s (scan_once fuel s))
  /\ (forall s pairs, (2 * String.length s < fuel)%nat ->
                      progresses s (members fuel s pairs))
  /\ (forall s values, (2 * String.length s + 1 < fuel)%nat ->
                       progresses s (elements fuel s values)).
Proof.
  induction fuel as [|f [IHs [IHm IHe]]].
  { repeat split; intros; lia. }
  split; [|split].
  - intros s Hs. destruct s as [|c s']; [apply progresses_raise; discriminate|].
    cbn [scan_once]. simpl in Hs.
    destruct (Ascii.eqb c dquote).
    { pose proof (scanstring_not_exhausted _ s' (Nat.le_refl _)) as N.
      destruct (scanstring s') as [[x r]|e] eqn:E; simpl.
      - apply scanstring_shorter with (n := String.length s') in E; [|lia].
        apply progresses_ok. simpl. lia.
      - apply progresses_raise. congruence. }
    destruct (Ascii.eqb c "{").
    { after_ws s' as d r L; [apply progresses_raise; discriminate|].
      destruct (Ascii.eqb d "}"); [apply progresses_ok; simpl; lia|].
      destruct (Ascii.eqb d dquote); [|apply progresses_raise; discriminate].
      apply (progresses_longer _ r); [simpl; lia|]. apply IHm. lia. }
    destruct (Ascii.eqb c "[").
    { after_ws s' as d r L; [apply progresses_raise; discriminate|].
      destruct (Ascii.eqb d "]"); [apply progresses_ok; simpl; lia|].
      apply (progresses_longer _ (String d r)); [simpl; lia|].
      apply IHe. simpl. lia. }
    destruct (startswith "null" (String c s')) eqn:E1.
    { apply progresses_ok. apply (keyword_shorter "null"); [exact E1|discriminate|lia]. }
    destruct (startswith "true" (String c s')) eqn:E2.
    { apply progresses_ok. apply (keyword_shorter "true"); [exact E2|discriminate|lia]. }
    destruct (startswith "false" (String c s')) eqn:E3.
    { apply progresses_ok. apply (keyword_shorter "false"); [exact E3|discriminate|lia]. }
    split; [apply scan_number_not_exhausted|].
    intros v r. apply scan_number_shorter.
  - intros s pairs Hs. cbn [members].
    pose proof (scanstring_not_exhausted _ s (Nat.le_refl _)) as N.
    destruct (scanstring s) as [[key s1]|e] eqn:E; simpl;
      [|apply progresses_raise; congruence].
    apply scanstring_shorter with (n := String.length s) in E; [|lia].
    after_ws s1 as c s2 L1; [apply progresses_raise; discriminate|].
    destruct (Ascii.eqb c ":"); [|apply progresses_raise; discriminate].
    pose proof (skip_ws_length s2) as L2.
    assert (progresses (skip_ws s2) (scan_once f (skip_ws s2))) as [P1 P2]
      by (apply IHs; lia).
    destruct (scan_once f (skip_ws s2)) as [[v s3]|e]; simpl;
      [|apply progresses_raise; congruence].
    specialize (P2 v s3 eq_refl).
    after_ws s3 as d s4 L3; [apply progresses_raise; discriminate|].
    destruct (Ascii.eqb d "}"); [apply progresses_ok; lia|].
    destruct (Ascii.eqb d ","); [|apply progresses_raise; discriminate].
    after_ws s4 as q s5 L4; [apply progresses_raise; discriminate|].
    destruct (Ascii.eqb q dquote); [|apply progresses_raise; discriminate].
    apply (progresses_longer _ s5); [lia|]. apply IHm. lia.
  - intros s values Hs. cbn [elements].
    assert (progresses s (scan_once f s)) as [P1 P2] by (apply IHs; lia).
    destruct (scan_once f s) as [[v s1]|e]; simpl;
      [|apply progresses_raise; congruence].
    specialize (P2 v s1 eq_refl).
    after_ws s1 as d s2 L1; [apply progresses_raise; discriminate|].
    destruct (Ascii.eqb d "]"); [apply progresses_ok; lia|].
    destruct (Ascii.eqb d ","); [|apply progresses_raise; discriminate].
    pose proof (skip_ws_length s2) as L2.
    apply (progresses_longer _ (skip_ws s2)); [lia|]. apply IHe. lia.
Qed.

(** [json.loads] is total in the model: it returns a value or raises a
    decoding error, whatever the document. *)
Theorem loads_never_exhausted (s : string) : loads s <> Raise Exhausted.
Proof.
  unfold loads.
  pose proof (skip_ws_length s) as L.
  destruct (proj1 (scanners_progress (S (2 * String.length s))) (skip_ws s))
    as [P _]; [lia|].
  destruct (scan_once (S (2 * String.length s)) (skip_ws s)) as [[v r]|e]; simpl.
  - destruct (skip_ws r); discriminate.
  - congruence.
Qed.

End JsonProps.
(** ** models.py: the bullets clamp *)

Module ModelsProps.

Import Models.

Lemma clamp_bullets_length (v : list string) :
  List.length (clamp_bullets v) = Nat.min (List.length v) 8.
Proof.
  unfold clamp_bullets. rewrite length_firstn. apply Nat.min_comm.
Qed.

Lemma clamp_bullets_firstn_min (v : list string) :
  clamp_bullets v = firstn (Nat.min (List.length v) 8) v.
Proof.
  unfold clamp_bullets.
  destruct (Nat.le_ge_cases (List.length v) 8) as [Hle | Hge].
  - rewrite Nat.min_l by exact Hle.
    rewrite (firstn_all2 v) by exact Hle.
    now rewrite firstn_all.
  - now rewrite Nat.min_r by exact Hge.
Qed.

(** What validation keeps of the [bullets] key of a raw slide. *)
Lemma validate_slide_bullets (j : value) (s : Slide) :
  validate_slide j = Ok s ->
  match j with
  | JObj kvs =>
      match lookup "bullets" kvs with
      | None => bullets s = []
      | Some v => exists l, as_str_list "bullets" v = Ok l /\ bullets s = clamp_bullets l
      end
  | _ => False
  end.
Proof.
  destruct j as [| | | | | |kvs]; simpl; try discriminate.
  destruct (lookup "title" kvs) as [t|]; simpl; [|discriminate].
  destruct (as_str "title" t) as [ts|]; simpl; [|discriminate].
  destruct (String.length ts <=? 120)%nat; simpl; [|discriminate].
  destruct (lookup "bullets" kvs) as [b|]; simpl.
  - destruct (as_str_list "bullets" b) as [l|]; simpl; [|discriminate].
    repeat bind_case; try discriminate.
    intros [= <-]. simpl. now exists l.
  - repeat bind_case; try discriminate.
    now intros [= <-].
Qed.

(** An accepted slide whose raw form has no list of strings under
    [bullets] has no [bullets] key at all, and validates to no bullets. *)
Lemma validate_slide_no_bullets (j : value) (s : Slide) :
  validate_slide j = Ok s -> input_bullets j = None -> bullets s = [].
Proof.
  intros Hv Hn. apply validate_slide_bullets in Hv.
  destruct j as [| | | | | |kvs]; try contradiction.
  unfold input_bullets in Hn.
  destruct (lookup "bullets" kvs) as [b|]; [|exact Hv].
  destruct Hv as [l [Hl _]].
  destruct b; simpl in Hl; try discriminate.
  rewrite Hl in Hn. discriminate.
Qed.

(** C5. For every slide accepted by schema validation, the validated
    bullets are exactly the first min(n, 8) entries of the n input bullets,
    in their original order; in particular 12 input bullets validate to
    exactly 8 bullets, the first 8 in order. *)
Theorem validated_bullets_are_first_eight (j : value) (s : Slide) (bs : list string) :
  validate_slide j = Ok s ->
  input_bullets j = Some bs ->
  bullets s = firstn (Nat.min (List.length bs) 8) bs
  /\ List.length (bullets s) = Nat.min (List.length bs) 8
  /\ (List.length bs = 12%nat ->
      List.length (bullets s) = 8%nat /\ bullets s = firstn 8 bs).
Proof.
  intros Hv Hb. apply validate_slide_bullets in Hv.
  destruct j as [| | | | | |kvs]; try contradiction.
  unfold input_bullets in Hb.
  destruct (lookup "bullets" kvs) as [b|]; [|discriminate].
  destruct Hv as [l [Hl Hs]].
  destruct b; try discriminate. simpl in Hl. rewrite Hl in Hb.
  injection Hb as ->. rewrite Hs.
  split; [apply clamp_bullets_firstn_min|].
  split; [apply clamp_bullets_length|].
  intros H12. split.
  - rewrite clamp_bullets_length, H12. reflexivity.
  - reflexivity.
Qed.

Import Sample.

Lemma validated_bullets_are_first_eight_witness :
  validate_slide raw_slide_twelve = Ok slide_twelve
  /\ bullets slide_twelve = firstn (Nat.min (List.length twelve) 8) twelve
  /\ List.length (bullets slide_twelve) = 8%nat.
Proof.
  split; [reflexivity|].
  destruct (validated_bullets_are_first_eight raw_slide_twelve slide_twelve twelve
              eq_refl eq_refl) as [H1 [_ H3]].
  split; [exact H1|].
  exact (proj1 (H3 eq_refl)).
Defined.

End ModelsProps.

(** ** pptx_builder.py: image harvesting *)

Module HarvestProps.

Import Builder HarvestSpec.

Lemma fresh_blob_true (seen : list nat) (b : bytes) :
  fresh_blob seen b = true -> b <> [] /\ ~ In (List.length b) seen.
Proof.
  unfold fresh_blob. destruct b as [|x b']; [discriminate|].
  intros H. split; [discriminate|].
  intros Hin. apply negb_true_iff in H.
  assert (existsb (Nat.eqb (List.length (x :: b'))) seen = true) as E.
  { apply existsb_exists. exists (List.length (x :: b')). split; [exact Hin|].
    apply Nat.eqb_refl. }
  congruence.
Qed.

Lemma fresh_blob_false (seen : list nat) (b : bytes) :
  fresh_blob seen b = false -> b = [] \/ In (List.length b) seen.
Proof.
  unfold fresh_blob. destruct b as [|x b']; [now left|].
  intros H. right. apply negb_false_iff in H.
  apply existsb_exists in H. destruct H as [n [Hin Hn]].
  apply Nat.eqb_eq in Hn. now rewrite Hn.
Qed.

(** The loop keeps the uncapped scan up to the cap. *)
Lemma dedup_firstn (blobs : list bytes) :
  forall (limit : Z) (uniq : list bytes) (seen : list nat),
    (Z.of_nat (List.length uniq) < limit)%Z ->
    dedup limit blobs uniq seen =
    uniq ++ firstn (Z.to_nat limit - List.length uniq) (first_of_each_length seen blobs).
Proof.
  induction blobs as [|b rest IH]; intros limit uniq seen Hlt; simpl.
  - now rewrite firstn_nil, app_nil_r.
  - fold (fresh_blob seen b).
    destruct (fresh_blob seen b) eqn:Hf.
    + rewrite length_app. simpl.
      destruct (limit <=? Z.of_nat (List.length uniq + 1))%Z eqn:Hle.
      * apply Z.leb_le in Hle.
        replace (Z.to_nat limit - List.length uniq)%nat with 1%nat by lia.
        simpl. reflexivity.
      * apply Z.leb_gt in Hle.
        rewrite IH by (rewrite length_app; simpl; lia).
        rewrite length_app. simpl.
        replace (Z.to_nat limit - List.length uniq)%nat
          with (S (Z.to_nat limit - (List.length uniq + 1)))%nat by lia.
        simpl. now rewrite <- app_assoc.
    + destruct (limit <=? Z.of_nat (List.length uniq))%Z eqn:Hle.
      * apply Z.leb_le in Hle. lia.
      * now apply IH.
Qed.

Lemma first_of_each_length_In (blobs : list bytes) :
  forall (seen : list nat) (b : bytes),
    In b (first_of_each_length seen blobs) ->
    b <> [] /\ ~ In (List.length b) seen /\ first_of_its_length b blobs.
Proof.
  induction blobs as [|c rest IH]; intros seen b Hin; simpl in Hin; [contradiction|].
  destruct (fresh_blob seen c) eqn:Hf.
  - destruct Hin as [-> | Hin].
    + apply fresh_blob_true in Hf. destruct Hf as [Hne Hns].
      repeat split; try assumption.
      exists [], rest. split; [reflexivity|]. intros x [].
    + apply IH in Hin. destruct Hin as [Hne [Hns [pre [post [-> Hpre]]]]].
      repeat split; try assumption.
      * intros Hs. apply Hns. now right.
      * exists (c :: pre), post. split; [reflexivity|].
        intros x [<- | Hx]; [|now apply Hpre].
        intros E. apply Hns. left. exact E.
  - apply IH in Hin. destruct Hin as [Hne [Hns [pre [post [-> Hpre]]]]].
    repeat split; try assumption.
    exists (c :: pre), post. split; [reflexivity|].
    intros x [<- | Hx]; [|now apply Hpre].
    apply fresh_blob_false in Hf. destruct Hf as [-> | Hs].
    + simpl. destruct b; [contradiction|discriminate].
    + intros E. apply Hns. now rewrite <- E.
Qed.

Lemma first_of_each_length_NoDup (blobs : list bytes) :
  forall seen : list nat,
    NoDup (map (@List.length Byte.byte) (first_of_each_length seen blobs)).
Proof.
  induction blobs as [|c rest IH]; intros seen; simpl; [constructor|].
  destruct (fresh_blob seen c) eqn:Hf; [|apply IH].
  simpl. constructor; [|apply IH].
  intros Hin. apply in_map_iff in Hin. destruct Hin as [b [Hlen Hb]].
  apply first_of_each_length_In in Hb. destruct Hb as [_ [Hns _]].
  apply Hns. left. now rewrite Hlen.
Qed.

(** Two kept blobs stand in the scan in the order in which they were kept,
    each at the first place of its length. *)
Lemma first_of_each_length_order (blobs : list bytes) :
  forall (seen : list nat) (l1 : list bytes) (b1 : bytes) (l2 : list bytes)
         (b2 : bytes) (l3 : list bytes),
    first_of_each_length seen blobs = l1 ++ b1 :: l2 ++ b2 :: l3 ->
    exists p1 p2 p3,
      blobs = p1 ++ b1 :: p2 ++ b2 :: p3
      /\ (forall x, In x p1 -> List.length x <> List.length b1)
      /\ (forall x, In x (p1 ++ b1 :: p2) -> List.length x <> List.length b2).
Proof.
  induction blobs as [|c rest IH]; intros seen l1 b1 l2 b2 l3 E; simpl in E.
  - destruct l1; discriminate.
  - assert (forall b, In b (first_of_each_length seen rest) ->
                      fresh_blob seen c = false ->
                      List.length c <> List.length b) as Hskip.
    { intros b Hb Hf. apply first_of_each_length_In in Hb.
      destruct Hb as [Hne [Hns _]].
      apply fresh_blob_false in Hf. destruct Hf as [-> | Hs].
      - simpl. destruct b; [contradiction|discriminate].
      - intros Eq. apply Hns. now rewrite <- Eq. }
    assert (forall b, In b (first_of_each_length (List.length c :: seen) rest) ->
                      List.length c <> List.length b) as Hkept.
    { intros b Hb. apply first_of_each_length_In in Hb.
      destruct Hb as [_ [Hns _]]. intros Eq. apply Hns. left. exact Eq. }
    destruct (fresh_blob seen c) eqn:Hf.
    + destruct l1 as [|a l1'].
      * simpl in E. injection E as -> E.
        assert (In b2 (first_of_each_length (List.length b1 :: seen) rest)) as Hb2.
        { rewrite E. apply in_or_app. right. now left. }
        pose proof (Hkept _ Hb2) as Hne.
        apply first_of_each_length_In in Hb2.
        destruct Hb2 as [_ [_ [pre [post [-> Hpre]]]]].
        exists [], pre, post. split; [reflexivity|].
        split; [intros x []|].
        simpl. intros x [<- | Hx]; [exact Hne|now apply Hpre].
      * simpl in E. injection E as -> E.
        assert (In b1 (first_of_each_length (List.length a :: seen) rest)) as Hb1.
        { rewrite E. apply in_or_app. right. now left. }
        assert (In b2 (first_of_each_length (List.length a :: seen) rest)) as Hb2.
        { rewrite E. apply in_or_app. right. right.
          apply in_or_app. right. now left. }
        apply IH in E. destruct E as [p1 [p2 [p3 [-> [H1 H2]]]]].
        exists (a :: p1), p2, p3. split; [reflexivity|].
        split.
        -- intros x [<- | Hx]; [now apply Hkept|now apply H1].
        -- simpl. intros x [<- | Hx]; [now apply Hkept|now apply H2].
    + assert (In b1 (first_of_each_length seen rest)) as Hb1.
      { rewrite E. apply in_or_app. right. now left. }
      assert (In b2 (first_of_each_length seen rest)) as Hb2.
      { rewrite E. apply in_or_app. right. right.
        apply in_or_app. right. now left. }
      apply IH in E. destruct E as [p1 [p2 [p3 [-> [H1 H2]]]]].
      exists (c :: p1), p2, p3. split; [reflexivity|].
      split.
      * intros x [<- | Hx]; [now apply Hskip|now apply H1].
      * simpl. intros x [<- | Hx]; [now apply Hskip|now apply H2].
Qed.

(** What [collect_template_images] returns under the default cap. *)
Lemma collect_template_images_eq (F : faults) (tpl : Template) (imgs : list bytes) :
  collect_template_images F tpl 8 = Ok imgs ->
  imgs = firstn 8 (first_of_each_length [] (all_blobs (tpl_slides tpl))).
Proof.
  unfold collect_template_images, call. destruct (F HarvestOpen); simpl; [discriminate|].
  intros [= <-]. rewrite dedup_firstn by (simpl; lia). reflexivity.
Qed.

(** C9. The reusable image set holds at most 8 blobs, of pairwise distinct
    byte lengths; each is the first blob of its byte length in scan order
    (existing slides in order, shapes in order), and the blobs stand in the
    set in the order of those first occurrences. *)
Theorem reusable_images_capped_distinct_first (F : faults) (tpl : Template)
  (imgs : list bytes) :
  collect_template_images F tpl 8 = Ok imgs ->
  (List.length imgs <= 8)%nat
  /\ NoDup (map (@List.length Byte.byte) imgs)
  /\ (forall b, In b imgs -> first_of_its_length b (all_blobs (tpl_slides tpl)))
  /\ (forall l1 b1 l2 b2 l3,
        imgs = l1 ++ b1 :: l2 ++ b2 :: l3 ->
        exists p1 p2 p3,
          all_blobs (tpl_slides tpl) = p1 ++ b1 :: p2 ++ b2 :: p3
          /\ (forall x, In x p1 -> List.length x <> List.length b1)
          /\ (forall x, In x (p1 ++ b1 :: p2) -> List.length x <> List.length b2)).
Proof.
  intros H. apply collect_template_images_eq in H.
  set (scan := all_blobs (tpl_slides tpl)) in *.
  pose proof (firstn_skipn 8 (first_of_each_length [] scan)) as Hsplit.
  rewrite <- H in Hsplit.
  remember (skipn 8 (first_of_each_length [] scan)) as rest eqn:Hrest.
  clear Hrest.
  split; [rewrite H; apply firstn_le_length|].
  split.
  { pose proof (first_of_each_length_NoDup scan []) as Hnd.
    rewrite <- Hsplit, map_app in Hnd. now apply NoDup_app_remove_r in Hnd. }
  split.
  { intros b Hb.
    assert (In b (first_of_each_length [] scan)) as Hin.
    { rewrite <- Hsplit. apply in_or_app. now left. }
    now apply first_of_each_length_In in Hin. }
  intros l1 b1 l2 b2 l3 E.
  apply (first_of_each_length_order scan [] l1 b1 l2 b2 (l3 ++ rest)).
  rewrite <- Hsplit, E. repeat (rewrite <- app_assoc; simpl). reflexivity.
Qed.

Lemma reusable_images_capped_distinct_first_witness :
  collect_template_images Sample.no_faults Sample.template 8 = Ok Sample.kept
  /\ (List.length Sample.kept <= 8)%nat
  /\ NoDup (map (@List.length Byte.byte) Sample.kept)
  /\ (forall b, In b Sample.kept ->
                first_of_its_length b (all_blobs Sample.existing)).
Proof.
  split; [reflexivity|].
  destruct (reusable_images_capped_distinct_first
              Sample.no_faults Sample.template Sample.kept eq_refl)
    as [H1 [H2 [H3 _]]].
  split; [exact H1|]. split; [exact H2|exact H3].
Defined.

End HarvestProps.

(** ** pptx_builder.py: layout selection *)

Module LayoutProps.

Import Builder LayoutSpec.

Lemma startswith_spec (p s : string) :
  startswith p s = true <-> exists post, s = (p ++ post)%string.
Proof.
  revert s. induction p as [|a p IH]; intros s; simpl.
  - split; [intros _; now exists s|reflexivity].
  - destruct s as [|b s]; simpl.
    + split; [discriminate|intros [post H]; discriminate].
    + rewrite andb_true_iff, Ascii.eqb_eq, IH. split.
      * intros [-> [post ->]]. now exists post.
      * intros [post [= -> ->]]. split; [reflexivity|now exists post].
Qed.

(** [contains] is the substring test. *)
Lemma contains_spec (needle hay : string) :
  contains needle hay = true <-> exists pre post, hay = (pre ++ needle ++ post)%string.
Proof.
  induction hay as [|c hay IH].
  - simpl. rewrite orb_false_r, startswith_spec. split.
    + intros [post H]. now exists EmptyString, post.
    + intros [pre [post H]]. destruct pre; [now exists post|discriminate].
  - cbn [contains]. rewrite orb_true_iff, startswith_spec, IH. split.
    + intros [[post H] | [pre [post H]]].
      * now exists EmptyString, post.
      * exists (String c pre), post. simpl. now rewrite H.
    + intros [pre [post H]]. destruct pre as [|d pre].
      * left. now exists post.
      * right. simpl in H. injection H as _ H. now exists pre, post.
Qed.

Lemma str_or_empty (n : string) : str_or n "" = n.
Proof. now destruct n. Qed.

Lemma exact_test_iff (hint : option string) (n : string) :
  exact_test hint n = true <-> same_name n (opt_str_or hint "").
Proof. unfold exact_test, same_name. apply String.eqb_eq. Qed.

Lemma archetype_test_iff (want n : string) :
  archetype_test want n = true <-> occurs_in want n.
Proof. unfold archetype_test, occurs_in. now rewrite str_or_empty. Qed.

(** The loop over the layouts returns the first layout that passes the test. *)
Lemma first_layout_found (test : string -> bool) (ls : list Layout) :
  forall (k i : nat) (l : Layout),
    nth_error ls i = Some l ->
    test (layout_label (k + i) l) = true ->
    (forall j l', (j < i)%nat -> nth_error ls j = Some l' ->
                  test (layout_label (k + j) l') = false) ->
    first_layout test (names_from k ls) ls = Some l.
Proof.
  induction ls as [|l0 ls IH]; intros k i l Hi Ht Hbefore.
  - destruct i; discriminate.
  - simpl. destruct i as [|i].
    + injection Hi as ->. rewrite Nat.add_0_r in Ht. now rewrite Ht.
    + pose proof (Hbefore 0%nat l0 (Nat.lt_0_succ i) eq_refl) as H0.
      rewrite Nat.add_0_r in H0. rewrite H0.
      apply (IH (S k) i l Hi).
      * now rewrite Nat.add_succ_comm.
      * intros j l' Hj Hl'. rewrite Nat.add_succ_comm.
        apply Hbefore; [lia|exact Hl'].
Qed.

Lemma first_layout_none (test : string -> bool) (ls : list Layout) :
  forall k : nat,
    (forall j l', nth_error ls j = Some l' -> test (layout_label (k + j) l') = false) ->
    first_layout test (names_from k ls) ls = None.
Proof.
  induction ls as [|l0 ls IH]; intros k Hall; [reflexivity|].
  simpl. pose proof (Hall 0%nat l0 eq_refl) as H0.
  rewrite Nat.add_0_r in H0. rewrite H0.
  apply IH. intros j l' Hl'. rewrite Nat.add_succ_comm. now apply (Hall (S j)).
Qed.

(** The loop over the archetypes stops at the first one that some layout matches. *)
Lemma by_priority_found (ns : list string) (ls : list Layout) (wants : list string) :
  forall (k : nat) (want : string) (l : Layout),
    nth_error wants k = Some want ->
    first_layout (archetype_test want) ns ls = Some l ->
    (forall k' w', (k' < k)%nat -> nth_error wants k' = Some w' ->
                   first_layout (archetype_test w') ns ls = None) ->
    by_priority wants ns ls = Some l.
Proof.
  induction wants as [|w0 wants IH]; intros k want l Hk Hf Hbefore.
  - destruct k; discriminate.
  - simpl. destruct k as [|k].
    + injection Hk as ->. now rewrite Hf.
    + rewrite (Hbefore 0%nat w0 (Nat.lt_0_succ k) eq_refl).
      apply (IH k want l Hk Hf).
      intros k' w' Hk' Hw'. apply (Hbefore (S k') w'); [lia|exact Hw'].
Qed.

Lemma by_priority_none (ns : list string) (ls : list Layout) (wants : list string) :
  (forall w, In w wants -> first_layout (archetype_test w) ns ls = None) ->
  by_priority wants ns ls = None.
Proof.
  induction wants as [|w0 wants IH]; intros Hall; [reflexivity|].
  simpl. rewrite (Hall w0 (or_introl eq_refl)).
  apply IH. intros w Hw. apply Hall. now right.
Qed.

Lemma not_true_false (b : bool) (P : Prop) : (b = true <-> P) -> ~ P -> b = false.
Proof. intros H HP. destruct b; [|reflexivity]. exfalso. now apply HP, H. Qed.

(** C4. Layout selection returns (1) the first layout whose name equals
    the hint up to case; otherwise (2) for the first archetype of the
    priority list that occurs, up to case, in some layout name, the first
    layout it occurs in; otherwise (3) the second layout when there are at
    least two, else the first. The name of the layout at index [i] is
    [layout_label i l]: its [name], or layout-i when it has none. *)
Theorem choose_layout_order (ls : list Layout) (layout_hint : option string) :
  priority = [ "Title and Content"; "Title and Vertical Text"; "Two Content";
               "Title Only"; "Section Header"; "Content with Caption" ]
  /\ (forall i l,
        nth_error ls i = Some l ->
        same_name (layout_label i l) (opt_str_or layout_hint "") ->
        (forall j l', (j < i)%nat -> nth_error ls j = Some l' ->
                      ~ same_name (layout_label j l') (opt_str_or layout_hint "")) ->
        _choose_layout ls layout_hint = Ok l)
  /\ (forall k want i l,
        (forall j l', nth_error ls j = Some l' ->
                      ~ same_name (layout_label j l') (opt_str_or layout_hint "")) ->
        nth_error priority k = Some want ->
        nth_error ls i = Some l ->
        occurs_in want (layout_label i l) ->
        (forall k' w' j l', (k' < k)%nat -> nth_error priority k' = Some w' ->
                            nth_error ls j = Some l' ->
                            ~ occurs_in w' (layout_label j l')) ->
        (forall j l', (j < i)%nat -> nth_error ls j = Some l' ->
                      ~ occurs_in want (layout_label j l')) ->
        _choose_layout ls layout_hint = Ok l)
  /\ ((forall j l', nth_error ls j = Some l' ->
                    ~ same_name (layout_label j l') (opt_str_or layout_hint "")) ->
      (forall w j l', In w priority -> nth_error ls j = Some l' ->
                      ~ occurs_in w (layout_label j l')) ->
      _choose_layout ls layout_hint =
      match ls with
      | _ :: second :: _ => Ok second
      | [first] => Ok first
      | [] => Raise IndexError
      end).
Proof.
  split; [reflexivity|].
  assert (forall (test : string -> bool) (P : string -> Prop),
             (forall n, test n = true <-> P n) ->
             (forall j l', nth_error ls j = Some l' -> ~ P (layout_label j l')) ->
             first_layout test (names_from 0 ls) ls = None) as Hnone.
  { intros test P HP Hall. apply (first_layout_none test ls 0).
    intros j l' Hl'. simpl. apply (not_true_false _ _ (HP _)). now apply Hall. }
  split; [|split].
  - intros i l Hi Hsame Hbefore. unfold _choose_layout, names in *; cbv zeta.
    rewrite (first_layout_found (exact_test layout_hint) ls 0 i l Hi); [reflexivity| |].
    + simpl. now apply exact_test_iff.
    + intros j l' Hj Hl'. simpl.
      apply (not_true_false _ _ (exact_test_iff _ _)). now apply Hbefore.
  - intros k want i l Hno Hk Hi Hocc Hearlier Hbefore. unfold _choose_layout, names in *; cbv zeta.
    rewrite (Hnone _ _ (exact_test_iff layout_hint) Hno).
    rewrite (by_priority_found (names_from 0 ls) ls priority k want l Hk); [reflexivity| |].
    + apply (first_layout_found (archetype_test want) ls 0 i l Hi).
      * simpl. now apply archetype_test_iff.
      * intros j l' Hj Hl'. simpl.
        apply (not_true_false _ _ (archetype_test_iff _ _)). now apply Hbefore.
    + intros k' w' Hk' Hw'. apply (Hnone _ _ (archetype_test_iff w')).
      intros j l' Hl'. now apply (Hearlier k' w' j l').
  - intros Hno Hnoarch. unfold _choose_layout, names in *; cbv zeta.
    rewrite (Hnone _ _ (exact_test_iff layout_hint) Hno).
    rewrite by_priority_none.
    + unfold fallback. destruct ls as [|l1 [|l2 rest]]; reflexivity.
    + intros w Hw. apply (Hnone _ _ (archetype_test_iff w)).
      intros j l' Hl'. now apply (Hnoarch w j l').
Qed.

Import Sample.

Example exact_match_ignores_case :
  _choose_layout [named "Title and Content"; named "Blank"] (Some "title and content")
  = Ok (named "Title and Content").
Proof. reflexivity. Qed.

Example exact_match_beats_archetype :
  _choose_layout [named "Title and Content"; named "Blank"] (Some "BLANK")
  = Ok (named "Blank").
Proof. reflexivity. Qed.

Example fallback_is_second_layout :
  _choose_layout [named "Custom1"; named "Custom2"] (Some "Nonexistent Layout")
  = Ok (named "Custom2").
Proof. reflexivity. Qed.

Example fallback_is_only_layout :
  _choose_layout [named "Custom1"] (Some "Nonexistent Layout") = Ok (named "Custom1").
Proof. reflexivity. Qed.

Example unnamed_layout_is_labelled :
  names [mkLayout None []; mkLayout (Some "") []; named "Blank"]
  = ["layout-0"; "layout-1"; "Blank"].
Proof. reflexivity. Qed.

(** Case analysis on the index of a layout or archetype in a concrete list. *)
Ltac each_index :=
  repeat match goal with
    | H : nth_error [] ?j = Some _ |- _ => destruct j; discriminate H
    | H : nth_error (_ :: _) ?j = Some _ |- _ =>
        destruct j; simpl in H; [injection H as <-|]
    end.

Lemma choose_layout_order_witness :
  _choose_layout [named "Title and Content"; named "Blank"] (Some "title and content")
  = Ok (named "Title and Content")
  /\ _choose_layout three_layouts (Some "nope") = Ok (named "TITLE ONLY slide")
  /\ _choose_layout [named "Custom1"; named "Custom2"] (Some "Nonexistent Layout")
     = Ok (named "Custom2").
Proof.
  split; [|split].
  - apply (proj1 (proj2 (choose_layout_order
                           [named "Title and Content"; named "Blank"]
                           (Some "title and content"))) 0%nat).
    + reflexivity.
    + reflexivity.
    + intros j l' Hj. inversion Hj.
  - apply (proj1 (proj2 (proj2 (choose_layout_order three_layouts (Some "nope"))))
             3%nat "Title Only" 2%nat).
    + intros j l' H; unfold three_layouts in H; each_index; try discriminate H; vm_compute; intros E; discriminate E.
    + reflexivity.
    + reflexivity.
    + reflexivity.
    + intros k' w' j l' Hk Hw Hl. unfold three_layouts in Hl. unfold priority in Hw.
      each_index; try lia; vm_compute; intros E; discriminate E.
    + intros j l' Hj Hl. unfold three_layouts in Hl.
      each_index; try lia; vm_compute; intros E; discriminate E.
  - apply (proj2 (proj2 (proj2 (choose_layout_order
                                  [named "Custom1"; named "Custom2"]
                                  (Some "Nonexistent Layout"))))).
    + intros j l' H; each_index; try discriminate H; vm_compute; intros E; discriminate E.
    + intros w j l' Hw Hl.
      repeat (destruct Hw as [<- | Hw]); try contradiction;
        each_index; try discriminate Hl; vm_compute; intros E; discriminate E.
Defined.

End LayoutProps.

(** ** pptx_builder.py: building the deck *)

Module BuildProps.

Import Models Builder BuildSpec.

Lemma add_deck_slide_raised (G : PRNG) (F : faults) (ls : list Layout)
  (imgs : list bytes) (i : nat) (s : Slide) (g : rng_state G) :
  raised (add_deck_slide G F ls imgs i s g) = slide_error F ls i s.
Proof.
  unfold add_deck_slide, slide_error, call, hint_of. simpl.
  destruct (F (Layouts i)); simpl; [reflexivity|].
  destruct (_choose_layout ls (Some (opt_str_or (layout_hint s) ""))) as [layout|e];
    simpl; [|reflexivity].
  destruct (F (AddSlide i)); simpl; [reflexivity|].
  destruct (title_of (placeholders layout)); simpl.
  - destruct (F (TitleText i)); simpl; [reflexivity|].
    destruct (F (Body i)); simpl; [reflexivity|].
    destruct (F (Pictures i)); simpl; [reflexivity|].
    destruct (pics_of (placeholders layout)), imgs; simpl;
      try destruct (choice g _ _); simpl;
      destruct (F (Notes i)); simpl; try reflexivity;
      destruct (F (NotesText i)); reflexivity.
  - destruct (F (Body i)); simpl; [reflexivity|].
    destruct (F (Pictures i)); simpl; [reflexivity|].
    destruct (pics_of (placeholders layout)), imgs; simpl;
      try destruct (choice g _ _); simpl;
      destruct (F (Notes i)); simpl; try reflexivity;
      destruct (F (NotesText i)); reflexivity.
Qed.

(** A finished turn used the layout that [_choose_layout] returns for the
    slide, and made the draw of that layout. *)
Lemma add_deck_slide_ok (G : PRNG) (F : faults) (ls : list Layout)
  (imgs : list bytes) (i : nat) (s : Slide) (g g' : rng_state G) (b : BuiltSlide) :
  add_deck_slide G F ls imgs i s g = Ok (b, g') ->
  _choose_layout ls (hint_of s) = Ok (from_layout b)
  /\ (chosen b, g') = draw G imgs (from_layout b) g.
Proof.
  unfold add_deck_slide, call, hint_of, draw. simpl.
  destruct (F (Layouts i)); simpl; [discriminate|].
  destruct (_choose_layout ls (Some (opt_str_or (layout_hint s) ""))) as [layout|e];
    simpl; [|discriminate].
  destruct (F (AddSlide i)); simpl; [discriminate|].
  destruct (title_of (placeholders layout)); simpl;
    try (destruct (F (TitleText i)); simpl; [discriminate|]);
    (destruct (F (Body i)); simpl; [discriminate|]);
    (destruct (F (Pictures i)); simpl; [discriminate|]);
    destruct (pics_of (placeholders layout)) eqn:Hp, imgs; simpl;
    try destruct (choice g _ _); simpl;
    (destruct (F (Notes i)); simpl; [discriminate|]);
    (destruct (F (NotesText i)); simpl; [discriminate|]);
    intros [= <- <-]; simpl; rewrite Hp; auto.
Qed.


Lemma add_deck_slides_raised (G : PRNG) (F : faults) (ls : list Layout)
  (imgs : list bytes) (ss : list Slide) :
  forall (i : nat) (g : rng_state G),
    raised (add_deck_slides G F ls imgs i ss g) = deck_error F ls i ss.
Proof.
  induction ss as [|s rest IH]; intros i g; simpl; [reflexivity|].
  rewrite <- (add_deck_slide_raised G F ls imgs i s g).
  destruct (add_deck_slide G F ls imgs i s g) as [r|e]; simpl; [|reflexivity].
  rewrite <- (IH (S i) (snd r)).
  now destruct (add_deck_slides G F ls imgs (S i) rest (snd r)).
Qed.

Lemma build_presentation_raised (G : PRNG) (F : faults) (tpl : Template)
  (deck : SlideDeck) :
  raised (build_presentation G F tpl deck) = build_error F tpl deck.
Proof.
  unfold build_presentation, build_error, call.
  destruct (F Seek); simpl; [reflexivity|].
  destruct (F Open); simpl; [reflexivity|].
  rewrite <- (add_deck_slides_raised G F (slide_layouts tpl) (harvest F tpl)
                (slides deck) 0 (Random G 42)).
  destruct (add_deck_slides G F (slide_layouts tpl) (harvest F tpl) 0
              (slides deck) (Random G 42)); simpl; [|reflexivity].
  now destruct (F Save).
Qed.

Lemma raised_iff {A} (r : bresult A) (e : BuildError) :
  r = Raise e <-> raised r = Some e.
Proof.
  destruct r; simpl; split; intros H; try discriminate; now injection H as ->.
Qed.

Lemma raised_none {A} (r : bresult A) :
  raised r = None <-> exists a, r = Ok a.
Proof.
  destruct r as [a|e]; simpl; split; intros H;
    try discriminate; try (now exists a); try reflexivity.
  destruct H as [a H]. discriminate.
Qed.

Lemma slide_error_cosmetic (F F' : faults) (ls : list Layout) (i : nat) (s : Slide) :
  same_fatal_faults F F' -> slide_error F ls i s = slide_error F' ls i s.
Proof.
  intros H. unfold slide_error.
  rewrite <- (H (Layouts i) eq_refl), <- (H (AddSlide i) eq_refl),
    <- (H (TitleText i) eq_refl), <- (H (Body i) eq_refl),
    <- (H (Pictures i) eq_refl), <- (H (Notes i) eq_refl),
    <- (H (NotesText i) eq_refl).
  reflexivity.
Qed.

Lemma deck_error_cosmetic (F F' : faults) (ls : list Layout) (ss : list Slide) :
  same_fatal_faults F F' ->
  forall i, deck_error F ls i ss = deck_error F' ls i ss.
Proof.
  intros H. induction ss as [|s rest IH]; intros i; simpl; [reflexivity|].
  now rewrite (slide_error_cosmetic F F' ls i s H), IH.
Qed.

Lemma build_error_cosmetic (F F' : faults) (tpl tpl' : Template) (deck : SlideDeck) :
  same_fatal_faults F F' ->
  slide_layouts tpl = slide_layouts tpl' ->
  build_error F tpl deck = build_error F' tpl' deck.
Proof.
  intros H Hl. unfold build_error.
  rewrite <- (H Seek eq_refl), <- (H Open eq_refl), <- (H Save eq_refl), <- Hl.
  now rewrite (deck_error_cosmetic F F' (slide_layouts tpl) (slides deck) H).
Qed.

(** Layout selection never fails on a template that has a layout. *)
Lemma first_layout_In (test : string -> bool) (ls : list Layout) :
  forall (ns : list string) (l : Layout),
    first_layout test ns ls = Some l -> In l ls.
Proof.
  induction ls as [|l0 ls IH]; intros ns l H; destruct ns as [|n ns]; simpl in H;
    try discriminate.
  destruct (test n); [injection H as ->; now left|].
  right. now apply (IH ns).
Qed.

Lemma by_priority_In (wants ns : list string) (ls : list Layout) (l : Layout) :
  by_priority wants ns ls = Some l -> In l ls.
Proof.
  induction wants as [|w wants IH]; simpl; [discriminate|].
  destruct (first_layout (archetype_test w) ns ls) as [l'|] eqn:E; [|exact IH].
  intros [= <-]. now apply first_layout_In in E.
Qed.

Lemma choose_layout_total (ls : list Layout) (hint : option string) :
  ls <> [] -> exists l, _choose_layout ls hint = Ok l /\ In l ls.
Proof.
  intros Hne. unfold _choose_layout.
  destruct (first_layout (exact_test hint) (names ls) ls) as [l|] eqn:E1.
  { exists l. split; [reflexivity|]. now apply first_layout_In in E1. }
  destruct (by_priority priority (names ls) ls) as [l|] eqn:E2.
  { exists l. split; [reflexivity|]. now apply by_priority_In in E2. }
  unfold fallback. destruct ls as [|l1 [|l2 rest]]; [contradiction| |]; simpl.
  - exists l1. split; [reflexivity|now left].
  - exists l2. split; [reflexivity|right; now left].
Qed.

Lemma choose_layout_empty (hint : option string) :
  _choose_layout [] hint = Raise IndexError.
Proof. reflexivity. Qed.

Lemma slide_error_clean (F : faults) (ls : list Layout) (i : nat) (s : Slide) :
  (forall o, cosmetic o = false -> F o = false) ->
  ls <> [] ->
  slide_error F ls i s = None.
Proof.
  intros H Hne. unfold slide_error.
  rewrite (H (Layouts i) eq_refl), (H (AddSlide i) eq_refl),
    (H (TitleText i) eq_refl), (H (Body i) eq_refl),
    (H (Pictures i) eq_refl), (H (Notes i) eq_refl),
    (H (NotesText i) eq_refl).
  destruct (choose_layout_total ls (hint_of s) Hne) as [l [-> _]].
  now destruct (title_of (placeholders l)).
Qed.

Lemma deck_error_clean (F : faults) (ls : list Layout) (ss : list Slide) :
  (forall o, cosmetic o = false -> F o = false) ->
  ls <> [] ->
  forall i, deck_error F ls i ss = None.
Proof.
  intros H Hne. induction ss as [|s rest IH]; intros i; simpl; [reflexivity|].
  now rewrite (slide_error_clean F ls i s H Hne).
Qed.

Lemma slide_error_turn_fault (F : faults) (ls : list Layout) (i : nat) (s : Slide) :
  turn_fault F ls i s -> exists e, slide_error F ls i s = Some e.
Proof.
  unfold turn_fault, slide_error. intros H.
  destruct (F (Layouts i)); [eauto|].
  destruct (_choose_layout ls (hint_of s)) as [l|e] eqn:El; [|eauto].
  destruct (F (AddSlide i)); [eauto|].
  destruct (title_of (placeholders l)) as [t|] eqn:Et.
  - destruct (F (TitleText i)); [eauto|].
    destruct (F (Body i)); [eauto|].
    destruct (F (Pictures i)); [eauto|].
    destruct (F (Notes i)); [eauto|].
    destruct (F (NotesText i)); [eauto|].
    destruct H as [H | [H | [[H _] | [H | [H | H]]]]]; discriminate H.
  - destruct (F (Body i)); [eauto|].
    destruct (F (Pictures i)); [eauto|].
    destruct (F (Notes i)); [eauto|].
    destruct (F (NotesText i)); [eauto|].
    destruct H as [H | [H | [[_ [layout [t [Hl Ht]]]] | [H | [H | H]]]]];
      try discriminate H.
    injection Hl as <-. congruence.
Qed.

Lemma deck_error_turn_fault (F : faults) (ls : list Layout) (ss : list Slide) :
  forall (i k : nat) (s : Slide),
    nth_error ss k = Some s -> turn_fault F ls (i + k) s ->
    exists e, deck_error F ls i ss = Some e.
Proof.
  induction ss as [|s0 rest IH]; intros i k s Hk Hf; [destruct k; discriminate Hk|].
  simpl. destruct (slide_error F ls i s0) as [e|] eqn:E; [eauto|].
  destruct k as [|k]; simpl in Hk.
  - injection Hk as ->. rewrite Nat.add_0_r in Hf.
    destruct (slide_error_turn_fault F ls i s Hf) as [e He]. congruence.
  - apply (IH (S i) k s Hk). now rewrite Nat.add_succ_comm.
Qed.


(** *** Failure semantics *)

(** C8, as amended. Failures in title font clamping, picture insertion and
    image harvesting are swallowed: whether the build raises, and what it
    raises, is the same for two runs that differ in those failures and in
    the images of the template only; with no other failure and a template
    that has a layout the build returns. A failure of any other operation
    that stands outside every [try] aborts the build: rewinding or opening
    the template, and for a slide of the deck retrieving the layouts,
    adding the slide, writing the title (when the slide's layout has a
    title placeholder), filling the body, listing the picture placeholders
    or writing the notes, as well as the final serialization. *)
Theorem cosmetic_failures_are_swallowed (G : PRNG) (tpl : Template) (deck : SlideDeck) :
  (forall F F' tpl' e,
      same_fatal_faults F F' ->
      slide_layouts tpl = slide_layouts tpl' ->
      (build_presentation G F tpl deck = Raise e
       <-> build_presentation G F' tpl' deck = Raise e))
  /\ (forall F,
        (forall o, cosmetic o = false -> F o = false) ->
        slide_layouts tpl <> [] ->
        exists doc, build_presentation G F tpl deck = Ok doc)
  /\ (forall F,
        F Seek = true \/ F Open = true \/ F Save = true
        \/ (exists i s, nth_error (slides deck) i = Some s
                        /\ turn_fault F (slide_layouts tpl) i s) ->
        exists e, build_presentation G F tpl deck = Raise e).
Proof.
  split; [|split].
  - intros F F' tpl' e H Hl.
    rewrite !raised_iff, !build_presentation_raised.
    now rewrite (build_error_cosmetic F F' tpl tpl' deck H Hl).
  - intros F H Hne. apply raised_none.
    rewrite build_presentation_raised. unfold build_error.
    rewrite (H Seek eq_refl), (H Open eq_refl), (H Save eq_refl).
    now rewrite (deck_error_clean F (slide_layouts tpl) (slides deck) H Hne).
  - intros F H.
    assert (exists e, build_error F tpl deck = Some e) as [e He].
    { unfold build_error.
      destruct (F Seek); [eauto|]. destruct (F Open); [eauto|].
      destruct (deck_error F (slide_layouts tpl) 0 (slides deck)) as [e|] eqn:E;
        [eauto|].
      destruct (F Save); [eauto|].
      destruct H as [H | [H | [H | [i [s [Hi Hf]]]]]]; try discriminate.
      destruct (deck_error_turn_fault F (slide_layouts tpl) (slides deck) 0 i s Hi Hf)
        as [e He].
      congruence. }
    exists e. apply raised_iff. now rewrite build_presentation_raised.
Qed.

(** *** An empty layout list *)

(** C10. On an empty layout list layout selection always fails, at the
    fallback's index 0, so the build raises for every deck that has a slide
    (with [IndexError] itself when no library call fails); selection is
    total exactly on the templates that have a layout. *)
Theorem empty_layout_list_fails (G : PRNG) :
  (forall hint, _choose_layout [] hint = Raise IndexError)
  /\ (forall F tpl deck,
        slide_layouts tpl = [] -> slides deck <> [] ->
        exists e, build_presentation G F tpl deck = Raise e)
  /\ (forall F tpl deck,
        slide_layouts tpl = [] -> slides deck <> [] ->
        (forall o, F o = false) ->
        build_presentation G F tpl deck = Raise IndexError)
  /\ (forall ls hint,
        ls <> [] -> exists l, _choose_layout ls hint = Ok l /\ In l ls).
Proof.
  split; [exact choose_layout_empty|].
  assert (forall F tpl deck,
             slide_layouts tpl = [] -> slides deck <> [] ->
             exists e, build_error F tpl deck = Some e
                       /\ ((forall o, F o = false) -> e = IndexError)) as Herr.
  { intros F tpl deck Hl Hs. unfold build_error. rewrite Hl.
    destruct (slides deck) as [|s rest]; [contradiction|].
    simpl. unfold slide_error. simpl.
    destruct (F Seek) eqn:E1; [eexists; split; [reflexivity|]; intros H; congruence|].
    destruct (F Open) eqn:E2; [eexists; split; [reflexivity|]; intros H; congruence|].
    destruct (F (Layouts 0)) eqn:E3;
      [eexists; split; [reflexivity|]; intros H; congruence|].
    eexists; split; reflexivity. }
  split; [|split].
  - intros F tpl deck Hl Hs. destruct (Herr F tpl deck Hl Hs) as [e [He _]].
    exists e. apply raised_iff. now rewrite build_presentation_raised.
  - intros F tpl deck Hl Hs HF. destruct (Herr F tpl deck Hl Hs) as [e [He Hi]].
    apply raised_iff. rewrite build_presentation_raised, He. now rewrite (Hi HF).
  - exact choose_layout_total.
Qed.

(** *** Picture choice *)

Lemma add_deck_slides_ok (G : PRNG) (F : faults) (ls : list Layout)
  (imgs : list bytes) (ss : list Slide) :
  forall (i : nat) (g : rng_state G) (bs : list BuiltSlide),
    add_deck_slides G F ls imgs i ss g = Ok bs ->
    Forall2 (fun s b => _choose_layout ls (hint_of s) = Ok (from_layout b)) ss bs
    /\ map chosen bs = draw_sequence G imgs (map from_layout bs) g.
Proof.
  induction ss as [|s rest IH]; intros i g bs; simpl.
  - intros [= <-]. split; [constructor|reflexivity].
  - destruct (add_deck_slide G F ls imgs i s g) as [[b g']|e] eqn:E; simpl;
      [|discriminate].
    destruct (add_deck_slides G F ls imgs (S i) rest g') as [bs'|e] eqn:E';
      simpl; [|discriminate].
    intros [= <-].
    apply add_deck_slide_ok in E. destruct E as [Hl Hd].
    apply IH in E'. destruct E' as [Hls Hds].
    split; [now constructor|].
    simpl. rewrite <- Hd. simpl. now rewrite Hds.
Qed.

(** The layouts of two finished runs over the same deck and layouts agree. *)
Lemma same_layouts (ls : list Layout) (ss : list Slide) :
  forall bs1 bs2 : list BuiltSlide,
    Forall2 (fun s b => _choose_layout ls (hint_of s) = Ok (from_layout b)) ss bs1 ->
    Forall2 (fun s b => _choose_layout ls (hint_of s) = Ok (from_layout b)) ss bs2 ->
    map from_layout bs1 = map from_layout bs2.
Proof.
  induction ss as [|s rest IH]; intros bs1 bs2 H1 H2;
    inversion H1; inversion H2; subst; [reflexivity|].
  simpl. f_equal; [congruence|]. now apply IH.
Qed.

Lemma build_presentation_ok (G : PRNG) (F : faults) (tpl : Template)
  (deck : SlideDeck) (doc : Document) :
  build_presentation G F tpl deck = Ok doc ->
  add_deck_slides G F (slide_layouts tpl) (harvest F tpl) 0 (slides deck) (Random G 42)
  = Ok (added_slides doc).
Proof.
  unfold build_presentation, call.
  destruct (F Seek); simpl; [discriminate|].
  destruct (F Open); simpl; [discriminate|].
  destruct (add_deck_slides G F (slide_layouts tpl) (harvest F tpl) 0
              (slides deck) (Random G 42)); simpl; [|discriminate].
  destruct (F Save); [discriminate|]. now intros [= <-].
Qed.

Lemma draw_counts (G : PRNG) (imgs : list bytes) (layout : Layout)
  (g : rng_state (counting G)) :
  snd (snd (draw (counting G) imgs layout g))
  = (snd g + (if qualifies imgs layout then 1 else 0))%nat.
Proof.
  unfold draw, qualifies, choice.
  destruct (pics_of (placeholders layout)), imgs; simpl; try lia.
  destruct (randbelow G (fst g) (S (List.length imgs))). simpl. lia.
Qed.

(** C7. Picture choice is deterministic. A finished build has drawn from a
    generator seeded with 42 at its start, once per qualifying slide and in
    slide order: its assignment is the draw sequence over the layouts of
    its slides, and each turn advances the generator by exactly one call of
    [choice] when the slide qualifies and by none otherwise. Hence two
    finished builds of the same deck on the same template with the same
    reusable images have the same assignment, whatever else differs
    between the runs. *)
Theorem picture_choice_is_deterministic (G : PRNG) (tpl : Template) (deck : SlideDeck) :
  (forall F doc,
      build_presentation G F tpl deck = Ok doc ->
      assignments doc
      = draw_sequence G (harvest F tpl) (map from_layout (added_slides doc))
          (Random G 42))
  /\ (forall F ls imgs i s g b g',
        add_deck_slide (counting G) F ls imgs i s g = Ok (b, g') ->
        snd g' = (snd g + (if qualifies imgs (from_layout b) then 1 else 0))%nat
        /\ (chosen b = None <-> qualifies imgs (from_layout b) = false))
  /\ (forall F1 F2 d1 d2,
        build_presentation G F1 tpl deck = Ok d1 ->
        build_presentation G F2 tpl deck = Ok d2 ->
        harvest F1 tpl = harvest F2 tpl ->
        assignments d1 = assignments d2).
Proof.
  split; [|split].
  - intros F doc H. apply build_presentation_ok in H.
    apply add_deck_slides_ok in H. exact (proj2 H).
  - intros F ls imgs i s g b g' H.
    apply add_deck_slide_ok in H. destruct H as [_ Hd].
    pose proof (draw_counts G imgs (from_layout b) g) as Hc.
    rewrite <- Hd in Hc. simpl in Hc. split; [exact Hc|].
    unfold draw, qualifies in *.
    destruct (pics_of (placeholders (from_layout b))), imgs;
      try (injection Hd as -> _; split; reflexivity).
    destruct (choice g b0 imgs). injection Hd as -> _.
    split; discriminate.
  - intros F1 F2 d1 d2 H1 H2 Hh.
    apply build_presentation_ok in H1, H2.
    apply add_deck_slides_ok in H1, H2.
    destruct H1 as [L1 D1], H2 as [L2 D2].
    unfold assignments. rewrite D1, D2, Hh.
    now rewrite (same_layouts _ _ _ _ L1 L2).
Qed.


(** *** What a finished build holds *)

(** The title font sizes of the slide that a finished turn appends. *)
Lemma add_deck_slide_built (G : PRNG) (F : faults) (ls : list Layout)
  (imgs : list bytes) (i : nat) (s : Slide) (g g' : rng_state G) (b : BuiltSlide) :
  add_deck_slide G F ls imgs i s g = Ok (b, g') ->
  title_sizes b = match title_of (placeholders (from_layout b)) with
                  | Some t => clamp_sizes F i 0 (para_sizes t)
                  | None => []
                  end.
Proof.
  unfold add_deck_slide, call. simpl.
  destruct (F (Layouts i)); simpl; [discriminate|].
  destruct (_choose_layout ls (Some (opt_str_or (layout_hint s) ""))) as [layout|e];
    simpl; [|discriminate].
  destruct (F (AddSlide i)); simpl; [discriminate|].
  destruct (title_of (placeholders layout)) eqn:Ht; simpl;
    try (destruct (F (TitleText i)); simpl; [discriminate|]);
    (destruct (F (Body i)); simpl; [discriminate|]);
    (destruct (F (Pictures i)); simpl; [discriminate|]);
    destruct (pics_of (placeholders layout)), imgs; simpl;
    try destruct (choice g _ _); simpl;
    (destruct (F (Notes i)); simpl; [discriminate|]);
    (destruct (F (NotesText i)); simpl; [discriminate|]);
    intros [= <- <-]; simpl; rewrite Ht; auto.
Qed.

Lemma add_deck_slides_each (G : PRNG) (F : faults) (ls : list Layout)
  (imgs : list bytes) (P : nat -> Slide -> BuiltSlide -> Prop) :
  (forall i s g g' b, add_deck_slide G F ls imgs i s g = Ok (b, g') -> P i s b) ->
  forall (ss : list Slide) (i : nat) (g : rng_state G) (bs : list BuiltSlide),
    add_deck_slides G F ls imgs i ss g = Ok bs ->
    List.length bs = List.length ss
    /\ forall k s b, nth_error ss k = Some s -> nth_error bs k = Some b ->
                     P (i + k)%nat s b.
Proof.
  intros HP. induction ss as [|s rest IH]; intros i g bs; simpl.
  - intros [= <-]. split; [reflexivity|]. intros [|k] s b; discriminate.
  - destruct (add_deck_slide G F ls imgs i s g) as [[b g']|e] eqn:E; simpl;
      [|discriminate].
    destruct (add_deck_slides G F ls imgs (S i) rest g') as [bs'|e] eqn:E';
      simpl; [|discriminate].
    intros [= <-]. apply IH in E'. destruct E' as [Hlen Hnth].
    split; [simpl; now rewrite Hlen|].
    intros [|k] s0 b0; simpl.
    + intros [= <-] [= <-]. rewrite Nat.add_0_r. now apply (HP i s g g' b).
    + intros Hs Hb. rewrite <- Nat.add_succ_comm. now apply Hnth.
Qed.

Lemma clamp_sizes_no_fault (F : faults) (i : nat) (sizes : list (option Z)) :
  (forall k, F (FontClamp i k) = false) ->
  forall k, clamp_sizes F i k sizes = map clamp_size sizes.
Proof.
  intros H. induction sizes as [|sz rest IH]; intros k; simpl; [reflexivity|].
  now rewrite H, IH.
Qed.

Lemma choose_layout_In (ls : list Layout) (hint : option string) (l : Layout) :
  _choose_layout ls hint = Ok l -> In l ls.
Proof.
  intros H. destruct ls as [|l0 ls]; [discriminate H|].
  destruct (choose_layout_total (l0 :: ls) hint ltac:(discriminate)) as [l' [E Hin]].
  rewrite E in H. now injection H as <-.
Qed.

(** Slides are appended one per deck slide and in deck order, after the
    slides of the template, each on the layout chosen for its hint, which
    is one of the layouts of the template. *)
Theorem built_slides_follow_the_deck (G : PRNG) (F : faults) (tpl : Template)
  (deck : SlideDeck) (doc : Document) :
  build_presentation G F tpl deck = Ok doc ->
  existing_slides doc = tpl_slides tpl
  /\ List.length (added_slides doc) = List.length (slides deck)
  /\ forall k s b,
       nth_error (slides deck) k = Some s ->
       nth_error (added_slides doc) k = Some b ->
       _choose_layout (slide_layouts tpl) (hint_of s) = Ok (from_layout b)
       /\ In (from_layout b) (slide_layouts tpl).
Proof.
  intros H. pose proof (build_presentation_ok G F tpl deck doc H) as Hs.
  split.
  { unfold build_presentation, call in H.
    destruct (F Seek); simpl in H; [discriminate|].
    destruct (F Open); simpl in H; [discriminate|].
    destruct (add_deck_slides G F (slide_layouts tpl) (harvest F tpl) 0
                (slides deck) (Random G 42)); simpl in H; [|discriminate].
    destruct (F Save); [discriminate|]. now injection H as <-. }
  apply (add_deck_slides_each G F (slide_layouts tpl) (harvest F tpl)
           (fun _ s b =>
              _choose_layout (slide_layouts tpl) (hint_of s) = Ok (from_layout b)
              /\ In (from_layout b) (slide_layouts tpl))) in Hs.
  - exact Hs.
  - intros i s g g' b E. apply add_deck_slide_ok in E. destruct E as [E _].
    split; [exact E|]. exact (choose_layout_In _ _ _ E).
Qed.

(** Title font clamp: when reading and writing the font sizes does not
    fail, every title paragraph set above 48 pt ends at 40 pt and every
    other size is left as it is. *)
Theorem title_fonts_are_clamped (G : PRNG) (F : faults) (tpl : Template)
  (deck : SlideDeck) (doc : Document) :
  build_presentation G F tpl deck = Ok doc ->
  (forall i k, F (FontClamp i k) = false) ->
  forall k b t,
    nth_error (added_slides doc) k = Some b ->
    title_of (placeholders (from_layout b)) = Some t ->
    title_sizes b
    = map (fun sz => match sz with
                     | Some e => if (609600 <? e)%Z then Some 508000%Z else Some e
                     | None => None
                     end) (para_sizes t).
Proof.
  intros H HF k b t Hb Ht.
  apply build_presentation_ok in H.
  apply (add_deck_slides_each G F (slide_layouts tpl) (harvest F tpl)
           (fun i _ b => title_sizes b
                         = match title_of (placeholders (from_layout b)) with
                           | Some t => clamp_sizes F i 0 (para_sizes t)
                           | None => []
                           end)) in H.
  - destruct H as [Hlen Hnth].
    destruct (nth_error (slides deck) k) as [s|] eqn:Hs.
    + rewrite (Hnth k s b Hs Hb), Ht.
      rewrite (clamp_sizes_no_fault F (0 + k) (para_sizes t) (HF (0 + k)%nat)).
      apply map_ext. intros [e|]; [|reflexivity].
      unfold clamp_size, Pt48, Pt40.
      destruct (e =? 0)%Z eqn:E0; simpl; [|reflexivity].
      apply Z.eqb_eq in E0. subst e. reflexivity.
    + apply nth_error_None in Hs.
      assert (nth_error (added_slides doc) k <> None) as Hk by congruence.
      apply nth_error_Some in Hk. lia.
  - intros i s g g' b0 E. now apply add_deck_slide_built in E.
Qed.

(** *** The sample deck *)

Import Sample.

Lemma cosmetic_failures_are_swallowed_witness :
  (exists doc, build_presentation lcg cosmetic_faults template deck = Ok doc)
  /\ (exists e, build_presentation lcg title_fails template deck = Raise e).
Proof.
  split.
  - apply (proj1 (proj2 (cosmetic_failures_are_swallowed lcg template deck))).
    + intros o H. destruct o; try reflexivity; discriminate H.
    + discriminate.
  - apply (proj2 (proj2 (cosmetic_failures_are_swallowed lcg template deck))).
    right. right. right.
    exists 2%nat, (mkSlide "Album" ["one"] (Some "PICTURE WITH CAPTION") None).
    split; [reflexivity|]. right. right. left. split; [reflexivity|].
    eexists. eexists. split; reflexivity.
Defined.

(** Opening the template, adding a slide and writing the notes are neither
    layout retrieval nor serialization, and the failure of each aborts the
    build of the sample deck, which is built when nothing fails. *)
Lemma other_failures_abort_the_build :
  ((forall i, open_fails (Layouts i) = false) /\ open_fails Save = false
   /\ build_presentation lcg open_fails template deck = Raise (Fault Open))
  /\ ((forall i, add_slide_fails (Layouts i) = false) /\ add_slide_fails Save = false
      /\ build_presentation lcg add_slide_fails template deck
         = Raise (Fault (AddSlide 1)))
  /\ ((forall i, notes_fail (Layouts i) = false) /\ notes_fail Save = false
      /\ build_presentation lcg notes_fail template deck
         = Raise (Fault (NotesText 0)))
  /\ is_ok (build_presentation lcg no_faults template deck) = true.
Proof.
  repeat split; reflexivity.
Qed.

Lemma empty_layout_list_fails_witness :
  build_presentation lcg no_faults bare_template deck = Raise IndexError.
Proof.
  apply (proj1 (proj2 (proj2 (empty_layout_list_fails lcg)))).
  - reflexivity.
  - discriminate.
  - reflexivity.
Defined.

Example faulty_run_inserts_no_picture :
  map picture (added_slides faulty_run) = [None; None; None; None]
  /\ map title_sizes (added_slides faulty_run)
     = [[Some 685800%Z]; [Some 685800%Z]; [Some 685800%Z]; [Some 685800%Z]]
  /\ map title_sizes (added_slides plain_run)
     = [[Some Pt40]; [Some Pt40]; [Some Pt40]; [Some Pt40]].
Proof. repeat split; reflexivity. Qed.

Lemma picture_choice_is_deterministic_witness :
  assignments plain_run = assignments faulty_run
  /\ assignments plain_run
     = [None; Some (blob 1 Byte.x04); Some (blob 2 Byte.x05); None].
Proof.
  split.
  - apply (proj2 (proj2 (picture_choice_is_deterministic lcg template deck))
             no_faults picture_faults); reflexivity.
  - rewrite (proj1 (picture_choice_is_deterministic lcg template deck)
               no_faults plain_run eq_refl).
    reflexivity.
Defined.

Lemma built_slides_follow_the_deck_witness :
  existing_slides plain_run = existing
  /\ List.length (added_slides plain_run) = 4%nat
  /\ map (fun b => layout_name (from_layout b)) (added_slides plain_run)
     = [ Some "Title and Content"; Some "Picture with Caption";
         Some "Picture with Caption"; Some "Title and Content" ].
Proof.
  destruct (built_slides_follow_the_deck lcg no_faults template deck plain_run eq_refl)
    as [H1 [H2 _]].
  split; [exact H1|]. split; [exact H2|reflexivity].
Defined.

Lemma title_fonts_are_clamped_witness :
  exists b,
    nth_error (added_slides plain_run) 0 = Some b
    /\ title_sizes b = [Some 508000%Z].
Proof.
  eexists. split; [reflexivity|].
  rewrite (title_fonts_are_clamped lcg no_faults template deck plain_run eq_refl
             (fun _ _ => eq_refl) 0%nat _ title_ph eq_refl eq_refl).
  reflexivity.
Defined.

End BuildProps.

(** ** llm_providers.py: provider errors *)

Module ProviderProps.

Import Http Re Providers ProviderSpec.

Lemma take_length (n : N) (s : string) :
  (N.of_nat (String.length (take n s)) <= n)%N.
Proof.
  revert n. induction s as [|c s IH]; intros n; simpl; [lia|].
  destruct (n =? 0)%N eqn:E; simpl; [lia|].
  apply N.eqb_neq in E. specialize (IH (N.pred n)). lia.
Qed.

Lemma take_prefix (n : N) (s : string) :
  exists rest, s = (take n s ++ rest)%string.
Proof.
  revert n. induction s as [|c s IH]; intros n; simpl.
  - now exists EmptyString.
  - destruct (n =? 0)%N.
    + now exists (String c s).
    + destruct (IH (N.pred n)) as [rest H]. exists rest. simpl. now rewrite <- H.
Qed.

Section Strategies.

Variable json_loads : string -> result exn value.
Variable OPENAI_BASE : option string.
Variable transport : nat -> Request -> result exn Response.

Local Abbreviation request_of := (ProviderSpec.request_of OPENAI_BASE).
Local Abbreviation call_of := (ProviderSpec.call_of json_loads OPENAI_BASE transport).

(** Every strategy issues exactly one POST, whatever comes back. *)
Lemma call_posts_once (st : strategy) (model api_key : string) (p : Payload) (w : World) :
  snd (call_of st model api_key p w)
  = mkWorld (posts w ++ [request_of st model api_key p]) (sleeps w) (draws w).
Proof.
  destruct st; simpl;
    unfold _call_openai, _call_anthropic, _call_gemini, mbind, post, lift;
    match goal with
    | |- context [transport ?n ?r] => destruct (transport n r) as [resp|e]
    end; simpl; try reflexivity;
    destruct (400 <=? status_code resp)%Z; reflexivity.
Qed.

(** A transport failure is what the strategy raises. *)
Lemma call_transport_failure (st : strategy) (model api_key : string) (p : Payload)
  (w : World) (e : exn) :
  transport (List.length (posts w)) (request_of st model api_key p) = Raise e ->
  fst (call_of st model api_key p w) = Raise e.
Proof.
  intros H. destruct st; simpl in *;
    unfold _call_openai, _call_anthropic, _call_gemini, mbind, post;
    now rewrite H.
Qed.

(** C6, as amended. For every response whose status code is 400 or more,
    each call strategy raises an [HTTPStatusError] that carries the
    original request and response and whose message is the provider label,
    " HTTP ", the status code, ": " and a body snippet: the first 500
    characters of the response text, or "<no body>" when the text cannot be
    read. (A response with another status outside 2xx does not raise this
    error.) *)
Theorem provider_error_from_status_400 (st : strategy) (model api_key : string)
  (p : Payload) (w : World) (resp : Response) :
  transport (List.length (posts w)) (request_of st model api_key p) = Ok resp ->
  (400 <= status_code resp)%Z ->
  exists body,
    fst (call_of st model api_key p w)
    = Raise (HTTPStatusError
               (label_of st ++ " HTTP " ++ str_of_int (status_code resp) ++ ": " ++ body)
               (request resp) resp)
    /\ (String.length body <= 500)%nat
    /\ match text resp with
       | Some t => body = take 500 t /\ exists rest, t = (body ++ rest)%string
       | None => body = "<no body>"
       end.
Proof.
  intros Ht Hs. apply Z.leb_le in Hs.
  exists (match text resp with Some t => take 500 t | None => "<no body>" end).
  split; [|split].
  - destruct st; simpl in *;
      unfold _call_openai, _call_anthropic, _call_gemini, mbind, post, lift;
      rewrite Ht, Hs; reflexivity.
  - destruct (text resp) as [t|].
    + pose proof (take_length 500 t). lia.
    + simpl. lia.
  - destruct (text resp) as [t|]; [|reflexivity].
    split; [reflexivity|apply take_prefix].
Qed.

End Strategies.


(** *** Examples *)

Import SampleNet.

Lemma provider_error_from_status_400_witness :
  exists body,
    fst (_call_anthropic reference_loads unavailable "m" "k" payload fresh)
    = Raise (HTTPStatusError ("Anthropic HTTP 503: " ++ body)
               (anthropic_request "m" "k" payload)
               (mkResponse 503 (Some "Service Unavailable") None
                  (anthropic_request "m" "k" payload)))
    /\ (String.length body <= 500)%nat
    /\ body = "Service Unavailable".
Proof.
  destruct (provider_error_from_status_400 reference_loads None unavailable
              Anthropic "m" "k" payload fresh
              (mkResponse 503 (Some "Service Unavailable") None
                 (anthropic_request "m" "k" payload))
              eq_refl ltac:(discriminate))
    as [body [H1 [H2 [H3 _]]]].
  exists body. split; [exact H1|]. split; [exact H2|exact H3].
Defined.

(** A redirect is outside 2xx and is not reported: with a decodable body
    the call returns normally, and with an undecodable one it raises the
    decoding error, which names neither the provider nor the status. *)
Lemma redirect_raises_no_provider_error :
  fst (_call_openai reference_loads None
         (answers 302 (Some "Found") (Some (chat_completion "{}")))
         "m" "k" payload fresh)
  = Ok (JObj [])
  /\ fst (_call_openai reference_loads None
            (answers 302 (Some "<html>Found</html>") None)
            "m" "k" payload fresh)
     = Raise JSONDecodeError
  /\ fst (_call_gemini reference_loads
            (answers 304 (Some "") None) "m" "k" payload fresh)
     = Raise JSONDecodeError.
Proof. repeat split; reflexivity. Qed.

(** The snippet of a long body stops at 500 characters. *)
Example long_body_is_cut :
  String.length
    (provider_error_message
       (mkResponse 500 (Some (string_of_list_ascii (repeat "x"%char 700))) None
          (anthropic_request "m" "k" payload))
       "Gemini")
  = (String.length "Gemini HTTP 500: " + 500)%nat.
Proof. vm_compute. reflexivity. Qed.

End ProviderProps.

(** ** llm_providers.py: the retry wrapper *)

Module RetryProps.

Import Http Re Providers ProviderSpec ProviderProps.

(** *** The loop of tenacity *)

Section RetryLaws.

Variable W : Type.
Variable A : Type.
Variable uniform : Q -> W -> Q * W.
Variable sleep : Q -> W -> W.

Local Abbreviation backoff := (ProviderSpec.backoff W uniform sleep).

Lemma retry_returns_first_success (n : nat) (initial max : Q)
  (fn : W -> result exn A * W) (w : W) (v : A) :
  fst (fn w) = Ok v ->
  Tenacity.retry W A uniform sleep n initial max fn w = (Ok v, snd (fn w)).
Proof.
  intros H. unfold Tenacity.retry. destruct (n - 1)%nat; simpl;
    destruct (fn w) as [r w1]; simpl in *; now rewrite H.
Qed.

Lemma retry_reraises_other (n : nat) (initial max : Q)
  (fn : W -> result exn A * W) (w : W) (e : exn) :
  fst (fn w) = Raise e -> is_Exception e = false ->
  Tenacity.retry W A uniform sleep n initial max fn w = (Raise e, snd (fn w)).
Proof.
  intros H He. unfold Tenacity.retry. destruct (n - 1)%nat; simpl;
    destruct (fn w) as [r w1]; simpl in *; now rewrite H, He.
Qed.

(** Three failed attempts: two waits, and [RetryError] around the last failure. *)
Lemma retry_exhausted (initial max : Q) (fn : W -> result exn A * W) (w : W)
  (e1 e2 e3 : exn) :
  fst (fn w) = Raise e1 -> is_Exception e1 = true ->
  fst (fn (backoff initial max 1 (snd (fn w)))) = Raise e2 -> is_Exception e2 = true ->
  fst (fn (backoff initial max 2 (snd (fn (backoff initial max 1 (snd (fn w)))))))
  = Raise e3 ->
  is_Exception e3 = true ->
  Tenacity.retry W A uniform sleep 3 initial max fn w
  = (Raise (RetryError e3),
     snd (fn (backoff initial max 2 (snd (fn (backoff initial max 1 (snd (fn w)))))))).
Proof.
  unfold Tenacity.retry, backoff. simpl.
  destruct (fn w) as [r1 w1]. simpl. intros -> ->. simpl.
  destruct (uniform 1 w1) as [u1 w1']. simpl.
  destruct (fn (sleep _ w1')) as [r2 w2]. simpl. intros -> ->. simpl.
  destruct (uniform 1 w2) as [u2 w2']. simpl.
  destruct (fn (sleep _ w2')) as [r3 w3]. simpl. intros -> ->. reflexivity.
Qed.

End RetryLaws.

(** *** generate_slide_outline *)

(** The backoff waits for jitter draws in the unit interval. *)
Lemma wait_value (k : nat) (b u : Q) :
  b == 1 * 2 ^ Z.of_nat (k - 1) -> 0 <= b + u -> b + u <= 8 ->
  Tenacity.wait_exponential_jitter 1 8 2 k u == b + u.
Proof.
  intros Hb H0 H8. unfold Tenacity.wait_exponential_jitter.
  rewrite <- Hb.
  destruct (Q.min_spec (b + u) 8) as [[Hm Hmin] | [Hm Hmin]];
    destruct (Q.max_spec 0 (Qmin (b + u) 8)) as [[Hle Hmax] | [Hle Hmax]];
    rewrite Hmax; try rewrite Hmin; rewrite Hmin in Hle; lra.
Qed.

Lemma wait_first (u : Q) :
  0 <= u -> u <= 1 ->
  Tenacity.wait_exponential_jitter 1 8 2 1 (1 * u) == 1 + u.
Proof.
  intros H0 H1. rewrite (wait_value 1 1 (1 * u)); [lra|reflexivity|lra|lra].
Qed.

Lemma wait_second (u : Q) :
  0 <= u -> u <= 1 ->
  Tenacity.wait_exponential_jitter 1 8 2 2 (1 * u) == 2 + u.
Proof.
  intros H0 H1. rewrite (wait_value 2 2 (1 * u)); [lra|reflexivity|lra|lra].
Qed.


Section Outline.

Variable json_loads : string -> result exn value.
Variable OPENAI_BASE : option string.
Variable transport : nat -> Request -> result exn Response.
Variable random : nat -> Q.

Local Abbreviation attempt := (ProviderSpec.attempt json_loads OPENAI_BASE transport).
Local Abbreviation outline := (ProviderSpec.outline json_loads OPENAI_BASE transport random).
Local Abbreviation first_wait := (ProviderSpec.first_wait random).
Local Abbreviation second_wait := (ProviderSpec.second_wait random).

Lemma attempt_dispatch (provider model : option string)
  (api_key raw_text guidance : string) :
  attempt provider model api_key raw_text guidance
  = match strategy_of (lower (strip (opt_str_or provider ""))) with
    | Some st =>
        call_of json_loads OPENAI_BASE transport st
          (opt_str_or model (default_model st)) api_key (payload_of raw_text guidance)
    | None => raise unsupported
    end.
Proof.
  unfold attempt, generate_slide_outline_body, strategy_of. cbv zeta.
  destruct (String.eqb _ "openai"); [reflexivity|].
  destruct (String.eqb _ "anthropic"); [reflexivity|].
  destruct (String.eqb _ "gemini"); reflexivity.
Qed.

Lemma strategy_of_none (p : string) :
  p <> "openai" -> p <> "anthropic" -> p <> "gemini" -> strategy_of p = None.
Proof.
  intros H1 H2 H3. unfold strategy_of.
  apply String.eqb_neq in H1, H2, H3. now rewrite H1, H2, H3.
Qed.

(** C1, as amended. For a provider string whose trimmed, lower-cased form
    is none of openai, anthropic and gemini, every attempt raises the
    "Unsupported provider" [ValueError] before any network call. The retry
    wrapper treats it like any other exception: the call makes its three
    attempts with the two backoff waits between them and then fails with a
    [RetryError] that holds that [ValueError]; no network call is issued. *)
Theorem unsupported_provider_fails_without_network (provider : string)
  (model : option string) (api_key raw_text guidance : string) (w : World) :
  lower (strip provider) <> "openai" ->
  lower (strip provider) <> "anthropic" ->
  lower (strip provider) <> "gemini" ->
  (forall w0, attempt (Some provider) model api_key raw_text guidance w0
              = (Raise unsupported, w0))
  /\ outline (Some provider) model api_key raw_text guidance w
     = (Raise (RetryError unsupported),
        mkWorld (posts w) (sleeps w ++ [first_wait w; second_wait w]) (S (S (draws w)))).
Proof.
  intros H1 H2 H3.
  assert (forall w0, attempt (Some provider) model api_key raw_text guidance w0
                     = (Raise unsupported, w0)) as Hbody.
  { intros w0. rewrite attempt_dispatch.
    replace (opt_str_or (Some provider) "") with provider by (now destruct provider).
    now rewrite (strategy_of_none _ H1 H2 H3). }
  split; [exact Hbody|].
  unfold outline, generate_slide_outline.
  fold (attempt (Some provider) model api_key raw_text guidance).
  rewrite (retry_exhausted World value (uniform random) sleep 1 8 _ w
             unsupported unsupported unsupported);
    try reflexivity; try (rewrite Hbody; reflexivity).
  rewrite !Hbody. unfold backoff, uniform, sleep, first_wait, second_wait. simpl.
  now rewrite <- app_assoc.
Qed.

(** C2, as amended. For a supported provider, when each of the three
    attempts of a call raises an exception, the call makes exactly those
    three attempts, each issuing one POST, with a wait of 1 s plus jitter
    after the first and 2 s plus jitter after the second (each jitter in
    [0, 1], each wait within the 8 s cap); then a [RetryError] holding the
    exception of the third attempt is raised to the caller. Nothing is
    asked of an attempt that the call does not make. *)
Theorem exhausted_retries_raise_retry_error (provider model : option string)
  (api_key raw_text guidance : string) (st : strategy) (w : World)
  (req : Request) (e1 e2 e3 : exn) :
  strategy_of (lower (strip (opt_str_or provider ""))) = Some st ->
  req = request_of OPENAI_BASE st (opt_str_or model (default_model st)) api_key
          (payload_of raw_text guidance) ->
  fst (attempt provider model api_key raw_text guidance w) = Raise e1 ->
  is_Exception e1 = true ->
  fst (attempt provider model api_key raw_text guidance
         (mkWorld (posts w ++ [req]) (sleeps w ++ [first_wait w]) (S (draws w))))
  = Raise e2 ->
  is_Exception e2 = true ->
  fst (attempt provider model api_key raw_text guidance
         (mkWorld (posts w ++ [req; req])
            (sleeps w ++ [first_wait w; second_wait w]) (S (S (draws w)))))
  = Raise e3 ->
  is_Exception e3 = true ->
  0 <= random (draws w) <= 1 ->
  0 <= random (S (draws w)) <= 1 ->
  outline provider model api_key raw_text guidance w
  = (Raise (RetryError e3),
     mkWorld (posts w ++ [req; req; req])
       (sleeps w ++ [first_wait w; second_wait w]) (S (S (draws w))))
  /\ first_wait w == 1 + random (draws w)
  /\ second_wait w == 2 + random (S (draws w))
  /\ 1 <= first_wait w /\ first_wait w <= second_wait w /\ second_wait w <= 8.
Proof.
  intros Hst Hreq E1 X1 E2 X2 E3 X3 [L1 U1] [L2 U2].
  set (fn := attempt provider model api_key raw_text guidance) in *.
  assert (forall w0, snd (fn w0) = mkWorld (posts w0 ++ [req]) (sleeps w0) (draws w0))
    as Hworld.
  { intros w0. unfold fn. rewrite attempt_dispatch, Hst, Hreq. apply call_posts_once. }
  set (w1 := mkWorld (posts w ++ [req]) (sleeps w ++ [first_wait w]) (S (draws w))) in *.
  set (w2 := mkWorld (posts w ++ [req; req])
               (sleeps w ++ [first_wait w; second_wait w]) (S (S (draws w)))) in *.
  assert (backoff World (uniform random) sleep 1 8 1 (snd (fn w)) = w1) as B1.
  { rewrite Hworld. reflexivity. }
  assert (backoff World (uniform random) sleep 1 8 2 (snd (fn w1)) = w2) as B2.
  { rewrite Hworld. unfold backoff, uniform, sleep, w1, w2, second_wait. simpl.
    now rewrite <- !app_assoc. }
  split.
  { unfold outline, generate_slide_outline.
    change (generate_slide_outline_body json_loads OPENAI_BASE transport
              provider model api_key raw_text guidance) with fn.
    rewrite (retry_exhausted World value (uniform random) sleep 1 8 fn w e1 e2 e3);
      rewrite ?B1, ?B2; try assumption.
    rewrite Hworld. unfold w2. simpl. now rewrite <- !app_assoc. }
  pose proof (wait_first _ L1 U1) as W1.
  pose proof (wait_second _ L2 U2) as W2.
  fold (first_wait w) in W1. fold (second_wait w) in W2.
  repeat split; try assumption; rewrite ?W1, ?W2; lra.
Qed.

(** A call whose first attempt returns makes one POST and does not sleep. *)
Theorem first_success_is_returned (provider model : option string)
  (api_key raw_text guidance : string) (st : strategy) (w : World) (v : value) :
  strategy_of (lower (strip (opt_str_or provider ""))) = Some st ->
  fst (attempt provider model api_key raw_text guidance w) = Ok v ->
  outline provider model api_key raw_text guidance w
  = (Ok v,
     mkWorld
       (posts w ++ [request_of OPENAI_BASE st (opt_str_or model (default_model st))
                      api_key (payload_of raw_text guidance)])
       (sleeps w) (draws w)).
Proof.
  intros Hst Hok. unfold ProviderSpec.outline, generate_slide_outline.
  change (generate_slide_outline_body json_loads OPENAI_BASE transport
            provider model api_key raw_text guidance)
    with (attempt provider model api_key raw_text guidance).
  rewrite (retry_returns_first_success World value (uniform random) sleep 3 1 8 _ w v Hok).
  f_equal. rewrite attempt_dispatch, Hst. apply call_posts_once.
Qed.

End Outline.


(** *** Examples *)

Import SampleNet.

Lemma unsupported_provider_fails_without_network_witness :
  outline reference_loads None down half (Some " Azure ") None "k" "some text" "" fresh
  = (Raise (RetryError unsupported),
     mkWorld [] [first_wait half fresh; second_wait half fresh] 2).
Proof.
  apply (proj2 (unsupported_provider_fails_without_network reference_loads None
                  down half " Azure " None "k" "some text" "" fresh
                  ltac:(vm_compute; discriminate)
                  ltac:(vm_compute; discriminate)
                  ltac:(vm_compute; discriminate))).
Defined.

(** An unsupported provider is retried: the call sleeps 1.5 s and 2.5 s
    between three attempts, and what it raises is the [RetryError]. *)
Lemma unsupported_provider_is_retried :
  outline reference_loads None down half (Some "azure") None "k" "some text" "" fresh
  = (Raise (RetryError unsupported), mkWorld [] [3 # 2; 5 # 2] 2)
  /\ RetryError unsupported <> unsupported.
Proof. split; [reflexivity|discriminate]. Qed.

(** A provider that is down for three requests and answers the fourth:
    the call gives up after the third attempt, although one more attempt
    would have returned. *)
Lemma exhausted_retries_raise_retry_error_witness :
  outline reference_loads None recovers half (Some "openai") None "k" "some text" ""
    fresh
  = (Raise (RetryError (TransportError "connection refused")),
     mkWorld [openai_request None "gpt-4o-mini" "k" (payload_of "some text" "");
              openai_request None "gpt-4o-mini" "k" (payload_of "some text" "");
              openai_request None "gpt-4o-mini" "k" (payload_of "some text" "")]
       [3 # 2; 5 # 2] 2)
  /\ fst (attempt reference_loads None recovers (Some "openai") None "k" "some text" ""
            (snd (outline reference_loads None recovers half (Some "openai") None "k"
                    "some text" "" fresh)))
     = Ok (JObj []).
Proof.
  split; [|reflexivity].
  apply (exhausted_retries_raise_retry_error reference_loads None recovers half
           (Some "openai") None "k" "some text" "" OpenAI fresh
           (openai_request None "gpt-4o-mini" "k" (payload_of "some text" ""))
           (TransportError "connection refused") (TransportError "connection refused")
           (TransportError "connection refused"));
    try reflexivity; split; discriminate.
Defined.

(** What reaches the caller after three failed attempts is not the
    exception of the last attempt but a [RetryError] around it. *)
Lemma last_exception_is_wrapped :
  fst (outline reference_loads None down half (Some "openai") None "k" "some text" ""
         fresh)
  = Raise (RetryError (TransportError "connection refused"))
  /\ (forall w, fst (attempt reference_loads None down (Some "openai") None "k"
                       "some text" "" w)
                = Raise (TransportError "connection refused"))
  /\ RetryError (TransportError "connection refused")
     <> TransportError "connection refused"
  /\ List.length
       (posts (snd (outline reference_loads None down half (Some "openai") None "k"
                      "some text" "" fresh))) = 3%nat
  /\ sleeps (snd (outline reference_loads None down half (Some "openai") None "k"
                    "some text" "" fresh)) = [3 # 2; 5 # 2].
Proof.
  split; [reflexivity|]. split; [reflexivity|]. split; [discriminate|].
  split; reflexivity.
Qed.

(** An exception that is no [Exception] is raised again at once. *)
Example cancellation_is_not_retried :
  outline reference_loads None (fun _ _ => Raise CancelledError) half
    (Some "anthropic") None "k" "some text" "" fresh
  = (Raise CancelledError,
     mkWorld [anthropic_request "claude-3-5-sonnet-latest" "k"
                (payload_of "some text" "")] [] 0).
Proof. reflexivity. Qed.

Lemma first_success_is_returned_witness :
  outline reference_loads None (answers 200 (Some "ok") (Some (chat_completion "{}")))
    half (Some "OpenAI") (Some "gpt-4o") "k" "some text" "" fresh
  = (Ok (JObj []),
     mkWorld [openai_request None "gpt-4o" "k" (payload_of "some text" "")] [] 0).
Proof.
  apply (first_success_is_returned reference_loads None
           (answers 200 (Some "ok") (Some (chat_completion "{}"))) half
           (Some "OpenAI") (Some "gpt-4o") "k" "some text" "" OpenAI fresh (JObj []));
    reflexivity.
Defined.

End RetryProps.

(** ** llm_providers.py: JSON extraction *)

Module ExtractProps.

Import Http Re Providers ExtractSpec.

(** *** Strings *)

Lemma append_assoc (a b c : string) : ((a ++ b) ++ c = a ++ (b ++ c))%string.
Proof. induction a as [|x a IH]; simpl; [reflexivity|now rewrite IH]. Qed.

Lemma append_empty_r (a : string) : (a ++ "")%string = a.
Proof. induction a as [|x a IH]; simpl; [reflexivity|now rewrite IH]. Qed.

Lemma length_append (a b : string) :
  String.length (a ++ b) = (String.length a + String.length b)%nat.
Proof. induction a as [|x a IH]; simpl; [reflexivity|now rewrite IH]. Qed.

Lemma substring_prefix (a b : string) :
  substring 0 (String.length (a ++ b) - String.length b) (a ++ b) = a.
Proof.
  rewrite length_append, Nat.add_sub.
  induction a as [|x a IH]; simpl.
  - now destruct b.
  - now rewrite IH.
Qed.

(** *** The matcher finds only matches *)

Lemma greedy_sound {R : Type} (test : ascii -> bool) (k : string -> option R) (s : string) :
  forall x, greedy test k s = Some x ->
            exists m rest, s = (m ++ rest)%string
                           /\ all_chars test m = true /\ k rest = Some x.
Proof.
  induction s as [|c s IH]; intros x H; simpl in H.
  - exists EmptyString, EmptyString. now repeat split.
  - destruct (test c) eqn:Ec.
    + destruct (greedy test k s) as [y|] eqn:Eg.
      * injection H as <-. destruct (IH y eq_refl) as [m [rest [-> [Hm Hk]]]].
        exists (String c m), rest. simpl. rewrite Ec, Hm. now repeat split.
      * exists EmptyString, (String c s). now repeat split.
    + exists EmptyString, (String c s). now repeat split.
Qed.

Lemma lazy_sound {R : Type} (test : ascii -> bool) (k : string -> option R) (s : string) :
  forall x, lazy_ test k s = Some x ->
            exists m rest, s = (m ++ rest)%string
                           /\ all_chars test m = true /\ k rest = Some x.
Proof.
  induction s as [|c s IH]; intros x H; simpl in H.
  - destruct (k EmptyString) eqn:Ek; [|discriminate].
    exists EmptyString, EmptyString. repeat split. congruence.
  - destruct (k (String c s)) as [y|] eqn:Ek.
    + exists EmptyString, (String c s). repeat split. congruence.
    + destruct (test c) eqn:Ec; [|discriminate].
      destruct (IH x H) as [m [rest [-> [Hm Hk]]]].
      exists (String c m), rest. simpl. rewrite Ec, Hm. now repeat split.
Qed.

Lemma run_sound {R : Type} (fl : Flags) (r : regex) :
  forall (s : string) (g : option string) (k : string -> option string -> option R) (x : R),
    run fl r s g k = Some x ->
    exists m rest g',
      s = (m ++ rest)%string /\ matches fl r m g g' /\ k rest g' = Some x.
Proof.
  induction r as [|a|a|a|r1 IH1 r2 IH2|r1 IH1]; intros s g k x H; simpl in H.
  - exists EmptyString, s, g. repeat split; [constructor|exact H].
  - destruct s as [|c s]; [discriminate|].
    destruct (atom_matches fl a c) eqn:Ea; [|discriminate].
    exists (String c EmptyString), s, g. repeat split; [now constructor|exact H].
  - apply greedy_sound in H. destruct H as [m [rest [-> [Hm Hk]]]].
    exists m, rest, g. repeat split; [now constructor|exact Hk].
  - apply lazy_sound in H. destruct H as [m [rest [-> [Hm Hk]]]].
    exists m, rest, g. repeat split; [now constructor|exact Hk].
  - apply IH1 in H. destruct H as [m1 [rest1 [g1 [-> [M1 H]]]]].
    apply IH2 in H. destruct H as [m2 [rest2 [g2 [-> [M2 H]]]]].
    exists (m1 ++ m2)%string, rest2, g2.
    repeat split; [now rewrite append_assoc|econstructor; eassumption|exact H].
  - apply IH1 in H. destruct H as [m [rest [g1 [-> [M H]]]]].
    rewrite substring_prefix in H.
    exists m, rest, (Some m). repeat split; [econstructor; eassumption|exact H].
Qed.

(** A search result is group 1 of a match that stands somewhere in the text. *)
Lemma search_sound (fl : Flags) (r : regex) (t : string) :
  forall g, search fl r t = Some g ->
            exists pre m post, t = (pre ++ m ++ post)%string /\ matches fl r m None g.
Proof.
  induction t as [|c t IH]; intros g H; simpl in H.
  - destruct (match_here fl r EmptyString) as [g0|] eqn:E; [|discriminate].
    injection H as <-. unfold match_here in E. apply run_sound in E.
    destruct E as [m [rest [g' [Hs [M [= <-]]]]]].
    exists EmptyString, m, rest. now split.
  - destruct (match_here fl r (String c t)) as [g0|] eqn:E.
    + injection H as <-. unfold match_here in E. apply run_sound in E.
      destruct E as [m [rest [g' [Hs [M [= <-]]]]]].
      exists EmptyString, m, rest. now split.
    + destruct (IH g H) as [pre [m [post [-> M]]]].
      exists (String c pre), m, post. now split.
Qed.


(** *** The brace pattern *)

Lemma greedy_last {R : Type} (test : ascii -> bool) (c : ascii) (f : string -> R)
  (s : string) :
  (forall d, test d = true) ->
  greedy test
    (fun s2 => match s2 with
               | String d s3 => if Ascii.eqb c d then Some (f s3) else None
               | EmptyString => None
               end) s
  = option_map f (after_last c s).
Proof.
  intros Hall. induction s as [|d s IH]; simpl; [reflexivity|].
  rewrite Hall, IH.
  destruct (after_last c s); simpl; [reflexivity|].
  now destruct (Ascii.eqb c d).
Qed.

Lemma match_here_brace (c : ascii) (rest : string) :
  match_here brace_flags brace_re (String c rest)
  = if Ascii.eqb "{" c
    then option_map
           (fun tail =>
              Some (substring 0 (String.length (String c rest) - String.length tail)
                      (String c rest)))
           (after_last "}" rest)
    else None.
Proof.
  unfold match_here, brace_re. cbn [run atom_matches IGNORECASE brace_flags].
  destruct (Ascii.eqb "{" c); [|reflexivity].
  apply (greedy_last _ "}"
           (fun tail =>
              Some (substring 0 (String.length (String c rest) - String.length tail)
                      (String c rest)))).
  reflexivity.
Qed.

Lemma after_last_none_tail (c d : ascii) (s : string) :
  after_last c (String d s) = None -> after_last c s = None.
Proof. simpl. now destruct (after_last c s). Qed.

(** Without a closing brace there is no match anywhere. *)
Lemma search_brace_none (s : string) :
  after_last "}" s = None -> search brace_flags brace_re s = None.
Proof.
  induction s as [|c s IH]; intros H; [reflexivity|].
  cbn [search]. rewrite match_here_brace.
  pose proof (after_last_none_tail _ _ _ H) as H'.
  rewrite H', IH by exact H'. now destruct (Ascii.eqb "{" c).
Qed.

(** The brace pattern finds the span from the first opening brace to the
    last closing brace. *)
Lemma search_brace (t : string) :
  search brace_flags brace_re t = option_map Some (brace_span t).
Proof.
  induction t as [|c t IH]; [reflexivity|].
  cbn [search]. rewrite match_here_brace. unfold brace_span. cbn [from_first].
  destruct (Ascii.eqb "{" c) eqn:E.
  - destruct (after_last "}" t) eqn:Ea; [reflexivity|].
    cbn [option_map]. now rewrite search_brace_none.
  - rewrite IH. reflexivity.
Qed.

Lemma from_first_spec (c : ascii) (s u : string) :
  from_first c s = Some u ->
  exists pre rest, s = (pre ++ String c rest)%string /\ u = String c rest
                   /\ has c pre = false.
Proof.
  induction s as [|d s IH]; simpl; [discriminate|].
  destruct (Ascii.eqb c d) eqn:E.
  - intros [= <-]. apply Ascii.eqb_eq in E. subst d.
    exists EmptyString, s. now repeat split.
  - intros H. destruct (IH H) as [pre [rest [-> [-> Hp]]]].
    exists (String d pre), rest. simpl. rewrite E, Hp. now repeat split.
Qed.

Lemma after_last_spec (c : ascii) (s tail : string) :
  after_last c s = Some tail ->
  exists mid, s = (mid ++ String c tail)%string /\ has c tail = false.
Proof.
  revert tail. induction s as [|d s IH]; intros tail; simpl; [discriminate|].
  destruct (after_last c s) as [r|] eqn:E.
  - intros [= <-]. destruct (IH r eq_refl) as [mid [-> Ht]].
    exists (String d mid). now split.
  - destruct (Ascii.eqb c d) eqn:Ec; [|discriminate].
    intros [= <-]. apply Ascii.eqb_eq in Ec. subst d.
    exists EmptyString. split; [reflexivity|].
    clear IH. induction s as [|e s IHs]; [reflexivity|].
    simpl in E. destruct (after_last c s); [discriminate|].
    destruct (Ascii.eqb c e) eqn:Ee; [discriminate|].
    simpl. rewrite Ee. now apply IHs.
Qed.

Lemma from_first_app (c : ascii) (pre rest : string) :
  has c pre = false ->
  from_first c (pre ++ String c rest) = Some (String c rest).
Proof.
  induction pre as [|d pre IH]; simpl.
  - now rewrite Ascii.eqb_refl.
  - intros H. apply orb_false_elim in H. destruct H as [-> H]. now apply IH.
Qed.

Lemma after_last_absent (c : ascii) (s : string) :
  has c s = false -> after_last c s = None.
Proof.
  induction s as [|d s IH]; simpl; [reflexivity|].
  intros H. apply orb_false_elim in H. destruct H as [-> H]. now rewrite IH.
Qed.

Lemma after_last_app (c : ascii) (mid tail : string) :
  has c tail = false ->
  after_last c (mid ++ String c tail) = Some tail.
Proof.
  intros H. induction mid as [|d mid IH]; simpl.
  - now rewrite (after_last_absent c tail H), Ascii.eqb_refl.
  - now rewrite IH.
Qed.

Lemma span_substring (o c : ascii) (mid tail : string) :
  substring 0 (String.length (String o (mid ++ String c tail)) - String.length tail)
    (String o (mid ++ String c tail))
  = String o (mid ++ String c "").
Proof.
  replace (String o (mid ++ String c tail))
    with (String o (mid ++ String c "") ++ tail)%string
    by (simpl; now rewrite append_assoc).
  apply substring_prefix.
Qed.

(** [brace_span] is the span between the first opening and the last
    closing brace: before it there is no opening brace, after it no
    closing one. *)
Lemma brace_span_spec (t g : string) :
  brace_span t = Some g <->
  exists pre mid post,
    t = (pre ++ "{" ++ mid ++ "}" ++ post)%string
    /\ g = ("{" ++ mid ++ "}")%string
    /\ has "{" pre = false /\ has "}" post = false.
Proof.
  unfold brace_span. split.
  - destruct (from_first "{" t) as [[|o rest]|] eqn:Ef; try discriminate.
    destruct (after_last "}" rest) as [tail|] eqn:Ea; [|discriminate].
    intros [= <-].
    apply from_first_spec in Ef. destruct Ef as [pre [rest' [-> [[= -> ->] Hp]]]].
    apply after_last_spec in Ea. destruct Ea as [mid [-> Ht]].
    exists pre, mid, tail. repeat split; try assumption.
    apply span_substring.
  - intros [pre [mid [post [-> [-> [Hp Ht]]]]]].
    simpl. rewrite (from_first_app "{" pre _ Hp).
    rewrite (after_last_app "}" mid post Ht).
    f_equal. apply span_substring.
Qed.


(** The brace pattern matches exactly when a closing brace follows the
    first opening brace, and group 1 is then the span from that opening
    brace to the last closing brace of the text. *)
Theorem brace_pattern_spans_first_to_last (t g : string) :
  search brace_flags brace_re t = Some (Some g) <->
  exists pre mid post,
    t = (pre ++ "{" ++ mid ++ "}" ++ post)%string
    /\ g = ("{" ++ mid ++ "}")%string
    /\ has "{" pre = false /\ has "}" post = false.
Proof.
  rewrite search_brace, <- brace_span_spec.
  destruct (brace_span t) as [g'|]; simpl; split; intros H;
    try discriminate; now injection H as ->.
Qed.

(** *** The fence pattern *)

Ltac invert_matches :=
  repeat match goal with
    | H : matches _ (Cat _ _) _ _ _ |- _ => inversion H; subst; clear H
    | H : matches _ (One _) _ _ _ |- _ => inversion H; subst; clear H
    | H : matches _ Eps _ _ _ |- _ => inversion H; subst; clear H
    | H : matches _ (Star _) _ _ _ |- _ => inversion H; subst; clear H
    | H : matches _ (StarLazy _) _ _ _ |- _ => inversion H; subst; clear H
    | H : matches _ (Group _) _ _ _ |- _ => inversion H; subst; clear H
    end.

(** Only the backquote and the braces match themselves when case is ignored. *)
Lemma ignorecase_backquote (c : ascii) :
  atom_matches fence_flags (Chr "`") c = true -> c = "`"%char.
Proof.
  destruct c as [[] [] [] [] [] [] [] []]; vm_compute; intros H;
    try discriminate H; reflexivity.
Qed.

Lemma ignorecase_open (c : ascii) :
  atom_matches fence_flags (Chr "{") c = true -> c = "{"%char.
Proof.
  destruct c as [[] [] [] [] [] [] [] []]; vm_compute; intros H;
    try discriminate H; reflexivity.
Qed.

Lemma ignorecase_close (c : ascii) :
  atom_matches fence_flags (Chr "}") c = true -> c = "}"%char.
Proof.
  destruct c as [[] [] [] [] [] [] [] []]; vm_compute; intros H;
    try discriminate H; reflexivity.
Qed.

Lemma ignorecase_letter (x c : ascii) :
  atom_matches fence_flags (Chr x) c = true -> lower_char c = lower_char x.
Proof.
  simpl. intros H. apply Ascii.eqb_eq in H. now symmetry.
Qed.

(** A match of the fence pattern is a fence: three backquotes, the word
    json in any case, white space, a text in braces, white space, three
    backquotes; group 1 is the text in braces. *)
Lemma search_fence_shape (t : string) (g : option string) :
  search fence_flags fence_re t = Some g ->
  exists pre word ws1 body ws2 post,
    t = (pre ++ "```" ++ word ++ ws1 ++ "{" ++ body ++ "}" ++ ws2 ++ "```" ++ post)%string
    /\ lower word = "json"
    /\ all_chars isspace ws1 = true /\ all_chars isspace ws2 = true
    /\ g = Some ("{" ++ body ++ "}")%string.
Proof.
  intros H. apply search_sound in H. destruct H as [pre [m [post [-> M]]]].
  unfold fence_re in M. cbn [lit] in M. invert_matches.
  repeat match goal with
         | H : atom_matches fence_flags (Chr "`") _ = true |- _ =>
             apply ignorecase_backquote in H; subst
         | H : atom_matches fence_flags (Chr "{") _ = true |- _ =>
             apply ignorecase_open in H; subst
         | H : atom_matches fence_flags (Chr "}") _ = true |- _ =>
             apply ignorecase_close in H; subst
         | H : atom_matches fence_flags (Chr _) _ = true |- _ =>
             apply ignorecase_letter in H
         end.
  match goal with
  | Hj : lower_char ?cj = lower_char "j", Hs : lower_char ?cs = lower_char "s",
    Ho : lower_char ?co = lower_char "o", Hn : lower_char ?cn = lower_char "n",
    H1 : all_chars _ ?w1 = true, H2 : all_chars _ ?w2 = true,
    H3 : all_chars (atom_matches fence_flags Dot) ?b = true
    |- context [(?w1 ++ (_ ++ ?b ++ _) ++ ?w2 ++ _)%string] =>
      exists pre, (String cj (String cs (String co (String cn EmptyString)))),
        w1, b, w2, post;
      split; [|split; [|split; [|split]]];
      [ repeat (progress (rewrite ?append_assoc; simpl)); reflexivity
      | simpl; now rewrite Hj, Hs, Ho, Hn
      | exact H1
      | exact H2
      | reflexivity ]
  end.
Qed.


(** *** Extraction *)

Import SampleNet.

Lemma extract_cases (json_loads : string -> result exn value) (t : string) :
  t <> "" ->
  _extract_json_maybe json_loads (JStr t)
  = match search fence_flags fence_re t with
    | Some (Some g) => json_loads g
    | Some None => Raise TypeError
    | None =>
        match brace_span t with
        | Some g => json_loads g
        | None => json_loads t
        end
    end.
Proof.
  intros Hne. unfold _extract_json_maybe.
  apply String.eqb_neq in Hne. rewrite Hne.
  destruct (search fence_flags fence_re t) as [[g|]|]; try reflexivity.
  rewrite search_brace. now destruct (brace_span t).
Qed.

(** C3, as amended. Extraction looks, in order, for (1) a fence labelled
    json around a text in braces, (2) the span from the first opening brace
    to the last closing brace, and takes (3) the whole string when neither
    is found. The first strategy whose pattern matches decides: its text is
    parsed, and what the parse returns or raises is the result; a later
    strategy is tried only when the pattern of the earlier ones does not
    match. So a value that extraction returns is the first successful parse
    of the three candidates. For the boundary example the result is the
    full outer object. *)
Theorem extraction_takes_first_matching_pattern :
  (forall (json_loads : string -> result exn value) (t : string),
      t <> "" ->
      (forall g, search fence_flags fence_re t = Some (Some g) ->
                 _extract_json_maybe json_loads (JStr t) = json_loads g)
      /\ (forall g, search fence_flags fence_re t = None -> brace_span t = Some g ->
                    _extract_json_maybe json_loads (JStr t) = json_loads g)
      /\ (search fence_flags fence_re t = None -> brace_span t = None ->
          _extract_json_maybe json_loads (JStr t) = json_loads t)
      /\ (forall g, search fence_flags fence_re t = Some g ->
                    exists pre word ws1 body ws2 post,
                      t = (pre ++ "```" ++ word ++ ws1 ++ "{" ++ body ++ "}"
                           ++ ws2 ++ "```" ++ post)%string
                      /\ lower word = "json"
                      /\ all_chars isspace ws1 = true /\ all_chars isspace ws2 = true
                      /\ g = Some ("{" ++ body ++ "}")%string)
      /\ (forall g, brace_span t = Some g <->
                    exists pre mid post,
                      t = (pre ++ "{" ++ mid ++ "}" ++ post)%string
                      /\ g = ("{" ++ mid ++ "}")%string
                      /\ has "{" pre = false /\ has "}" post = false)
      /\ (forall v, _extract_json_maybe json_loads (JStr t) = Ok v ->
                    first_successful_parse json_loads (candidates t) = Ok v))
  /\ (forall json_loads,
         _extract_json_maybe json_loads (JStr "")
         = Raise (ValueError "Empty response from model"))
  /\ (forall json_loads,
         _extract_json_maybe json_loads (JStr answer_text) = json_loads answer_span)
  /\ _extract_json_maybe reference_loads (JStr answer_text)
     = Ok (JObj [("a", JObj [("slides", JArr [])])]).
Proof.
  split; [|split; [|split]]; try reflexivity.
  intros json_loads t Hne. pose proof (extract_cases json_loads t Hne) as E.
  split; [|split; [|split; [|split; [|split]]]].
  - intros g Hf. now rewrite E, Hf.
  - intros g Hf Hb. now rewrite E, Hf, Hb.
  - intros Hf Hb. now rewrite E, Hf, Hb.
  - intros g. apply search_fence_shape.
  - intros g. apply brace_span_spec.
  - intros v. rewrite E. unfold candidates.
    destruct (search fence_flags fence_re t) as [[g|]|] eqn:Hf.
    + simpl. now intros ->.
    + discriminate.
    + destruct (brace_span t) as [g|]; simpl; now intros ->.
Qed.

Lemma extraction_takes_first_matching_pattern_witness :
  search fence_flags fence_re answer_text = None
  /\ brace_span answer_text = Some answer_span
  /\ _extract_json_maybe reference_loads (JStr answer_text)
     = reference_loads answer_span
  /\ reference_loads answer_span = Ok (JObj [("a", JObj [("slides", JArr [])])]).
Proof.
  split; [reflexivity|]. split; [reflexivity|]. split; [|reflexivity].
  apply (proj1 (proj2 (proj1 extraction_takes_first_matching_pattern
                         reference_loads answer_text ltac:(discriminate)))
           answer_span); reflexivity.
Defined.

(** "The first successful parse wins" fails on the code. In the first
    text the fence pattern matches inside a JSON string; its text does not
    parse, the brace span (the whole text) does, and extraction raises. In
    the second the brace span does not parse, the whole text does, and
    extraction raises. *)
Lemma first_match_decides_not_first_parse :
  (search fence_flags fence_re fence_in_string = Some (Some "{x}")
   /\ Json.loads "{x}" = Raise Malformed
   /\ reference_loads "{x}" = Raise JSONDecodeError
   /\ brace_span fence_in_string = Some fence_in_string
   /\ reference_loads fence_in_string = Ok (JObj [("a", JStr "```json {x} ```")])
   /\ first_successful_parse reference_loads (candidates fence_in_string)
      = Ok (JObj [("a", JStr "```json {x} ```")])
   /\ _extract_json_maybe reference_loads (JStr fence_in_string)
      = Raise JSONDecodeError)
  /\ (search fence_flags fence_re two_objects = None
      /\ brace_span two_objects = Some two_objects_span
      /\ Json.loads two_objects_span = Raise Malformed
      /\ reference_loads two_objects_span = Raise JSONDecodeError
      /\ reference_loads two_objects
         = Ok (JArr [JObj [("a", JInt 1)]; JObj [("b", JInt 2)]])
      /\ first_successful_parse reference_loads (candidates two_objects)
         = Ok (JArr [JObj [("a", JInt 1)]; JObj [("b", JInt 2)]])
      /\ _extract_json_maybe reference_loads (JStr two_objects)
         = Raise JSONDecodeError).
Proof. repeat split; reflexivity. Qed.

(** A fenced block wins over braces in the surrounding prose. *)
Example fence_wins_over_prose :
  _extract_json_maybe reference_loads
    (JStr ("Sure {see below}: ```JSON" ++ nl ++ "{" ++ quoted "slides" ++ ":[]}" ++ nl
           ++ "``` {done}"))
  = Ok (JObj [("slides", JArr [])]).
Proof. reflexivity. Qed.

(** Text without braces or fence goes to the parser as a whole. *)
Example plain_text_is_parsed_whole :
  _extract_json_maybe reference_loads (JStr "no json here") = Raise JSONDecodeError
  /\ _extract_json_maybe reference_loads (JStr "} 12 {") = Raise JSONDecodeError
  /\ _extract_json_maybe reference_loads (JStr " 12 ") = Ok (JInt 12).
Proof. repeat split; reflexivity. Qed.

End ExtractProps.

(** ** llm_providers.py: requests, answers and attempts *)

Module AdapterProps.

Import Http Re Providers ProviderSpec ExtractSpec AdapterSpec ProviderProps RetryProps
  ExtractProps.

(** *** The URL of the OpenAI-compatible request *)

Lemma substring_all (b : string) : substring 0 (String.length b) b = b.
Proof. induction b as [|c b IH]; simpl; [reflexivity|now rewrite IH]. Qed.

Lemma substring_suffix (a b : string) :
  substring (String.length a) (String.length b) (a ++ b) = b.
Proof. induction a as [|c a IH]; simpl; [apply substring_all|exact IH]. Qed.

Lemma endswith_app (p a : string) : endswith p (a ++ p) = true.
Proof.
  unfold endswith. cbv zeta. rewrite length_append, Nat.add_sub, substring_suffix.
  rewrite String.eqb_refl, andb_true_r. apply Nat.leb_le. lia.
Qed.

(** [s.rstrip(ch)] takes a run of [ch] off the end, and all of it. *)
Lemma rstrip_char_split (ch : ascii) (s : string) :
  exists run, s = (rstrip_char ch s ++ run)%string
              /\ all_chars (Ascii.eqb ch) run = true.
Proof.
  induction s as [|c s [run [Hs Hrun]]]; simpl.
  - now exists EmptyString.
  - destruct (rstrip_char ch s) as [|d r] eqn:E.
    + destruct (Ascii.eqb c ch) eqn:Ec.
      * apply Ascii.eqb_eq in Ec. subst c. exists (String ch run).
        split; [simpl in *; now rewrite <- Hs|].
        simpl. now rewrite Ascii.eqb_refl, Hrun.
      * exists run. split; [simpl in *; now rewrite <- Hs|exact Hrun].
    + exists run. split; [simpl in *; now rewrite <- Hs|exact Hrun].
Qed.

Lemma rstrip_char_end (ch : ascii) (s x : string) :
  rstrip_char ch s <> (x ++ String ch "")%string.
Proof.
  revert x. induction s as [|c s IH]; intros x; simpl.
  - destruct x; discriminate.
  - destruct (rstrip_char ch s) as [|d r] eqn:E.
    + destruct (Ascii.eqb c ch) eqn:Ec.
      * destruct x; discriminate.
      * destruct x as [|y x]; simpl.
        -- intros [= ->]. now rewrite Ascii.eqb_refl in Ec.
        -- destruct x; discriminate.
    + destruct x as [|y x]; simpl; [discriminate|].
      intros [= _ H]. exact (IH x H).
Qed.

(** Whatever [OPENAI_BASE] holds, the URL of the OpenAI-compatible request
    ends with /chat/completions. A base that ends so already is used as it
    is; any other base loses its trailing slashes, all of them, and gets
    /chat/completions appended. *)
Theorem openai_url_ends_with_chat_completions (OPENAI_BASE : option string)
  (model api_key : string) (p : Payload) :
  endswith "/chat/completions" (url (openai_request OPENAI_BASE model api_key p)) = true
  /\ (endswith "/chat/completions" (base_of OPENAI_BASE) = true ->
      url (openai_request OPENAI_BASE model api_key p) = base_of OPENAI_BASE)
  /\ (endswith "/chat/completions" (base_of OPENAI_BASE) = false ->
      exists stem slashes,
        base_of OPENAI_BASE = (stem ++ slashes)%string
        /\ all_chars (Ascii.eqb "/") slashes = true
        /\ (forall x, stem <> (x ++ "/")%string)
        /\ url (openai_request OPENAI_BASE model api_key p)
           = (stem ++ "/chat/completions")%string).
Proof.
  cbn [url openai_request]. unfold openai_url. fold (base_of OPENAI_BASE).
  cbv zeta.
  destruct (endswith "/chat/completions" (base_of OPENAI_BASE)) eqn:E.
  - split; [exact E|]. split; [reflexivity|discriminate].
  - split; [apply endswith_app|]. split; [discriminate|]. intros _.
    destruct (rstrip_char_split "/" (base_of OPENAI_BASE)) as [run [Hs Hrun]].
    exists (rstrip_char "/" (base_of OPENAI_BASE)), run.
    split; [exact Hs|]. split; [exact Hrun|]. split; [|reflexivity].
    intros x. apply rstrip_char_end.
Qed.

(** *** The attempts of a call *)

Section Attempts.

Variable json_loads : string -> result exn value.
Variable OPENAI_BASE : option string.
Variable transport : nat -> Request -> result exn Response.
Variable random : nat -> Q.

Local Abbreviation attempt := (ProviderSpec.attempt json_loads OPENAI_BASE transport).
Local Abbreviation outline := (ProviderSpec.outline json_loads OPENAI_BASE transport random).
Local Abbreviation attempt_posts := (AdapterSpec.attempt_posts OPENAI_BASE).
Local Abbreviation before_attempt := (AdapterSpec.before_attempt random).
Local Abbreviation after_attempt := (AdapterSpec.after_attempt random).

(** An attempt adds its requests to the world, and nothing else. *)
Lemma attempt_world (provider model : option string)
  (api_key raw_text guidance : string) (w : World) :
  snd (attempt provider model api_key raw_text guidance w)
  = mkWorld (posts w ++ attempt_posts provider model api_key raw_text guidance)
      (sleeps w) (draws w).
Proof.
  rewrite attempt_dispatch. unfold AdapterSpec.attempt_posts.
  destruct (strategy_of _).
  - apply call_posts_once.
  - simpl. rewrite app_nil_r. now destruct w.
Qed.

Lemma before_first (reqs : list Request) (w : World) : before_attempt reqs w 1 = w.
Proof.
  unfold AdapterSpec.before_attempt. simpl.
  rewrite !app_nil_r, Nat.add_0_r. now destruct w.
Qed.

(** The course of a call: it ends with some attempt [k] of at most three;
    the attempts before it raised an [Exception]; and it ends with the
    value that attempt [k] returned, with what attempt [k] raised when
    that is no [Exception], or, after the third attempt, with a
    [RetryError] around what that attempt raised. *)
Lemma outline_trace (provider model : option string)
  (api_key raw_text guidance : string) (w : World) :
  exists k,
    (1 <= k <= 3)%nat
    /\ snd (outline provider model api_key raw_text guidance w)
       = after_attempt (attempt_posts provider model api_key raw_text guidance) w k
    /\ (forall j, (1 <= j < k)%nat ->
          exists e,
            fst (attempt provider model api_key raw_text guidance
                   (before_attempt
                      (attempt_posts provider model api_key raw_text guidance) w j))
            = Raise e
            /\ is_Exception e = true)
    /\ match fst (outline provider model api_key raw_text guidance w) with
       | Ok v =>
           fst (attempt provider model api_key raw_text guidance
                  (before_attempt
                     (attempt_posts provider model api_key raw_text guidance) w k))
           = Ok v
       | Raise e =>
           (is_Exception e = false
            /\ fst (attempt provider model api_key raw_text guidance
                      (before_attempt
                         (attempt_posts provider model api_key raw_text guidance) w k))
               = Raise e)
           \/ (k = 3%nat
               /\ exists last,
                    e = RetryError last /\ is_Exception last = true
                    /\ fst (attempt provider model api_key raw_text guidance
                              (before_attempt
                                 (attempt_posts provider model api_key raw_text guidance)
                                 w 3))
                       = Raise last)
       end.
Proof.
  set (fn := attempt provider model api_key raw_text guidance).
  set (reqs := attempt_posts provider model api_key raw_text guidance).
  assert (forall w0, snd (fn w0) = mkWorld (posts w0 ++ reqs) (sleeps w0) (draws w0))
    as Hworld by (intros w0; apply attempt_world).
  unfold ProviderSpec.outline, generate_slide_outline, Tenacity.retry.
  change (generate_slide_outline_body json_loads OPENAI_BASE transport
            provider model api_key raw_text guidance) with fn.
  change (3 - 1)%nat with 2%nat. cbn [Tenacity.retrying].
  pose proof (before_first reqs w) as B1.
  destruct (fn w) as [r1 w1] eqn:E1.
  assert (w1 = after_attempt reqs w 1) as ->.
  { pose proof (Hworld w) as H. rewrite E1 in H. simpl in H. rewrite H.
    unfold AdapterSpec.after_attempt. simpl. now rewrite !app_nil_r, Nat.add_0_r. }
  assert (fst (fn (before_attempt reqs w 1)) = r1) as F1 by (now rewrite B1, E1).
  destruct r1 as [v|e1].
  { exists 1%nat. split; [lia|]. split; [reflexivity|]. split; [intros; lia|exact F1]. }
  destruct (is_Exception e1) eqn:X1; cbn [negb].
  2:{ exists 1%nat. split; [lia|]. split; [reflexivity|]. split; [intros; lia|].
      left. now split. }
  assert (sleep (Tenacity.wait_exponential_jitter 1 8 2 1
                   (fst (uniform random 1 (after_attempt reqs w 1))))
            (snd (uniform random 1 (after_attempt reqs w 1)))
          = before_attempt reqs w 2) as B2.
  { unfold AdapterSpec.before_attempt, AdapterSpec.after_attempt, uniform, sleep,
      first_wait. simpl. now rewrite !app_nil_r, Nat.add_0_r, Nat.add_1_r. }
  destruct (uniform random 1 (after_attempt reqs w 1)) as [u1 w1'] eqn:U1.
  simpl in B2. rewrite B2.
  destruct (fn (before_attempt reqs w 2)) as [r2 w2] eqn:E2.
  assert (w2 = after_attempt reqs w 2) as ->.
  { pose proof (Hworld (before_attempt reqs w 2)) as H. rewrite E2 in H. simpl in H.
    rewrite H. unfold AdapterSpec.after_attempt. simpl.
    now rewrite !app_nil_r, <- !app_assoc. }
  assert (forall j, (1 <= j < 2)%nat ->
            exists e, fst (fn (before_attempt reqs w j)) = Raise e
                      /\ is_Exception e = true) as P2.
  { intros j Hj. assert (j = 1%nat) as -> by lia. now exists e1. }
  destruct r2 as [v|e2].
  { exists 2%nat. split; [lia|]. split; [reflexivity|]. split; [exact P2|].
    cbn [fst]. now rewrite E2. }
  destruct (is_Exception e2) eqn:X2; cbn [negb].
  2:{ exists 2%nat. split; [lia|]. split; [reflexivity|]. split; [exact P2|].
      left. cbn [fst]. now rewrite E2. }
  assert (sleep (Tenacity.wait_exponential_jitter 1 8 2 2
                   (fst (uniform random 1 (after_attempt reqs w 2))))
            (snd (uniform random 1 (after_attempt reqs w 2)))
          = before_attempt reqs w 3) as B3.
  { unfold AdapterSpec.before_attempt, AdapterSpec.after_attempt, uniform, sleep,
      first_wait, second_wait. simpl.
    rewrite !app_nil_r, <- !app_assoc, Nat.add_1_r. simpl.
    now replace (draws w + 2)%nat with (S (S (draws w))) by lia. }
  destruct (uniform random 1 (after_attempt reqs w 2)) as [u2 w2'] eqn:U2.
  simpl in B3. rewrite B3.
  destruct (fn (before_attempt reqs w 3)) as [r3 w3] eqn:E3.
  assert (w3 = after_attempt reqs w 3) as ->.
  { pose proof (Hworld (before_attempt reqs w 3)) as H. rewrite E3 in H. simpl in H.
    rewrite H. unfold AdapterSpec.after_attempt. simpl.
    now rewrite !app_nil_r, <- !app_assoc. }
  assert (forall j, (1 <= j < 3)%nat ->
            exists e, fst (fn (before_attempt reqs w j)) = Raise e
                      /\ is_Exception e = true) as P3.
  { intros j Hj. assert (j = 1 \/ j = 2)%nat as [-> | ->] by lia.
    - now exists e1.
    - exists e2. now rewrite E2. }
  exists 3%nat. split; [lia|].
  destruct r3 as [v|e3].
  { split; [reflexivity|]. split; [exact P3|]. cbn [fst]. now rewrite E3. }
  destruct (is_Exception e3) eqn:X3; cbn [negb].
  - split; [reflexivity|]. split; [exact P3|]. right. split; [reflexivity|].
    exists e3. now repeat split.
  - split; [reflexivity|]. split; [exact P3|]. left. cbn [fst]. rewrite E3.
    now split.
Qed.

Lemma attempt_posts_length (provider model : option string)
  (api_key raw_text guidance : string) :
  (List.length (attempt_posts provider model api_key raw_text guidance) <= 1)%nat.
Proof. unfold AdapterSpec.attempt_posts. destruct (strategy_of _); simpl; lia. Qed.

(** With jitter draws in the unit interval, a call makes at most three
    attempts whatever happens. Each attempt issues the same request (none
    for an unsupported provider), so at most three POSTs are issued;
    between the attempts the call sleeps, at most twice, each time between
    one and three seconds. *)
Theorem outline_makes_at_most_three_attempts (provider model : option string)
  (api_key raw_text guidance : string) (w : World) :
  (forall n, 0 <= random n /\ random n <= 1) ->
  exists attempts waits,
    (1 <= attempts <= 3)%nat
    /\ posts (snd (outline provider model api_key raw_text guidance w))
       = posts w
         ++ List.concat
              (repeat (attempt_posts provider model api_key raw_text guidance) attempts)
    /\ (List.length (posts (snd (outline provider model api_key raw_text guidance w)))
        <= List.length (posts w) + 3)%nat
    /\ sleeps (snd (outline provider model api_key raw_text guidance w))
       = sleeps w ++ waits
    /\ List.length waits = (attempts - 1)%nat
    /\ Forall (fun q => 1 <= q /\ q <= 3) waits.
Proof.
  intros Hrand.
  destruct (outline_trace provider model api_key raw_text guidance w)
    as [k [Hk [Hw _]]].
  pose proof (attempt_posts_length provider model api_key raw_text guidance) as Hl.
  set (reqs := attempt_posts provider model api_key raw_text guidance) in *.
  destruct (Hrand (draws w)) as [L1 U1].
  destruct (Hrand (S (draws w))) as [L2 U2].
  pose proof (wait_first _ L1 U1) as W1.
  pose proof (wait_second _ L2 U2) as W2.
  fold (first_wait random w) in W1. fold (second_wait random w) in W2.
  exists k, (firstn (k - 1) [first_wait random w; second_wait random w]).
  rewrite Hw. unfold AdapterSpec.after_attempt. cbn [posts sleeps].
  split; [exact Hk|]. split; [reflexivity|].
  assert (k = 1 \/ k = 2 \/ k = 3)%nat as [-> | [-> | ->]] by lia;
    (split; [rewrite length_app; simpl; rewrite ?length_app; simpl; lia|]);
    (split; [reflexivity|]); (split; [reflexivity|]); simpl;
    repeat constructor; rewrite ?W1, ?W2; lra.
Qed.

(** What a call raises is never the bare exception of an attempt. It is a
    cancellation, raised by an attempt and passed on at once; or it is a
    [RetryError] around the [Exception] that the third attempt raised,
    after three attempts and two sleeps. *)
Theorem outline_raises_retry_error_or_cancellation (provider model : option string)
  (api_key raw_text guidance : string) (w : World) (e : exn) :
  fst (outline provider model api_key raw_text guidance w) = Raise e ->
  e = CancelledError
  \/ exists last,
       e = RetryError last /\ is_Exception last = true
       /\ fst (attempt provider model api_key raw_text guidance
                 (before_attempt
                    (attempt_posts provider model api_key raw_text guidance) w 3))
          = Raise last
       /\ snd (outline provider model api_key raw_text guidance w)
          = mkWorld
              (posts w
               ++ attempt_posts provider model api_key raw_text guidance
               ++ attempt_posts provider model api_key raw_text guidance
               ++ attempt_posts provider model api_key raw_text guidance)
              (sleeps w ++ [first_wait random w; second_wait random w])
              (draws w + 2).
Proof.
  intros H.
  destruct (outline_trace provider model api_key raw_text guidance w)
    as [k [Hk [Hw [_ Hr]]]].
  rewrite H in Hr. destruct Hr as [[He _] | [-> [last [-> [Hl Ha]]]]].
  - left. destruct e; try discriminate He. reflexivity.
  - right. exists last. split; [reflexivity|]. split; [exact Hl|]. split; [exact Ha|].
    rewrite Hw. unfold AdapterSpec.after_attempt. simpl. now rewrite app_nil_r.
Qed.

(** A call that returns a value returns what its first returning attempt
    returned: that attempt is one of the three, and every attempt before
    it raised an [Exception]. *)
Theorem outline_returns_the_first_value (provider model : option string)
  (api_key raw_text guidance : string) (w : World) (v : value) :
  fst (outline provider model api_key raw_text guidance w) = Ok v ->
  exists k,
    (1 <= k <= 3)%nat
    /\ fst (attempt provider model api_key raw_text guidance
              (before_attempt
                 (attempt_posts provider model api_key raw_text guidance) w k))
       = Ok v
    /\ (forall j, (1 <= j < k)%nat ->
          exists e,
            fst (attempt provider model api_key raw_text guidance
                   (before_attempt
                      (attempt_posts provider model api_key raw_text guidance) w j))
            = Raise e
            /\ is_Exception e = true)
    /\ snd (outline provider model api_key raw_text guidance w)
       = after_attempt (attempt_posts provider model api_key raw_text guidance) w k.
Proof.
  intros H.
  destruct (outline_trace provider model api_key raw_text guidance w)
    as [k [Hk [Hw [Hj Hr]]]].
  rewrite H in Hr. exists k. now repeat split.
Qed.

(** *** What is sent of the input *)

Lemma take_app (n : N) (a b : string) :
  (n <= N.of_nat (String.length a))%N -> take n (a ++ b) = take n a.
Proof.
  revert n. induction a as [|c a IH]; intros n H; simpl in *.
  - assert (n = 0%N) as -> by lia. now destruct b.
  - destruct (n =? 0)%N eqn:E; [reflexivity|].
    apply N.eqb_neq in E. rewrite IH; [reflexivity|lia].
Qed.

(** Of the input text only the first 60000 characters, and of the
    guidance only the first 200, have a part in a call. Each cut stands on
    its own: what follows the first 60000 characters of the text changes
    neither the requests nor the result, whatever the guidance is and
    however short; likewise what follows the first 200 characters of the
    guidance, whatever the text is; and so for both at once. *)
Theorem outline_reads_a_prefix_of_the_input (provider model : option string)
  (api_key raw_text more_text guidance more_guidance : string) (w : World) :
  ((60000 <= N.of_nat (String.length raw_text))%N ->
   outline provider model api_key (raw_text ++ more_text) guidance w
   = outline provider model api_key raw_text guidance w)
  /\ ((200 <= N.of_nat (String.length guidance))%N ->
      outline provider model api_key raw_text (guidance ++ more_guidance) w
      = outline provider model api_key raw_text guidance w)
  /\ ((60000 <= N.of_nat (String.length raw_text))%N ->
      (200 <= N.of_nat (String.length guidance))%N ->
      outline provider model api_key (raw_text ++ more_text) (guidance ++ more_guidance) w
      = outline provider model api_key raw_text guidance w).
Proof.
  unfold ProviderSpec.outline, generate_slide_outline, generate_slide_outline_body.
  split; [|split].
  - intros Ht. now rewrite (take_app _ _ _ Ht).
  - intros Hg. now rewrite (take_app _ _ _ Hg).
  - intros Ht Hg. now rewrite (take_app _ _ _ Ht), (take_app _ _ _ Hg).
Qed.

End Attempts.

(** *** Reading the answers *)

Section Answers.

Variable json_loads : string -> result exn value.
Variable OPENAI_BASE : option string.
Variable transport : nat -> Request -> result exn Response.

Lemma status_below_400 (resp : Response) :
  (status_code resp < 400)%Z -> (400 <=? status_code resp)%Z = false.
Proof. intros H. apply Z.leb_gt. exact H. Qed.

(** Of an OpenAI-compatible answer below status 400 the adapter reads the
    content of the message of the first choice, and only that. A body that
    is no JSON raises the decoding error; a body without choices raises
    [KeyError]; an empty list of choices raises [IndexError]. *)
Theorem openai_reads_the_first_choice (model api_key : string) (p : Payload)
  (w : World) (resp : Response) :
  transport (List.length (posts w)) (openai_request OPENAI_BASE model api_key p)
  = Ok resp ->
  (status_code resp < 400)%Z ->
  (json resp = None ->
   fst (_call_openai json_loads OPENAI_BASE transport model api_key p w)
   = Raise JSONDecodeError)
  /\ (forall kvs,
        json resp = Some (JObj kvs) -> lookup "choices" kvs = None ->
        fst (_call_openai json_loads OPENAI_BASE transport model api_key p w)
        = Raise (KeyError "choices"))
  /\ (forall kvs,
        json resp = Some (JObj kvs) -> lookup "choices" kvs = Some (JArr []) ->
        fst (_call_openai json_loads OPENAI_BASE transport model api_key p w)
        = Raise IndexError)
  /\ (forall kvs first others message content,
        json resp = Some (JObj kvs) ->
        lookup "choices" kvs = Some (JArr (JObj first :: others)) ->
        lookup "message" first = Some (JObj message) ->
        lookup "content" message = Some content ->
        fst (_call_openai json_loads OPENAI_BASE transport model api_key p w)
        = _extract_json_maybe json_loads content).
Proof.
  intros Ht Hs. apply status_below_400 in Hs.
  unfold _call_openai, mbind, post, lift, json_of. rewrite Ht, Hs. cbn [fst].
  split; [|split; [|split]].
  - now intros ->.
  - intros kvs -> H. simpl. now rewrite H.
  - intros kvs -> H. simpl. now rewrite H.
  - intros kvs first others message content -> H1 H2 H3. simpl.
    rewrite H1. simpl. rewrite H2. simpl. now rewrite H3.
Qed.

Lemma join_texts (texts : list string) :
  join (map JStr texts) = Ok (String.concat "" texts).
Proof.
  induction texts as [|t texts IH]; [reflexivity|].
  cbn [map join]. rewrite IH. simpl.
  destruct texts as [|t' texts]; [now rewrite append_empty_r|reflexivity].
Qed.

Lemma traverse_text_blocks (blocks : list value) (texts : list string) :
  Forall2 text_block blocks texts ->
  traverse (fun blk => get blk "text" (JStr "")) blocks = Ok (map JStr texts).
Proof.
  induction 1 as [|blk t blocks texts Hb _ IH]; [reflexivity|].
  cbn [traverse map]. rewrite IH.
  destruct Hb as [kvs t Hk|kvs Hk]; simpl; now rewrite Hk.
Qed.

Lemma traverse_not_a_dict (blocks : list value) :
  (exists blk, In blk blocks /\ forall kvs, blk <> JObj kvs) ->
  traverse (fun blk => get blk "text" (JStr "")) blocks = Raise AttributeError.
Proof.
  intros [blk [Hin Hno]]. induction blocks as [|b blocks IH]; [contradiction|].
  cbn [traverse]. destruct Hin as [-> | Hin].
  - destruct blk; try reflexivity. now contradiction (Hno kvs).
  - rewrite (IH Hin). destruct b; try reflexivity.
    simpl. now destruct (lookup "text" kvs).
Qed.

(** Of an Anthropic answer below status 400 the adapter joins the texts
    of the content blocks in order, a block without text adding nothing,
    and extracts from the joined text. An answer without content is an
    empty response; a block that is no object raises [AttributeError]. *)
Theorem anthropic_joins_the_text_blocks (model api_key : string) (p : Payload)
  (w : World) (resp : Response) (kvs : list (string * value)) :
  transport (List.length (posts w)) (anthropic_request model api_key p) = Ok resp ->
  (status_code resp < 400)%Z ->
  json resp = Some (JObj kvs) ->
  (forall blocks texts,
      lookup "content" kvs = Some (JArr blocks) ->
      Forall2 text_block blocks texts ->
      fst (_call_anthropic json_loads transport model api_key p w)
      = _extract_json_maybe json_loads (JStr (String.concat "" texts)))
  /\ (lookup "content" kvs = None \/ lookup "content" kvs = Some (JArr []) ->
      fst (_call_anthropic json_loads transport model api_key p w)
      = Raise (ValueError "Empty response from model"))
  /\ (forall blocks,
        lookup "content" kvs = Some (JArr blocks) ->
        (exists blk, In blk blocks /\ forall b, blk <> JObj b) ->
        fst (_call_anthropic json_loads transport model api_key p w)
        = Raise AttributeError).
Proof.
  intros Ht Hs Hj. apply status_below_400 in Hs.
  unfold _call_anthropic, mbind, post, lift, json_of. rewrite Ht, Hs, Hj. cbn [fst].
  split; [|split].
  - intros blocks texts Hc Hb. simpl. rewrite Hc. simpl.
    rewrite (traverse_text_blocks _ _ Hb). simpl. now rewrite join_texts.
  - intros [Hc | Hc]; simpl; rewrite Hc; reflexivity.
  - intros blocks Hc Hb. simpl. rewrite Hc. simpl.
    now rewrite (traverse_not_a_dict _ Hb).
Qed.

(** Of a Gemini answer below status 400 the adapter reads the text of the
    first part of the first candidate, and only that. An answer whose
    candidates are missing, null or empty, and a first candidate whose
    parts are missing or empty, raise a [ValueError] that quotes the
    answer. *)
Theorem gemini_reads_the_first_part (model api_key : string) (p : Payload)
  (w : World) (resp : Response) (kvs : list (string * value)) :
  transport (List.length (posts w)) (gemini_request model api_key p) = Ok resp ->
  (status_code resp < 400)%Z ->
  json resp = Some (JObj kvs) ->
  (lookup "candidates" kvs = None \/ lookup "candidates" kvs = Some JNull
   \/ lookup "candidates" kvs = Some (JArr []) ->
   fst (_call_gemini json_loads transport model api_key p w)
   = Raise (ValueErrorOn "Gemini returned no candidates: " (JObj kvs)))
  /\ (forall cand others,
        lookup "candidates" kvs = Some (JArr (JObj cand :: others)) ->
        (lookup "content" cand = None
         \/ (exists content,
               lookup "content" cand = Some (JObj content)
               /\ (lookup "parts" content = None
                   \/ lookup "parts" content = Some (JArr []))) ->
         fst (_call_gemini json_loads transport model api_key p w)
         = Raise (ValueErrorOn "Gemini returned empty parts: " (JObj kvs)))
        /\ (forall content part parts,
              lookup "content" cand = Some (JObj content) ->
              lookup "parts" content = Some (JArr (JObj part :: parts)) ->
              fst (_call_gemini json_loads transport model api_key p w)
              = _extract_json_maybe json_loads
                  (match lookup "text" part with
                   | Some t => t
                   | None => JStr ""
                   end))).
Proof.
  intros Ht Hs Hj. apply status_below_400 in Hs.
  unfold _call_gemini, mbind, post, lift, json_of. rewrite Ht, Hs, Hj. cbn [fst].
  split.
  - intros [Hc | [Hc | Hc]]; simpl; rewrite Hc; reflexivity.
  - intros cand others Hc. split.
    + intros [Hn | [content [Hn [Hp | Hp]]]]; simpl; rewrite Hc; simpl;
        rewrite Hn; simpl; rewrite ?Hp; reflexivity.
    + intros content part parts Hn Hp. simpl. rewrite Hc. simpl.
      rewrite Hn. simpl. rewrite Hp. simpl.
      now destruct (lookup "text" part).
Qed.

End Answers.

(** *** Examples *)

Import SampleNet SampleApp.

Example openai_url_of_a_gateway :
  url (openai_request (Some "https://gateway.example/v1//") "m" "k" payload)
  = "https://gateway.example/v1/chat/completions"
  /\ url (openai_request (Some "https://gateway.example/chat/completions") "m" "k" payload)
     = "https://gateway.example/chat/completions"
  /\ url (openai_request None "m" "k" payload)
     = "https://api.openai.com/v1/chat/completions".
Proof. repeat split; reflexivity. Qed.

Lemma outline_makes_at_most_three_attempts_witness :
  (List.length
     (posts (snd (outline reference_loads None down half (Some "openai") None "k"
                    "some text" "" fresh)))
   <= List.length (posts fresh) + 3)%nat.
Proof.
  destruct (outline_makes_at_most_three_attempts reference_loads None down half
              (Some "openai") None "k" "some text" "" fresh)
    as [attempts [waits [_ [_ [H _]]]]].
  - intros n. split; discriminate.
  - exact H.
Defined.

Lemma outline_raises_retry_error_or_cancellation_witness :
  RetryError (TransportError "connection refused") = CancelledError
  \/ exists last,
       RetryError (TransportError "connection refused") = RetryError last
       /\ is_Exception last = true
       /\ fst (attempt reference_loads None down (Some "openai") None "k" "some text" ""
                 (before_attempt half
                    (attempt_posts None (Some "openai") None "k" "some text" "")
                    fresh 3))
          = Raise last
       /\ snd (outline reference_loads None down half (Some "openai") None "k"
                 "some text" "" fresh)
          = mkWorld
              (posts fresh
               ++ attempt_posts None (Some "openai") None "k" "some text" ""
               ++ attempt_posts None (Some "openai") None "k" "some text" ""
               ++ attempt_posts None (Some "openai") None "k" "some text" "")
              (sleeps fresh ++ [first_wait half fresh; second_wait half fresh])
              (draws fresh + 2).
Proof.
  apply (outline_raises_retry_error_or_cancellation reference_loads None down half
           (Some "openai") None "k" "some text" "" fresh).
  reflexivity.
Defined.

Lemma outline_returns_the_first_value_witness :
  exists k,
    (1 <= k <= 3)%nat
    /\ fst (attempt reference_loads None
              (answers 200 (Some "ok") (Some (chat_completion "{}")))
              (Some "openai") None "k" "some text" ""
              (before_attempt half
                 (attempt_posts None (Some "openai") None "k" "some text" "") fresh k))
       = Ok (JObj []).
Proof.
  destruct (outline_returns_the_first_value reference_loads None
              (answers 200 (Some "ok") (Some (chat_completion "{}"))) half
              (Some "openai") None "k" "some text" "" fresh (JObj []) eq_refl)
    as [k [Hk [Hv _]]].
  exists k. now split.
Defined.

(** A long text with a short guidance, and a short text with a long
    guidance. *)
Lemma outline_reads_a_prefix_of_the_input_witness :
  outline reference_loads None down half (Some "openai") None "k"
    (long_text ++ " and what follows") "be brief" fresh
  = outline reference_loads None down half (Some "openai") None "k"
      long_text "be brief" fresh
  /\ outline reference_loads None down half (Some "openai") None "k"
       "some text" (long_guidance ++ " and so on") fresh
     = outline reference_loads None down half (Some "openai") None "k"
         "some text" long_guidance fresh.
Proof.
  split.
  - apply (proj1 (outline_reads_a_prefix_of_the_input reference_loads None down half
                    (Some "openai") None "k" long_text " and what follows"
                    "be brief" "" fresh)).
    vm_compute. intros E. discriminate E.
  - apply (proj1 (proj2 (outline_reads_a_prefix_of_the_input reference_loads None
                           down half (Some "openai") None "k" "some text" ""
                           long_guidance " and so on" fresh))).
    vm_compute. intros E. discriminate E.
Defined.

Lemma openai_reads_the_first_choice_witness :
  fst (_call_openai reference_loads None
         (answers 200 (Some "ok") (Some (chat_completion "{}"))) "m" "k" payload fresh)
  = _extract_json_maybe reference_loads (JStr "{}").
Proof.
  apply (proj2 (proj2 (proj2
           (openai_reads_the_first_choice reference_loads None
              (answers 200 (Some "ok") (Some (chat_completion "{}"))) "m" "k" payload
              fresh
              (mkResponse 200 (Some "ok") (Some (chat_completion "{}"))
                 (openai_request None "m" "k" payload))
              eq_refl eq_refl)))
           [("choices", JArr [JObj [("message", JObj [("content", JStr "{}")])]])]
           [("message", JObj [("content", JStr "{}")])] []
           [("content", JStr "{}")] (JStr "{}"));
    reflexivity.
Defined.

Lemma anthropic_joins_the_text_blocks_witness :
  fst (_call_anthropic reference_loads (answers 200 (Some "ok") (Some three_blocks))
         "m" "k" payload fresh)
  = _extract_json_maybe reference_loads (JStr (String.concat "" ["{"; ""; "}"])).
Proof.
  apply (proj1
           (anthropic_joins_the_text_blocks reference_loads
              (answers 200 (Some "ok") (Some three_blocks)) "m" "k" payload fresh
              (mkResponse 200 (Some "ok") (Some three_blocks)
                 (anthropic_request "m" "k" payload))
              [("content",
                 JArr [ JObj [("type", JStr "text"); ("text", JStr "{")];
                        JObj [("type", JStr "tool_use")];
                        JObj [("type", JStr "text"); ("text", JStr "}")] ])]
              eq_refl eq_refl eq_refl)
           [ JObj [("type", JStr "text"); ("text", JStr "{")];
             JObj [("type", JStr "tool_use")];
             JObj [("type", JStr "text"); ("text", JStr "}")] ]
           ["{"; ""; "}"]).
  - reflexivity.
  - constructor; [apply block_with_text; reflexivity|].
    constructor; [apply block_without_text; reflexivity|].
    constructor; [apply block_with_text; reflexivity|constructor].
Defined.

Lemma gemini_reads_the_first_part_witness :
  fst (_call_gemini reference_loads (answers 200 (Some "ok") (Some two_candidates))
         "m" "k" payload fresh)
  = _extract_json_maybe reference_loads (JStr "{}").
Proof.
  apply (proj2 (proj2
           (gemini_reads_the_first_part reference_loads
              (answers 200 (Some "ok") (Some two_candidates)) "m" "k" payload fresh
              (mkResponse 200 (Some "ok") (Some two_candidates)
                 (gemini_request "m" "k" payload))
              match two_candidates with JObj kvs => kvs | _ => [] end
              eq_refl eq_refl eq_refl)
           [("content",
              JObj [("parts", JArr [ JObj [("text", JStr "{}")];
                                     JObj [("text", JStr "[]")] ])])]
           [JObj [("content", JObj [("parts", JArr [JObj [("text", JStr "[]")]])])]]
           eq_refl)
           [("parts", JArr [JObj [("text", JStr "{}")]; JObj [("text", JStr "[]")]])]
           [("text", JStr "{}")] [JObj [("text", JStr "[]")]]);
    reflexivity.
Defined.

End AdapterProps.

(** ** llm_providers.py: what extraction finds *)

Module ExtractionProps.

Import Http Re Providers ExtractSpec ExtractProps.

Lemma has_app (c : ascii) (a b : string) :
  has c (a ++ b) = (has c a || has c b)%bool.
Proof.
  induction a as [|d a IH]; simpl; [reflexivity|].
  now rewrite IH, orb_assoc.
Qed.

(** The fence pattern needs a backquote and both braces. *)
Lemma fence_needs (c : ascii) (t : string) :
  c = "`"%char \/ c = "{"%char \/ c = "}"%char ->
  has c t = false -> search fence_flags fence_re t = None.
Proof.
  intros Hc H. destruct (search fence_flags fence_re t) as [g|] eqn:E; [|reflexivity].
  apply search_fence_shape in E.
  destruct E as [pre [word [ws1 [body [ws2 [post [-> _]]]]]]].
  rewrite !has_app in H.
  destruct Hc as [-> | [-> | ->]]; simpl in H;
    repeat match type of H with
      | (_ || _)%bool = false => apply orb_false_elim in H; destruct H as [? H]
      end; discriminate.
Qed.

(** An object wrapped in prose: when the text holds no backquote, the
    span from its first opening brace to its last closing brace is what is
    parsed, whatever stands before and after. *)
Theorem prose_wrapped_object_is_extracted (json_loads : string -> result exn value)
  (pre mid post : string) :
  has "`" (pre ++ "{" ++ mid ++ "}" ++ post)%string = false ->
  has "{" pre = false ->
  has "}" post = false ->
  _extract_json_maybe json_loads (JStr (pre ++ "{" ++ mid ++ "}" ++ post)%string)
  = json_loads ("{" ++ mid ++ "}")%string.
Proof.
  intros Hq Hpre Hpost.
  rewrite extract_cases by (destruct pre; discriminate).
  rewrite (fence_needs "`" _ (or_introl eq_refl) Hq).
  assert (brace_span (pre ++ "{" ++ mid ++ "}" ++ post)%string
          = Some ("{" ++ mid ++ "}")%string)
    as ->; [|reflexivity].
  apply brace_span_spec. exists pre, mid, post. now repeat split.
Qed.

(** A text without an opening brace, or without a closing one, goes to
    the parser as a whole. *)
Theorem text_without_braces_is_parsed_whole (json_loads : string -> result exn value)
  (t : string) :
  t <> "" ->
  has "{" t = false \/ has "}" t = false ->
  _extract_json_maybe json_loads (JStr t) = json_loads t.
Proof.
  intros Hne H. rewrite extract_cases by exact Hne.
  assert (search fence_flags fence_re t = None) as ->.
  { destruct H as [H | H];
      [apply (fence_needs "{")|apply (fence_needs "}")]; auto. }
  destruct (brace_span t) as [g|] eqn:E; [|reflexivity].
  apply brace_span_spec in E. destruct E as [pre [mid [post [-> _]]]].
  destruct H as [H | H];
    repeat (rewrite ?has_app in H; simpl in H);
    repeat match type of H with
      | (_ || _)%bool = false => apply orb_false_elim in H; destruct H as [? H]
      end; discriminate.
Qed.

(** *** A fence is found *)

Lemma search_here (fl : Flags) (r : regex) (t : string) (g : option string) :
  match_here fl r t = Some g -> search fl r t = Some g.
Proof. intros H. destruct t; simpl; now rewrite H. Qed.

Lemma not_a_backquote (c : ascii) :
  Ascii.eqb "`" c = false -> atom_matches fence_flags (Chr "`") c = false.
Proof.
  intros H. destruct (atom_matches fence_flags (Chr "`") c) eqn:E; [|reflexivity].
  apply ignorecase_backquote in E. subst c. discriminate H.
Qed.

(** No match starts before the first backquote. *)
Lemma search_fence_skip (pre s : string) :
  has "`" pre = false ->
  search fence_flags fence_re (pre ++ s)%string = search fence_flags fence_re s.
Proof.
  induction pre as [|c pre IH]; intros H; [reflexivity|].
  simpl in H. apply orb_false_elim in H. destruct H as [Hc H].
  change (String c pre ++ s)%string with (String c (pre ++ s)).
  cbn [search]. rewrite (IH H).
  unfold match_here, fence_re. cbn [lit run].
  now rewrite (not_a_backquote c Hc).
Qed.

(** A greedy run over [m] goes on from the text after it when that
    succeeds and the run cannot be longer. *)
Lemma greedy_app_some {R : Type} (test : ascii -> bool) (k : string -> option R)
  (m rest : string) (x : R) :
  all_chars test m = true ->
  match rest with
  | String c _ => test c = false
  | EmptyString => True
  end ->
  k rest = Some x ->
  greedy test k (m ++ rest)%string = Some x.
Proof.
  intros Hm Hr Hk. induction m as [|c m IH]; simpl in *.
  - destruct rest as [|c rest]; simpl; [exact Hk|now rewrite Hr].
  - apply andb_prop in Hm. destruct Hm as [-> Hm]. now rewrite (IH Hm).
Qed.

(** A lazy run goes over [body] when going on fails at every place of it
    and succeeds after it. *)
Lemma lazy_skip {R : Type} (test : ascii -> bool) (k : string -> option R)
  (body tail : string) (x : R) :
  (forall c, test c = true) ->
  (forall b1 b2, body = (b1 ++ b2)%string -> b2 <> "" -> k (b2 ++ tail)%string = None) ->
  k tail = Some x ->
  lazy_ test k (body ++ tail)%string = Some x.
Proof.
  intros Ht. revert k. induction body as [|c body IH]; intros k Hno Hk.
  - simpl. destruct tail; simpl; now rewrite Hk.
  - change (String c body ++ tail)%string with (String c (body ++ tail)).
    cbn [lazy_].
    pose proof (Hno "" (String c body) eq_refl ltac:(discriminate)) as H0.
    change (String c body ++ tail)%string with (String c (body ++ tail)) in H0.
    rewrite H0, Ht. apply IH; [|exact Hk].
    intros b1 b2 -> Hb. apply (Hno (String c b1) b2 eq_refl Hb).
Qed.

(** White space and then a backquote cannot lie over a text without
    backquotes that is followed by a closing brace. *)
Lemma no_fence_end_inside (b ws r1 r2 : string) :
  has "`" b = false -> all_chars isspace ws = true ->
  (b ++ String "}" r1)%string <> (ws ++ String "`" r2)%string.
Proof.
  revert ws. induction b as [|c b IH]; intros ws Hb Hws E.
  - destruct ws as [|d ws]; simpl in *; [discriminate|].
    injection E as <- _. discriminate Hws.
  - simpl in Hb. apply orb_false_elim in Hb. destruct Hb as [Hc Hb].
    destruct ws as [|d ws]; simpl in *.
    + injection E as -> _. discriminate Hc.
    + apply andb_prop in Hws. destruct Hws as [_ Hws].
      injection E as _ E. exact (IH ws Hb Hws E).
Qed.

Lemma fence_word (word : string) :
  lower word = "json" ->
  exists a b c d,
    word = String a (String b (String c (String d "")))
    /\ lower_char a = "j"%char /\ lower_char b = "s"%char
    /\ lower_char c = "o"%char /\ lower_char d = "n"%char.
Proof.
  destruct word as [|a [|b [|c [|d [|e word]]]]]; simpl; try discriminate.
  intros [= Ha Hb Hc Hd]. exists a, b, c, d. now repeat split.
Qed.

(** The continuation of the lazy run inside the group: a closing brace,
    white space and three backquotes. It fails inside a body without
    backquotes. *)
Lemma fence_close_fails {R : Type} (k : string -> option string -> option R)
  (g : string -> option string) (b2 r1 : string) :
  b2 <> "" -> has "`" b2 = false ->
  run fence_flags (One (Chr "}")) (b2 ++ String "}" r1)%string None
    (fun s' _ => run fence_flags (Cat (Star Space) (lit "```")) s' (g s') k)
  = None.
Proof.
  intros Hne Hb. destruct b2 as [|c b2]; [contradiction|].
  simpl in Hb. apply orb_false_elim in Hb. destruct Hb as [_ Hb].
  change (String c b2 ++ String "}" r1)%string with (String c (b2 ++ String "}" r1)).
  cbn [run]. destruct (atom_matches fence_flags (Chr "}") c); [|reflexivity].
  destruct (run fence_flags (Cat (Star Space) (lit "```")) (b2 ++ String "}" r1)%string
              (g (b2 ++ String "}" r1)%string) k) as [x|] eqn:E; [|exact E].
  exfalso. apply run_sound in E. destruct E as [m [rest [g' [Hs [M _]]]]].
  cbn [lit] in M. invert_matches.
  repeat match goal with
         | H : atom_matches fence_flags (Chr "`") _ = true |- _ =>
             apply ignorecase_backquote in H; subst
         end.
  match goal with
  | H : all_chars (atom_matches fence_flags Space) ?ws = true |- _ =>
      apply (no_fence_end_inside b2 ws r1 ("``" ++ rest)%string Hb H)
  end.
  rewrite Hs. repeat (progress (rewrite ?append_assoc; simpl)). reflexivity.
Qed.

Lemma match_here_fence (word ws1 body ws2 post : string) :
  lower word = "json" ->
  all_chars isspace ws1 = true -> all_chars isspace ws2 = true ->
  has "`" body = false ->
  match_here fence_flags fence_re
    ("```" ++ word ++ ws1 ++ "{" ++ body ++ "}" ++ ws2 ++ "```" ++ post)%string
  = Some (Some ("{" ++ body ++ "}")%string).
Proof.
  intros Hw H1 H2 Hb.
  destruct (fence_word word Hw) as [a [b [c [d [-> [Ha [Hb' [Hc Hd]]]]]]]].
  unfold match_here, fence_re.
  cbn [lit run append atom_matches IGNORECASE fence_flags].
  rewrite Ha, Hb', Hc, Hd.
  change (Ascii.eqb (lower_char "`") (lower_char "`")) with true.
  change (Ascii.eqb (lower_char "j") "j") with true.
  change (Ascii.eqb (lower_char "s") "s") with true.
  change (Ascii.eqb (lower_char "o") "o") with true.
  change (Ascii.eqb (lower_char "n") "n") with true.
  cbv iota.
  apply greedy_app_some; [exact H1|reflexivity|].
  change (Ascii.eqb (lower_char "{") (lower_char "{")) with true. cbv iota.
  apply lazy_skip.
  - reflexivity.
  - intros b1 b2 -> Hne. rewrite has_app in Hb.
    apply orb_false_elim in Hb. destruct Hb as [_ Hb].
    match goal with
    | |- context [substring 0 (String.length ?S - _) ?S] =>
        exact (fence_close_fails (fun _ g => Some g)
                 (fun s' => Some (substring 0 (String.length S - String.length s') S))
                 b2 (ws2 ++ "```" ++ post)%string Hne Hb)
    end.
  - cbn [run atom_matches IGNORECASE fence_flags].
    change (Ascii.eqb (lower_char "}") (lower_char "}")) with true. cbv iota.
    apply greedy_app_some; [exact H2|reflexivity|].
    change (Ascii.eqb (lower_char "`") (lower_char "`")) with true. cbv iota.
    do 2 f_equal. apply span_substring.
Qed.

(** A fenced object: three backquotes, the word json in any case, white
    space, an object, white space and three backquotes, with no backquote
    before the fence and none inside the object. The object is what is
    parsed, whatever stands around the fence. *)
Theorem fenced_object_is_extracted (json_loads : string -> result exn value)
  (pre word ws1 body ws2 post : string) :
  has "`" pre = false ->
  lower word = "json" ->
  all_chars isspace ws1 = true ->
  all_chars isspace ws2 = true ->
  has "`" body = false ->
  _extract_json_maybe json_loads
    (JStr (pre ++ "```" ++ word ++ ws1 ++ "{" ++ body ++ "}" ++ ws2 ++ "```" ++ post)%string)
  = json_loads ("{" ++ body ++ "}")%string.
Proof.
  intros Hpre Hw H1 H2 Hb.
  rewrite extract_cases by (destruct pre; discriminate).
  rewrite (search_fence_skip _ _ Hpre).
  now rewrite (search_here _ _ _ _ (match_here_fence word ws1 body ws2 post Hw H1 H2 Hb)).
Qed.

(** *** Examples *)

Import SampleNet.

Lemma prose_wrapped_object_is_extracted_witness :
  _extract_json_maybe reference_loads (JStr answer_text) = reference_loads answer_span.
Proof.
  apply (prose_wrapped_object_is_extracted reference_loads "Here's the answer: "
           (quoted "a" ++ ": {" ++ quoted "slides" ++ ": []}") " done");
    reflexivity.
Defined.

Lemma text_without_braces_is_parsed_whole_witness :
  _extract_json_maybe reference_loads (JStr "[1, 2]") = reference_loads "[1, 2]".
Proof.
  apply (text_without_braces_is_parsed_whole reference_loads "[1, 2]").
  - discriminate.
  - left. reflexivity.
Defined.

Lemma fenced_object_is_extracted_witness :
  _extract_json_maybe reference_loads
    (JStr ("Sure: ```JSON" ++ nl ++ "{" ++ quoted "slides" ++ ":[]}" ++ nl
           ++ "``` {done}"))
  = reference_loads ("{" ++ quoted "slides" ++ ":[]}").
Proof.
  apply (fenced_object_is_extracted reference_loads "Sure: " "JSON" nl
           (quoted "slides" ++ ":[]") nl " {done}");
    reflexivity.
Defined.

End ExtractionProps.

(** ** pptx_builder.py: limits, pictures and interrupted loops *)

Module BuilderProps.

Import Models Builder HarvestSpec LayoutSpec BuildSpec HarvestProps LayoutProps BuildProps.

(** *** collect_template_images under any limit *)

(** The cap is tested after a blob has been kept. Under a limit of one or
    more the result is the uncapped scan cut at the limit. Under a limit of
    zero or less the loop still runs once: the result is the first blob of
    the template when that blob is not empty, and nothing otherwise. So the
    result never holds more than the limit, or one blob under such a
    limit. *)
Theorem harvest_under_any_limit (F : faults) (tpl : Template) (limit : Z)
  (imgs : list bytes) :
  collect_template_images F tpl limit = Ok imgs ->
  ((1 <= limit)%Z ->
   imgs = firstn (Z.to_nat limit)
            (first_of_each_length [] (all_blobs (tpl_slides tpl))))
  /\ ((limit <= 0)%Z ->
      imgs = match all_blobs (tpl_slides tpl) with
             | (x :: b) :: _ => [x :: b]
             | _ => []
             end)
  /\ (Z.of_nat (List.length imgs) <= Z.max limit 1)%Z.
Proof.
  unfold collect_template_images, call.
  destruct (F HarvestOpen); simpl; [discriminate|]. intros [= <-].
  set (blobs := all_blobs (tpl_slides tpl)).
  assert ((1 <= limit)%Z ->
          dedup limit blobs [] []
          = firstn (Z.to_nat limit) (first_of_each_length [] blobs)) as H1.
  { intros Hl. rewrite dedup_firstn by (simpl; lia). simpl.
    now rewrite Nat.sub_0_r. }
  assert ((limit <= 0)%Z ->
          dedup limit blobs [] []
          = match blobs with
            | (x :: b) :: _ => [x :: b]
            | _ => []
            end) as H0.
  { intros Hl. destruct blobs as [|[|x b] rest]; simpl; [reflexivity| |].
    - destruct (limit <=? 0)%Z eqn:E; [reflexivity|]. apply Z.leb_gt in E. lia.
    - destruct (limit <=? 1)%Z eqn:E; [reflexivity|]. apply Z.leb_gt in E. lia. }
  split; [exact H1|]. split; [exact H0|].
  destruct (Z.le_gt_cases 1 limit) as [Hl | Hl].
  - rewrite (H1 Hl).
    pose proof (firstn_le_length (Z.to_nat limit)
                  (first_of_each_length [] blobs)) as Hn.
    lia.
  - rewrite (H0 ltac:(lia)). destruct blobs as [|[|x b] rest]; simpl; lia.
Qed.

(** *** Pictures *)

Lemma choice_In {G : PRNG} {A : Type} (g : rng_state G) (x : A) (xs : list A) :
  In (fst (choice g x xs)) (x :: xs).
Proof.
  unfold choice. destruct (randbelow G g (List.length (x :: xs))) as [i g'].
  cbn [fst]. destruct (Nat.lt_ge_cases i (List.length (x :: xs))) as [H | H].
  - now apply nth_In.
  - rewrite nth_overflow by exact H. now left.
Qed.

(** The picture that a finished turn inserts. *)
Lemma add_deck_slide_picture (G : PRNG) (F : faults) (ls : list Layout)
  (imgs : list bytes) (i : nat) (s : Slide) (g g' : rng_state G) (b : BuiltSlide)
  (img : bytes) (box : Bounds) :
  add_deck_slide G F ls imgs i s g = Ok (b, g') ->
  picture b = Some (img, box) ->
  chosen b = Some img /\ In img imgs /\ F (AddPicture i) = false
  /\ exists ph rest,
       pics_of (placeholders (from_layout b)) = ph :: rest /\ bounds ph = Some box.
Proof.
  unfold add_deck_slide, call. simpl.
  destruct (F (Layouts i)); simpl; [discriminate|].
  destruct (_choose_layout ls (Some (opt_str_or (layout_hint s) ""))) as [layout|e];
    simpl; [|discriminate].
  destruct (F (AddSlide i)); simpl; [discriminate|].
  destruct (title_of (placeholders layout)) eqn:Ht; simpl;
    try (destruct (F (TitleText i)); simpl; [discriminate|]);
    (destruct (F (Body i)); simpl; [discriminate|]);
    (destruct (F (Pictures i)); simpl; [discriminate|]);
    destruct (pics_of (placeholders layout)) as [|ph rest] eqn:Hp,
             imgs as [|im ims]; simpl;
    try (pose proof (choice_In g im ims) as Hin;
         destruct (choice g im ims) as [c g1]; simpl in Hin |- *);
    (destruct (F (Notes i)); simpl; [discriminate|]);
    (destruct (F (NotesText i)); simpl; [discriminate|]);
    intros [= <- <-]; simpl; try discriminate;
    (destruct (F (AddPicture i)); [discriminate|]);
    (destruct (bounds ph) as [bx|] eqn:Hb; [|discriminate]);
    intros [= <- <-]; (split; [reflexivity|]); (split; [exact Hin|]);
    (split; [reflexivity|]); exists ph, rest; now rewrite Hp.
Qed.

Lemma harvest_In (F : faults) (tpl : Template) (img : bytes) :
  In img (harvest F tpl) -> img <> [] /\ In img (all_blobs (tpl_slides tpl)).
Proof.
  unfold harvest.
  destruct (collect_template_images F tpl 8) as [l|e] eqn:E; [|contradiction].
  apply collect_template_images_eq in E. subst l. intros Hin.
  assert (In img (first_of_each_length [] (all_blobs (tpl_slides tpl)))) as Hin'.
  { rewrite <- (firstn_skipn 8). apply in_or_app. now left. }
  apply first_of_each_length_In in Hin'.
  destruct Hin' as [Hne [_ [pre [post [-> _]]]]].
  split; [exact Hne|]. apply in_or_app. right. now left.
Qed.

(** A picture that a finished build has put on a slide is the image drawn
    for that slide; it is a non-empty blob of a picture shape of the
    template's own slides; and it stands at the bounds of the first picture
    placeholder of the slide's layout. *)
Theorem inserted_pictures_come_from_the_template (G : PRNG) (F : faults)
  (tpl : Template) (deck : SlideDeck) (doc : Document) (k : nat) (b : BuiltSlide)
  (img : bytes) (box : Bounds) :
  build_presentation G F tpl deck = Ok doc ->
  nth_error (added_slides doc) k = Some b ->
  picture b = Some (img, box) ->
  chosen b = Some img
  /\ img <> [] /\ In img (all_blobs (tpl_slides tpl))
  /\ F (AddPicture k) = false
  /\ exists ph rest,
       pics_of (placeholders (from_layout b)) = ph :: rest /\ bounds ph = Some box.
Proof.
  intros H Hb Hpic. apply build_presentation_ok in H.
  apply (add_deck_slides_each G F (slide_layouts tpl) (harvest F tpl)
           (fun i _ b =>
              forall img box, picture b = Some (img, box) ->
                chosen b = Some img /\ In img (harvest F tpl)
                /\ F (AddPicture i) = false
                /\ exists ph rest,
                     pics_of (placeholders (from_layout b)) = ph :: rest
                     /\ bounds ph = Some box)) in H.
  - destruct H as [Hlen Hall].
    assert (k < List.length (slides deck))%nat as Hk.
    { rewrite <- Hlen. apply nth_error_Some. congruence. }
    destruct (nth_error (slides deck) k) as [s|] eqn:Hs;
      [|apply nth_error_None in Hs; lia].
    destruct (Hall k s b Hs Hb img box Hpic) as [Hc [Hin [Hf Hph]]].
    apply harvest_In in Hin. destruct Hin as [Hne Hin].
    now repeat split.
  - intros i s g g' b0 E img0 box0.
    exact (add_deck_slide_picture G F _ _ i s g g' b0 img0 box0 E).
Qed.

(** *** The font loop, interrupted *)

Lemma clamp_sizes_until (F : faults) (i : nat) (sizes : list (option Z)) :
  forall k n : nat,
    (forall j, (j < n)%nat -> F (FontClamp i (k + j)) = false) ->
    F (FontClamp i (k + n)) = true ->
    clamp_sizes F i k sizes = map clamp_size (firstn n sizes) ++ skipn n sizes.
Proof.
  induction sizes as [|sz rest IH]; intros k n Hbefore Hat.
  - now rewrite firstn_nil, skipn_nil.
  - destruct n as [|n]; simpl.
    + rewrite Nat.add_0_r in Hat. now rewrite Hat.
    + pose proof (Hbefore 0%nat ltac:(lia)) as H0. rewrite Nat.add_0_r in H0.
      rewrite H0. f_equal. apply IH.
      * intros j Hj. rewrite Nat.add_succ_comm. apply Hbefore. lia.
      * now rewrite Nat.add_succ_comm.
Qed.

(** When reading or writing a font size fails at paragraph [n] of a
    title, the paragraphs before it keep their clamped sizes, the
    paragraphs from [n] on keep the sizes they had, and the build goes
    on. *)
Theorem title_fonts_before_a_failure (G : PRNG) (F : faults) (tpl : Template)
  (deck : SlideDeck) (doc : Document) (k n : nat) (b : BuiltSlide) (t : Placeholder) :
  build_presentation G F tpl deck = Ok doc ->
  nth_error (added_slides doc) k = Some b ->
  title_of (placeholders (from_layout b)) = Some t ->
  (forall j, (j < n)%nat -> F (FontClamp k j) = false) ->
  F (FontClamp k n) = true ->
  title_sizes b = map clamp_size (firstn n (para_sizes t)) ++ skipn n (para_sizes t).
Proof.
  intros H Hb Ht Hbefore Hat. apply build_presentation_ok in H.
  apply (add_deck_slides_each G F (slide_layouts tpl) (harvest F tpl)
           (fun i _ b =>
              title_sizes b = match title_of (placeholders (from_layout b)) with
                              | Some t => clamp_sizes F i 0 (para_sizes t)
                              | None => []
                              end)) in H.
  - destruct H as [Hlen Hall].
    assert (k < List.length (slides deck))%nat as Hk.
    { rewrite <- Hlen. apply nth_error_Some. congruence. }
    destruct (nth_error (slides deck) k) as [s|] eqn:Hs;
      [|apply nth_error_None in Hs; lia].
    rewrite (Hall k s b Hs Hb), Ht. simpl.
    now apply clamp_sizes_until.
  - intros i s g g' b0 E. now apply add_deck_slide_built in E.
Qed.

(** *** A missing hint *)

Lemma lower_empty (n : string) : lower n = "" -> n = "".
Proof. destruct n; [reflexivity|discriminate]. Qed.

Lemma layout_label_not_empty (i : nat) (l : Layout) : layout_label i l <> "".
Proof.
  unfold layout_label, opt_str_or, str_or.
  destruct (layout_name l) as [[|c s]|]; simpl; discriminate.
Qed.

(** A layout always has a name that is not empty, so a hint that is
    missing or empty equals no name: the layout chosen for it is the one
    chosen for any hint that equals no name. *)
Theorem a_missing_hint_matches_no_name (ls : list Layout) (hint : option string)
  (other : string) :
  opt_str_or hint "" = "" ->
  (forall i l, nth_error ls i = Some l -> ~ same_name (layout_label i l) other) ->
  _choose_layout ls hint = _choose_layout ls (Some other).
Proof.
  intros Hh Hother. unfold _choose_layout, names. cbv zeta.
  rewrite (first_layout_none (exact_test hint) ls 0).
  - rewrite (first_layout_none (exact_test (Some other)) ls 0); [reflexivity|].
    intros j l' Hl'. apply (not_true_false _ _ (exact_test_iff _ _)).
    simpl. destruct other; apply (Hother j l' Hl').
  - intros j l' Hl'. apply (not_true_false _ _ (exact_test_iff _ _)).
    rewrite Hh. unfold same_name. simpl. intros E. apply lower_empty in E.
    exact (layout_label_not_empty _ _ E).
Qed.

(** *** Examples *)

Import Sample SampleApp.

Lemma harvest_under_any_limit_witness :
  collect_template_images no_faults template 0 = Ok [blob 3 Byte.x01]
  /\ (Z.of_nat (List.length [blob 3 Byte.x01]) <= Z.max 0 1)%Z.
Proof.
  split; [reflexivity|].
  exact (proj2 (proj2 (harvest_under_any_limit no_faults template 0
                         [blob 3 Byte.x01] eq_refl))).
Defined.

Lemma inserted_pictures_come_from_the_template_witness :
  exists b img,
    nth_error (added_slides plain_run) 1 = Some b
    /\ picture b = Some (img, box)
    /\ img <> []
    /\ In img (all_blobs (tpl_slides template)).
Proof.
  eexists. eexists. split; [reflexivity|]. split; [reflexivity|].
  destruct (inserted_pictures_come_from_the_template lcg no_faults template deck
              plain_run 1 _ _ box eq_refl eq_refl eq_refl) as [_ [H1 [H2 _]]].
  split; [exact H1|exact H2].
Defined.

Lemma title_fonts_before_a_failure_witness :
  exists b,
    nth_error
      (added_slides
         (document_of (build_presentation lcg second_paragraph_fails title_only
                         one_slide))) 0
    = Some b
    /\ title_sizes b = [Some 508000%Z; Some 762000%Z; Some 254000%Z].
Proof.
  eexists. split; [reflexivity|].
  apply (title_fonts_before_a_failure lcg second_paragraph_fails title_only one_slide
           (document_of (build_presentation lcg second_paragraph_fails title_only
                           one_slide))
           0 1 _ three_paragraphs eq_refl eq_refl eq_refl).
  - intros j Hj. assert (j = 0%nat) as -> by lia. reflexivity.
  - reflexivity.
Defined.

Lemma a_missing_hint_matches_no_name_witness :
  _choose_layout three_layouts None = _choose_layout three_layouts (Some "Nonexistent").
Proof.
  apply (a_missing_hint_matches_no_name three_layouts None "Nonexistent").
  - reflexivity.
  - intros i l H. unfold three_layouts in H.
    each_index; try discriminate H; vm_compute; intros E; discriminate E.
Defined.

End BuilderProps.

(** ** models.py: what validation guarantees *)

Module SchemaProps.

Import Models Decks MainSpec.

(** A slide that validation accepts came from an object with a string
    title of at most 120 characters, and has at most eight bullets. A
    missing [bullets] gives no bullets, a missing [layout_hint] gives
    "Title and Content" while an explicit null stays [None], and missing
    [notes] give [None]. *)
Theorem validated_slide_is_within_limits (j : value) (s : Slide) :
  validate_slide j = Ok s ->
  exists kvs,
    j = JObj kvs
    /\ lookup "title" kvs = Some (JStr (title s))
    /\ (String.length (title s) <= 120)%nat
    /\ (List.length (bullets s) <= 8)%nat
    /\ (lookup "bullets" kvs = None -> bullets s = [])
    /\ (lookup "layout_hint" kvs = None -> layout_hint s = Some "Title and Content")
    /\ (lookup "layout_hint" kvs = Some JNull -> layout_hint s = None)
    /\ (lookup "notes" kvs = None -> notes s = None).
Proof.
  intros H. destruct j as [| | | | | |kvs]; try discriminate H.
  exists kvs. split; [reflexivity|]. unfold validate_slide in H.
  destruct (lookup "title" kvs) as [tv|]; [|discriminate H].
  destruct tv as [| | | |t| |]; try discriminate H. simpl in H.
  destruct (String.length t <=? 120)%nat eqn:Et; [|discriminate H]. simpl in H.
  apply Nat.leb_le in Et.
  assert (exists bs, (List.length bs <= 8)%nat
                     /\ (lookup "bullets" kvs = None -> bs = [])
                     /\ match lookup "bullets" kvs with
                        | Some v => l <- as_str_list "bullets" v ;; Ok (clamp_bullets l)
                        | None => Ok []
                        end = Ok bs) as [bs [Hlen [Hnone Hbs]]].
  { destruct (lookup "bullets" kvs) as [bv|].
    - destruct (as_str_list "bullets" bv) as [l|e]; [|discriminate H].
      exists (clamp_bullets l). split; [apply firstn_le_length|].
      split; [discriminate|reflexivity].
    - exists []. split; [simpl; lia|]. now split. }
  rewrite Hbs in H. simpl in H.
  destruct (lookup "layout_hint" kvs) as [hv|].
  - destruct (as_opt_str "layout_hint" hv) as [h|e] eqn:Eh; [|discriminate H].
    simpl in H.
    destruct (lookup "notes" kvs) as [nv|].
    + destruct (as_opt_str "notes" nv) as [n|e]; [|discriminate H].
      injection H as <-. simpl. repeat split; try assumption; try discriminate.
      intros [= ->]. simpl in Eh. now injection Eh as <-.
    + injection H as <-. simpl. repeat split; try assumption; try discriminate.
      intros [= ->]. simpl in Eh. now injection Eh as <-.
  - simpl in H. destruct (lookup "notes" kvs) as [nv|].
    + destruct (as_opt_str "notes" nv) as [n|e]; [|discriminate H].
      injection H as <-. simpl. repeat split; try assumption; try discriminate.
    + injection H as <-. simpl. repeat split; try assumption; try discriminate.
Qed.

Lemma validate_slide_within_limits (j : value) (s : Slide) :
  validate_slide j = Ok s -> within_limits s.
Proof.
  intros H. unfold validate_slide in H.
  destruct j as [| | | | | |kvs]; try discriminate H.
  destruct (lookup "title" kvs) as [tv|]; [|discriminate H].
  destruct tv as [| | | |t| |]; try discriminate H. simpl in H.
  destruct (String.length t <=? 120)%nat eqn:Et; [|discriminate H]. simpl in H.
  apply Nat.leb_le in Et.
  assert (exists bs, (List.length bs <= 8)%nat
                     /\ match lookup "bullets" kvs with
                        | Some v => l <- as_str_list "bullets" v ;; Ok (clamp_bullets l)
                        | None => Ok []
                        end = Ok bs) as [bs [Hlen Hbs]].
  { destruct (lookup "bullets" kvs) as [bv|].
    - destruct (as_str_list "bullets" bv) as [l|e]; [|discriminate H].
      exists (clamp_bullets l). split; [apply firstn_le_length|reflexivity].
    - exists []. split; [simpl; lia|reflexivity]. }
  rewrite Hbs in H. simpl in H.
  destruct (lookup "layout_hint" kvs) as [hv|];
    [destruct (as_opt_str "layout_hint" hv) as [h|e]; [|discriminate H]|];
    simpl in H;
    (destruct (lookup "notes" kvs) as [nv|];
     [destruct (as_opt_str "notes" nv) as [n|e]; [|discriminate H]|]);
    injection H as <-; now split.
Qed.

Lemma validate_slides_each (xs : list value) (ss : list Slide) :
  validate_slides xs = Ok ss -> Forall2 (fun x s => validate_slide x = Ok s) xs ss.
Proof.
  revert ss. induction xs as [|x xs IH]; intros ss; simpl.
  - intros [= <-]. constructor.
  - destruct (validate_slide x) as [s|e] eqn:E; [|discriminate]. simpl.
    destruct (validate_slides xs) as [ss'|e]; [|discriminate]. simpl.
    intros [= <-]. constructor; [exact E|now apply IH].
Qed.

Section Deck.

Variable as_bool : value -> option bool.

(** The slides of a deck that validation accepts are the items of the
    [slides] list of the input, validated one by one and in order. *)
Lemma model_validate_slides (j : value) (d : SlideDeck) :
  model_validate as_bool j = Ok d ->
  exists kvs raw,
    j = JObj kvs /\ lookup "slides" kvs = Some (JArr raw)
    /\ Forall2 (fun x s => validate_slide x = Ok s) raw (slides d).
Proof.
  intros H. unfold model_validate in H.
  destruct j as [| | | | | |kvs]; try discriminate H.
  destruct (lookup "slides" kvs) as [sv|] eqn:El; [|discriminate H].
  destruct sv as [| | | | |raw|]; try discriminate H.
  destruct (validate_slides raw) as [ss|e] eqn:Es; [|discriminate H].
  simpl in H. exists kvs, raw. split; [reflexivity|]. split; [exact El|].
  apply validate_slides_each in Es.
  repeat match type of H with
         | context [Py.bind ?m _] => destruct m; simpl in H; [|discriminate H]
         end.
  now injection H as <-.
Qed.

Lemma model_validate_within_limits (j : value) (d : SlideDeck) :
  model_validate as_bool j = Ok d -> Forall within_limits (slides d).
Proof.
  intros H. apply model_validate_slides in H.
  destruct H as [kvs [raw [_ [_ H]]]].
  induction H as [|x s raw ss Hx _ IH]; constructor; [|exact IH].
  now apply (validate_slide_within_limits x).
Qed.

End Deck.

Import Sample.

Lemma validated_slide_is_within_limits_witness :
  exists kvs,
    raw_slide_twelve = JObj kvs
    /\ lookup "title" kvs = Some (JStr (title slide_twelve))
    /\ (String.length (title slide_twelve) <= 120)%nat
    /\ (List.length (bullets slide_twelve) <= 8)%nat.
Proof.
  destruct (validated_slide_is_within_limits raw_slide_twelve slide_twelve eq_refl)
    as [kvs [H1 [H2 [H3 [H4 _]]]]].
  exists kvs. now repeat split.
Defined.

End SchemaProps.

(** ** security.py *)

Module SecurityProps.

Import Security ExtractProps AdapterProps.

Lemma substring_split (s : string) :
  forall k m : nat,
    (k + m = String.length s)%nat ->
    s = (substring 0 k s ++ substring k m s)%string
    /\ String.length (substring 0 k s) = k
    /\ String.length (substring k m s) = m.
Proof.
  induction s as [|c s IH]; intros k m H; simpl in H.
  - assert (k = 0 /\ m = 0)%nat as [-> ->] by lia. now repeat split.
  - destruct k as [|k]; simpl.
    + destruct m as [|m]; [discriminate|]. simpl.
      injection H as H. destruct (IH 0%nat m H) as [H1 [_ H3]].
      rewrite H at 1. rewrite substring_all.
      split; [reflexivity|]. split; [reflexivity|].
      f_equal. rewrite H. now rewrite substring_all.
    + injection H as H. destruct (IH k m H) as [H1 [H2 H3]].
      split; [now rewrite <- H1|]. split; [now rewrite H2|exact H3].
Qed.

Lemma take_all (a : string) : take (N.of_nat (String.length a)) a = a.
Proof.
  induction a as [|c a IH]; [reflexivity|].
  cbn [String.length take].
  destruct (N.of_nat (S (String.length a)) =? 0)%N eqn:E;
    [apply N.eqb_eq in E; lia|].
  replace (N.pred (N.of_nat (S (String.length a)))) with (N.of_nat (String.length a))
    by lia.
  now rewrite IH.
Qed.

(** Of a key the mask shows six characters at most. An empty key stays
    empty; a key of one to eight characters is replaced by the mask as a
    whole; of a longer key the first four and the last two characters are
    kept around the mask, and nothing of what lies between them. *)
Theorem mask_api_key_shows_six_characters (s : string) :
  (s = "" -> mask_api_key s = "")
  /\ ((1 <= String.length s <= 8)%nat -> mask_api_key s = MASK)
  /\ ((8 < String.length s)%nat ->
      exists head middle tail,
        s = (head ++ middle ++ tail)%string
        /\ String.length head = 4%nat /\ String.length tail = 2%nat
        /\ mask_api_key s = (head ++ MASK ++ tail)%string).
Proof.
  split; [intros ->; reflexivity|]. split.
  - intros [H1 H8]. unfold mask_api_key.
    destruct s as [|c s]; [simpl in H1; lia|]. cbn [String.eqb].
    apply Nat.leb_le in H8. now rewrite H8.
  - intros H.
    destruct (substring_split s 4 (String.length s - 4) ltac:(lia)) as [Hs [Hh Hr]].
    set (h := substring 0 4 s) in *. set (r := substring 4 (String.length s - 4) s) in *.
    destruct (substring_split r (String.length r - 2) 2 ltac:(lia)) as [Hr' [Hm Ht]].
    set (m := substring 0 (String.length r - 2) r) in *.
    set (t := substring (String.length r - 2) 2 r) in *.
    exists h, m, t.
    assert (s = (h ++ m ++ t)%string) as E by (now rewrite <- Hr').
    split; [exact E|]. split; [exact Hh|]. split; [exact Ht|].
    clearbody h r m t. clear Hs Hr Hr' Hm r. subst s.
    unfold mask_api_key.
    assert (String.eqb (h ++ m ++ t) "" = false) as ->.
    { apply String.eqb_neq. intros E0. rewrite E0 in H. simpl in H. lia. }
    assert ((String.length (h ++ m ++ t) <=? 8)%nat = false) as ->
        by (apply Nat.leb_gt; lia).
    rewrite take_app by (rewrite Hh; simpl; lia).
    change 4%N with (N.of_nat 4). rewrite <- Hh, take_all.
    do 2 f_equal.
    rewrite <- append_assoc. rewrite length_append, Ht, Nat.add_sub.
    rewrite <- Ht at 1. apply substring_suffix.
Qed.

Example masked_keys :
  mask_api_key "sk-proj-abcdef123456" = ("sk-p" ++ MASK ++ "56")%string
  /\ mask_api_key "12345678" = MASK
  /\ mask_api_key "123456789" = ("1234" ++ MASK ++ "89")%string
  /\ mask_api_key "" = "".
Proof. repeat split; reflexivity. Qed.

End SecurityProps.

(** ** main.py: the two handlers *)

Module MainProps.

Import Models Builder Http Providers ProviderSpec AdapterSpec Security Decks Main MainSpec.
Import HarvestProps BuildProps AdapterProps SchemaProps.

Section Handlers.

Variable json_loads : string -> result exn value.
Variable OPENAI_BASE : option string.
Variable transport : nat -> Request -> result exn Response.
Variable random : nat -> Q.
Variable as_bool : value -> option bool.
Variable from_json : string -> option value.
Variable int : string -> option Z.
Variable str_of_exn : exn -> string.
Variable str_of_build_error : BuildError -> string.
Variable str_of_validation_error : ValidationError -> string.
Variable str_of_json_validation_error : JsonValidationError -> string.
Variable Presentation : bytes -> Template.
Variable G : PRNG.

Local Abbreviation analyze :=
  (Main.analyze json_loads OPENAI_BASE transport random as_bool int str_of_exn
     str_of_build_error str_of_validation_error Presentation).
Local Abbreviation generate :=
  (Main.generate as_bool from_json str_of_build_error str_of_json_validation_error
     Presentation G).
Local Abbreviation outline :=
  (generate_slide_outline json_loads OPENAI_BASE transport random).
Local Abbreviation admitted := (MainSpec.admitted int).

Lemma wrong_type_raises (template : UploadFile) (e : Raised) :
  wrong_type template = Raise e -> e = NoFilename.
Proof.
  unfold wrong_type.
  destruct (match content_type template with
            | Some c => (String.eqb c PPTX_TYPE || String.eqb c POTX_TYPE)%bool
            | None => false
            end); [discriminate|].
  destruct (filename template); [discriminate|]. now intros [= <-].
Qed.

Lemma admitted_dec (body_len : option string) (text : string) (template : UploadFile) :
  admitted body_len text template \/ ~ admitted body_len text template.
Proof.
  unfold MainSpec.admitted.
  destruct (le_dec 10 (String.length text)) as [Ht | Ht];
    [|right; intros [H _]; exact (Ht H)].
  destruct (wrong_type template) as [[|]|e];
    try (right; intros [_ [H _]]; discriminate H).
  destruct (payload_too_large int body_len);
    [right; intros [_ [_ [H _]]]; discriminate H|].
  destruct (read template) as [template_bytes|];
    [|right; intros [_ [_ [_ [b [H _]]]]]; discriminate H].
  destruct (Z_le_gt_dec (Z.of_nat (List.length template_bytes)) MAX_FILE_SIZE_BYTES)
    as [Hs | Hs].
  - left. repeat split; try assumption. now exists template_bytes.
  - right. intros [_ [_ [_ [b [[= <-] H]]]]]. lia.
Qed.

Lemma short_text (text : string) :
  (String.eqb text "" || (safe_len (Some text) <? 10)%nat)%bool = true
  <-> (String.length text < 10)%nat.
Proof.
  unfold safe_len. simpl. destruct text as [|c text].
  - simpl. split; [lia|reflexivity].
  - cbn [String.eqb orb opt_str_or str_or]. apply Nat.ltb_lt.
Qed.

(** The request is admitted exactly when [analyze] gets as far as the
    call of the model. *)
Lemma analyze_admitted (F : faults) (body_len : option string)
  (text guidance provider model api_key : string) (template : UploadFile) (w : World) :
  admitted body_len text template ->
  exists template_bytes,
    read template = Some template_bytes
    /\ analyze F body_len text guidance provider model api_key template w
       = let (sample_image_blobs, log1) :=
           match collect_template_images F (Presentation template_bytes) 8 with
           | Ok blobs => (blobs, [])
           | Raise e =>
               ([], [WARNING ("Could not collect images from template: "
                              ++ str_of_build_error e)])
           end in
         match outline (Some (lower (strip provider))) (Some (strip model))
                 (strip api_key) text guidance w with
         | (Raise e, w') =>
             if is_Exception e
             then mkOutcome
                    (Raise (HTTPException 502 ("LLM failed: " ++ str_of_exn e)))
                    (log1 ++ [ERROR ("LLM error: " ++ str_of_exn e ++ " (key="
                                     ++ mask_api_key api_key ++ ")")])
                    w'
             else mkOutcome (Raise (Propagated e)) log1 w'
         | (Ok slides_json, w') =>
             match model_validate as_bool slides_json with
             | Raise ve =>
                 mkOutcome
                   (Raise (HTTPException 500
                             ("Bad LLM output. " ++ str_of_validation_error ve)))
                   log1 w'
             | Ok deck =>
                 mkOutcome
                   (Ok (mkAnalyzeResponse deck
                          (JObj [ ("templateFilename",
                                    match filename template with
                                    | Some f => JStr f
                                    | None => JNull
                                    end);
                                  ("reusableImageCount",
                                    JInt (Z.of_nat (List.length sample_image_blobs)));
                                  ("note",
                                    JStr "Preview is an approximation; final PPTX inherits exact styles from template.") ])))
                   log1 w'
             end
         end.
Proof.
  intros [Ht [Hty [Hp [template_bytes [Hr Hs]]]]].
  exists template_bytes. split; [exact Hr|].
  unfold Main.analyze.
  destruct (String.eqb text "" || (safe_len (Some text) <? 10)%nat)%bool eqn:E.
  { apply short_text in E. lia. }
  rewrite Hty, Hp, Hr.
  destruct (MAX_FILE_SIZE_BYTES <? Z.of_nat (List.length template_bytes))%Z eqn:E';
    [apply Z.ltb_lt in E'; lia|].
  reflexivity.
Qed.

Lemma analyze_not_admitted (F : faults) (body_len : option string)
  (text guidance provider model api_key : string) (template : UploadFile) (w : World) :
  ~ admitted body_len text template ->
  world (analyze F body_len text guidance provider model api_key template w) = w
  /\ logged (analyze F body_len text guidance provider model api_key template w) = []
  /\ (returned (analyze F body_len text guidance provider model api_key template w)
      = Raise NoFilename
      \/ returned (analyze F body_len text guidance provider model api_key template w)
         = Raise ReadError
      \/ exists s d,
           returned (analyze F body_len text guidance provider model api_key template w)
           = Raise (HTTPException s d)
           /\ (s = 422 \/ s = 415 \/ s = 413)%Z).
Proof.
  intros Hn. unfold Main.analyze.
  destruct (String.eqb text "" || (safe_len (Some text) <? 10)%nat)%bool eqn:E.
  { simpl. repeat split. right. right. eauto. }
  destruct (wrong_type template) as [[|]|e] eqn:Ety.
  { simpl. repeat split. right. right. eauto 6. }
  2:{ simpl. repeat split. apply wrong_type_raises in Ety. subst e. now left. }
  destruct (payload_too_large int body_len) eqn:Ep.
  { simpl. repeat split. right. right. eauto 7. }
  destruct (read template) as [template_bytes|] eqn:Er.
  2:{ simpl. repeat split. right. now left. }
  destruct (MAX_FILE_SIZE_BYTES <? Z.of_nat (List.length template_bytes))%Z eqn:Es.
  { simpl. repeat split. right. right. eauto 7. }
  exfalso. apply Hn. split.
  { destruct (Nat.lt_ge_cases (String.length text) 10) as [H | H]; [|exact H].
    apply short_text in H. congruence. }
  split; [exact Ety|]. split; [exact Ep|].
  exists template_bytes. split; [exact Er|]. apply Z.ltb_ge in Es. exact Es.
Qed.

(** [analyze] answers 422 exactly when the text has fewer than ten
    characters, whatever else the request holds. A request that is not
    admitted never reaches the model: nothing is posted, slept or logged,
    and the answer is 422, 415 or 413, or the exception of a missing file
    name or of a failed read. *)
Theorem analyze_rejects_before_the_model_is_called (F : faults)
  (body_len : option string) (text guidance provider model api_key : string)
  (template : UploadFile) (w : World) :
  ((String.length text < 10)%nat <->
   exists d,
     returned (analyze F body_len text guidance provider model api_key template w)
     = Raise (HTTPException 422 d))
  /\ (~ admitted body_len text template ->
      world (analyze F body_len text guidance provider model api_key template w) = w
      /\ logged (analyze F body_len text guidance provider model api_key template w) = []
      /\ (returned (analyze F body_len text guidance provider model api_key template w)
          = Raise NoFilename
          \/ returned (analyze F body_len text guidance provider model api_key template w)
             = Raise ReadError
          \/ exists s d,
               returned (analyze F body_len text guidance provider model api_key
                           template w)
               = Raise (HTTPException s d)
               /\ (s = 422 \/ s = 415 \/ s = 413)%Z)).
Proof.
  split; [|apply analyze_not_admitted].
  rewrite <- short_text. unfold Main.analyze.
  destruct (String.eqb text "" || (safe_len (Some text) <? 10)%nat)%bool.
  { split; [intros _; eexists; reflexivity|reflexivity]. }
  split; [discriminate|]. intros [d H]. exfalso.
  destruct (wrong_type template) as [[|]|e0] eqn:Ety; cbn [returned] in H;
    try discriminate H.
  2:{ apply wrong_type_raises in Ety. subst e0. discriminate H. }
  destruct (payload_too_large int body_len); cbn [returned] in H;
    [discriminate H|].
  destruct (read template) as [template_bytes|]; cbn [returned] in H;
    [|discriminate H].
  destruct (MAX_FILE_SIZE_BYTES <? Z.of_nat (List.length template_bytes))%Z;
    cbn [returned] in H; [discriminate H|].
  destruct (collect_template_images F (Presentation template_bytes) 8) as [blobs|e1];
    destruct (generate_slide_outline _ _ _ _ _ _ _ _ _ _) as [[v|e] w'];
    try (destruct (is_Exception e); cbn [returned] in H; discriminate H);
    destruct (model_validate as_bool v); cbn [returned] in H; discriminate H.
Qed.

(** When the request is admitted and the call of the model raises an
    [Exception], [analyze] answers 502. The exception is the [RetryError]
    of the retry wrapper, so the detail shows that error and not the
    message of the provider; the record logged last carries the masked
    key; and the call has issued three POSTs at most. *)
Theorem analyze_answers_502_when_the_model_fails (F : faults)
  (body_len : option string) (text guidance provider model api_key : string)
  (template : UploadFile) (w : World) (e : exn) :
  admitted body_len text template ->
  fst (outline (Some (lower (strip provider))) (Some (strip model)) (strip api_key)
         text guidance w) = Raise e ->
  is_Exception e = true ->
  returned (analyze F body_len text guidance provider model api_key template w)
  = Raise (HTTPException 502 ("LLM failed: " ++ str_of_exn e))
  /\ (exists last, e = RetryError last)
  /\ world (analyze F body_len text guidance provider model api_key template w)
     = snd (outline (Some (lower (strip provider))) (Some (strip model))
              (strip api_key) text guidance w)
  /\ (List.length
        (posts (world (analyze F body_len text guidance provider model api_key
                         template w)))
      <= List.length (posts w) + 3)%nat
  /\ exists before,
       logged (analyze F body_len text guidance provider model api_key template w)
       = before ++ [ERROR ("LLM error: " ++ str_of_exn e ++ " (key="
                           ++ mask_api_key api_key ++ ")")].
Proof.
  intros Ha He Hx.
  destruct (analyze_admitted F body_len text guidance provider model api_key
              template w Ha) as [template_bytes [_ ->]].
  pose proof (outline_trace json_loads OPENAI_BASE transport random
                (Some (lower (strip provider))) (Some (strip model)) (strip api_key)
                text guidance w) as [k [Hk [Hw [_ Hr]]]].
  pose proof (attempt_posts_length OPENAI_BASE (Some (lower (strip provider)))
                (Some (strip model)) (strip api_key) text guidance) as Hl.
  unfold ProviderSpec.outline in Hw, Hr.
  destruct (generate_slide_outline json_loads OPENAI_BASE transport random
              (Some (lower (strip provider))) (Some (strip model)) (strip api_key)
              text guidance w) as [r w'].
  simpl in He, Hw, Hr. subst r w'. rewrite Hx.
  destruct (collect_template_images F (Presentation template_bytes) 8);
    cbn [returned world logged];
    (split; [reflexivity|]);
    (split; [destruct Hr as [[Hf _] | [_ [last [-> _]]]]; [congruence|now exists last]|]);
    (split; [reflexivity|]);
    (split; [|eexists; reflexivity]);
    unfold AdapterSpec.after_attempt; cbn [posts]; rewrite length_app;
    assert (k = 1 \/ k = 2 \/ k = 3)%nat as [-> | [-> | ->]] by lia; simpl;
    rewrite ?length_app; simpl; lia.
Qed.

(** When [analyze] returns, the request was admitted, the model returned
    an outline, and the deck of the answer is that outline validated: each
    of its slides is within the limits of the schema. The answer counts
    the reusable images of the template, eight at most, and none when they
    could not be collected. *)
Theorem analyze_returns_the_validated_outline (F : faults)
  (body_len : option string) (text guidance provider model api_key : string)
  (template : UploadFile) (w : World) (resp : AnalyzeResponse) :
  returned (analyze F body_len text guidance provider model api_key template w)
  = Ok resp ->
  admitted body_len text template
  /\ (exists slides_json,
        outline (Some (lower (strip provider))) (Some (strip model)) (strip api_key)
          text guidance w
        = (Ok slides_json,
           world (analyze F body_len text guidance provider model api_key template w))
        /\ model_validate as_bool slides_json = Ok (deck resp))
  /\ Forall within_limits (slides (deck resp))
  /\ exists template_bytes n,
       read template = Some template_bytes
       /\ n = List.length (harvest F (Presentation template_bytes))
       /\ (n <= 8)%nat
       /\ lookup "reusableImageCount"
            match theme_summary resp with
            | JObj kvs => kvs
            | _ => []
            end
          = Some (JInt (Z.of_nat n)).
Proof.
  intros H.
  assert (admitted body_len text template) as Ha.
  { destruct (admitted_dec body_len text template) as [Ha | Hn]; [exact Ha|].
    destruct (analyze_not_admitted F body_len text guidance provider model api_key
                template w Hn) as [_ [_ [E | [E | [s [d [E _]]]]]]];
      rewrite E in H; discriminate H. }
  split; [exact Ha|].
  destruct (analyze_admitted F body_len text guidance provider model api_key
              template w Ha) as [template_bytes [Hread E]].
  rewrite E in H |- *. clear E.
  assert (List.length (harvest F (Presentation template_bytes)) <= 8)%nat as H8.
  { unfold harvest.
    destruct (collect_template_images F (Presentation template_bytes) 8) as [l|e0] eqn:Ec;
      [|simpl; lia].
    apply collect_template_images_eq in Ec. subst l. apply firstn_le_length. }
  destruct (collect_template_images F (Presentation template_bytes) 8)
    as [blobs|e0] eqn:Ec;
    destruct (generate_slide_outline json_loads OPENAI_BASE transport random
                (Some (lower (strip provider))) (Some (strip model)) (strip api_key)
                text guidance w) as [[slides_json|e] w'];
    try (destruct (is_Exception e); discriminate H);
    (destruct (model_validate as_bool slides_json) as [d|ve] eqn:Ev;
     [|discriminate H]);
    cbn [returned world] in H |- *; injection H as <-; cbn [deck theme_summary];
    (split; [exists slides_json; now split|]);
    (split; [now apply (model_validate_within_limits as_bool slides_json)|]);
    exists template_bytes, (List.length (harvest F (Presentation template_bytes)));
    (split; [exact Hread|]); (split; [reflexivity|]); (split; [exact H8|]);
    unfold harvest; rewrite Ec; reflexivity.
Qed.

(** *** generate *)

Lemma build_reads_the_slides_only (F : faults) (tpl : Template) (d1 d2 : SlideDeck) :
  slides d1 = slides d2 ->
  build_presentation G F tpl d1 = build_presentation G F tpl d2.
Proof. intros H. unfold build_presentation. now rewrite H. Qed.

Lemma with_llm_slides (d : SlideDeck) (provider model api_key : string) :
  slides (with_llm d provider model api_key) = slides d.
Proof.
  unfold with_llm.
  now destruct (negb (String.eqb api_key "") && negb (String.eqb provider ""))%bool.
Qed.

(** The provider, the model and the key that a request to [generate] may
    carry have no part in the answer: the presentation is built from the
    slides of the deck alone, and missing notes are never filled in. *)
Theorem generate_ignores_the_llm_fields (F : faults) (deck_json : string)
  (template : UploadFile) (provider model api_key : string) :
  generate F deck_json template provider model api_key
  = generate F deck_json template "" "" "".
Proof.
  unfold Main.generate.
  destruct (model_validate_json as_bool from_json deck_json) as [d|ve]; [|reflexivity].
  destruct (read template) as [template_bytes|]; [|reflexivity].
  destruct (MAX_FILE_SIZE_BYTES <? Z.of_nat (List.length template_bytes))%Z;
    [reflexivity|].
  rewrite (build_reads_the_slides_only F (Presentation template_bytes)
             (with_llm d provider model api_key) (with_llm d "" "" ""));
    [reflexivity|].
  now rewrite !with_llm_slides.
Qed.

(** [generate] answers 422 exactly when the deck does not validate; its
    other error answers are 413 and 500. When it returns, the deck was
    valid and the template within the size limit, and the presentation
    holds the slides of the template followed by one new slide for each
    slide of the deck. *)
Theorem generate_builds_one_slide_per_deck_slide (F : faults) (deck_json : string)
  (template : UploadFile) (provider model api_key : string) :
  ((exists ve, model_validate_json as_bool from_json deck_json = Raise ve) <->
   exists d,
     generate F deck_json template provider model api_key
     = Raise (HTTPException 422 d))
  /\ (forall s d,
        generate F deck_json template provider model api_key
        = Raise (HTTPException s d) ->
        (s = 422 \/ s = 413 \/ s = 500)%Z)
  /\ (forall resp,
        generate F deck_json template provider model api_key = Ok resp ->
        exists deck template_bytes,
          model_validate_json as_bool from_json deck_json = Ok deck
          /\ Forall within_limits (slides deck)
          /\ read template = Some template_bytes
          /\ (Z.of_nat (List.length template_bytes) <= MAX_FILE_SIZE_BYTES)%Z
          /\ existing_slides (content resp) = tpl_slides (Presentation template_bytes)
          /\ List.length (added_slides (content resp)) = List.length (slides deck)
          /\ media_type resp = PPTX_TYPE).
Proof.
  unfold Main.generate.
  destruct (model_validate_json as_bool from_json deck_json) as [d|ve] eqn:Ev.
  2:{ split; [split; eauto|]. split.
      - intros s d [= <- _]. now left.
      - discriminate. }
  split.
  { split; [intros [ve H]; discriminate H|]. intros [d0 H]. exfalso.
    destruct (read template) as [template_bytes|]; [|discriminate H].
    destruct (MAX_FILE_SIZE_BYTES <? Z.of_nat (List.length template_bytes))%Z;
      [discriminate H|].
    destruct (build_presentation G F (Presentation template_bytes)
                (with_llm d provider model api_key)); discriminate H. }
  destruct (read template) as [template_bytes|]; [|split; discriminate].
  destruct (MAX_FILE_SIZE_BYTES <? Z.of_nat (List.length template_bytes))%Z eqn:Es.
  { split; [|discriminate]. intros s d0 [= <- _]. right. now left. }
  apply Z.ltb_ge in Es.
  destruct (build_presentation G F (Presentation template_bytes)
              (with_llm d provider model api_key)) as [pptx|e] eqn:Eb.
  2:{ split; [|discriminate]. intros s d0 [= <- _]. right. now right. }
  split; [discriminate|]. intros resp [= <-]. exists d, template_bytes.
  split; [reflexivity|].
  split.
  { unfold model_validate_json in Ev.
    destruct (from_json deck_json) as [j|]; [|discriminate Ev].
    destruct (model_validate as_bool j) as [d'|] eqn:Em; [|discriminate Ev].
    injection Ev as <-. now apply (model_validate_within_limits as_bool j). }
  split; [reflexivity|]. split; [exact Es|]. cbn [content media_type].
  assert (existing_slides pptx = tpl_slides (Presentation template_bytes)) as Hex.
  { unfold build_presentation, call in Eb.
    destruct (F Seek); [discriminate Eb|]. destruct (F Open); [discriminate Eb|].
    simpl in Eb.
    destruct (add_deck_slides _ _ _ _ _ _ _); [|discriminate Eb]. simpl in Eb.
    destruct (F Save); [discriminate Eb|]. now injection Eb as <-. }
  split; [exact Hex|]. split; [|reflexivity].
  apply build_presentation_ok in Eb.
  apply (add_deck_slides_each G F _ _ (fun _ _ _ => True)) in Eb; [|trivial].
  rewrite (proj1 Eb). apply f_equal, with_llm_slides.
Qed.

End Handlers.

(** *** Examples *)

Import SampleNet SampleApp.

Lemma upload_is_admitted :
  MainSpec.admitted decimal (Some "2048") "Ten slides about tea." upload.
Proof.
  split; [simpl; lia|]. split; [reflexivity|]. split; [reflexivity|].
  exists [Byte.x50; Byte.x4b]. split; [reflexivity|].
  vm_compute. intros E. discriminate E.
Qed.

Example analyze_rejections :
  returned (Main.analyze reference_loads None down half booleans decimal exn_name
              build_error_name validation_error_name parsed
              Sample.no_faults None "Too short" "" "openai" "" "k" upload fresh)
  = Raise (HTTPException 422 ("Please paste more text (" ++ at_least ++ "10 chars)."))
  /\ returned (Main.analyze reference_loads None down half booleans decimal exn_name
                 build_error_name validation_error_name parsed
                 Sample.no_faults None "Ten slides about tea." "" "openai" "" "k"
                 text_upload fresh)
     = Raise (HTTPException 415 "Upload a .pptx or .potx file.")
  /\ Main.analyze reference_loads None down half booleans decimal exn_name
       build_error_name validation_error_name parsed
       Sample.no_faults (Some "20971521") "Ten slides about tea." "" "openai" "" "k"
       renamed_upload fresh
     = mkOutcome (Raise (HTTPException 413 "Payload too large (> 20 MB).")) [] fresh
  /\ returned (Main.analyze reference_loads None down half booleans decimal exn_name
                 build_error_name validation_error_name parsed
                 Sample.no_faults (Some "20 MB") "Ten slides about tea." "" "openai" ""
                 "k" renamed_upload fresh)
     = Raise (HTTPException 502 "LLM failed: RetryError").
Proof. repeat split; reflexivity. Qed.

Lemma analyze_answers_502_when_the_model_fails_witness :
  returned (Main.analyze reference_loads None down half booleans decimal exn_name
              build_error_name validation_error_name parsed
              Sample.no_faults (Some "2048") "Ten slides about tea." "" " OpenAI " ""
              "sk-proj-abcdef123456" upload fresh)
  = Raise (HTTPException 502 "LLM failed: RetryError")
  /\ List.length
       (posts (world (Main.analyze reference_loads None down half booleans decimal
                        exn_name build_error_name validation_error_name parsed
                        Sample.no_faults (Some "2048") "Ten slides about tea." ""
                        " OpenAI " "" "sk-proj-abcdef123456" upload fresh)))
     = 3%nat.
Proof.
  split; [|reflexivity].
  exact (proj1 (analyze_answers_502_when_the_model_fails reference_loads None down half
                  booleans decimal exn_name build_error_name validation_error_name
                  parsed Sample.no_faults (Some "2048") "Ten slides about tea." ""
                  " OpenAI " "" "sk-proj-abcdef123456" upload fresh
                  (RetryError (TransportError "connection refused"))
                  upload_is_admitted eq_refl eq_refl)).
Defined.

Lemma analyze_returns_the_validated_outline_witness :
  Forall MainSpec.within_limits (slides (deck analysis))
  /\ exists slides_json,
       model_validate booleans slides_json = Ok (deck analysis).
Proof.
  destruct (analyze_returns_the_validated_outline reference_loads None
              (answers 200 (Some "ok") (Some (chat_completion outline_text))) half
              booleans decimal exn_name build_error_name validation_error_name parsed
              Sample.no_faults (Some "2048") "Ten slides about tea." "" "openai" ""
              "k" upload fresh analysis eq_refl)
    as [_ [[slides_json [_ Hv]] [Hl _]]].
  split; [exact Hl|]. now exists slides_json.
Defined.

Example generate_answers :
  Main.generate booleans decoded build_error_name json_validation_error_name parsed
    Sample.lcg Sample.no_faults "not a deck" upload "" "" ""
  = Raise (HTTPException 422 "Invalid deck JSON: invalid JSON")
  /\ Main.generate booleans decoded build_error_name json_validation_error_name parsed
       Sample.lcg Sample.no_faults "{}" upload "" "" ""
     = Raise (HTTPException 422 "Invalid deck JSON: missing slides")
  /\ Main.generate booleans decoded build_error_name json_validation_error_name parsed
       Sample.lcg Sample.open_fails outline_text upload "openai" "" "k"
     = Raise (HTTPException 500 "Failed to build PPTX: fault")
  /\ option_map (fun r => List.length (added_slides (content r)))
       match Main.generate booleans decoded build_error_name
               json_validation_error_name parsed Sample.lcg Sample.no_faults
               outline_text upload "openai" "" "k" with
       | Ok r => Some r
       | Raise _ => None
       end
     = Some 1%nat.
Proof. repeat split; reflexivity. Qed.

End MainProps.
